(** * Power-Analysis-Automation-System: acquisition core

    A shallow embedding of [lib/Scales.py], [lib/Data.py], [lib/LogWriter.py]
    and [lib/ActiveState.py], of the reading of a sample in the data
    providers, of [lib/Touchpad.py] and of the editor of [lib/ConfigState.py],
    and the properties of the acquisition core stated over it.

    Conventions of the embedding.
    - Python floats are modelled by exact rationals ([Q]); equalities between
      computed values are stated with [==], i.e. up to the rounding that the
      floating-point implementation adds.
    - Python ints that are settings are [Z]; dimensions, capacities and
      counters are [nat].
    - A Python list indexed and updated in place is a [list] with stdpp's
      lookup [!!] and [alter]/insert; an access out of range raises
      [IndexError], which is written out where the source can reach it.
    - A call that may raise returns a [result]: [Ok v] or [Raise e]. *)

From Stdlib Require Import QArith Qround Qabs Lqa.
From stdpp Require Import base list strings.
From Stdlib Require Import DecimalString.
From Stdlib Require DecimalFacts DecimalPos DecimalZ.

Local Open Scope Q_scope.

(** ** Exceptions and fallible computations *)

Inductive exn : Type :=
| KeyError
| IndexError
| ZeroDivisionError
| AttributeError
| StopIteration
| ProviderError.

Inductive result (A : Type) : Type :=
| Ok (a : A)
| Raise (e : exn).
Arguments Ok {A} a.
Arguments Raise {A} e.

Definition rbind {A B : Type} (m : result A) (k : A -> result B) : result B :=
  match m with
  | Ok a => k a
  | Raise e => Raise e
  end.

Notation "'let!' x ':=' m 'in' k" := (rbind m (fun x => k))
  (at level 10, x pattern, m at level 100, k at level 200).

(** Python's [a / b] on numbers: raises when the divisor is zero. *)
Definition py_div (a b : Q) : result Q :=
  if Qeq_bool b 0 then Raise ZeroDivisionError else Ok (a / b).

Definition Qltb (a b : Q) : bool := negb (Qle_bool b a).

(** ** Scales.py *)

Module Scales.

(** [INT_SCALES]: an ordered dictionary from the interval unit to the pair
    (seconds per unit, label of the unit durations are shown in). *)
Definition INT_SCALES : list (string * (Q * string)) :=
  [ ("ms", (1 # 1000, "s"));
    ("s",  (1,        "m"));
    ("m",  (60,       "h"));
    ("h",  (3600,     "d"));
    ("d",  (86400,    "d")) ]%string.

(** [d[key]] on a dictionary kept as an association list. *)
Fixpoint dict_getitem {V : Type} (d : list (string * V)) (key : string) : result V :=
  match d with
  | [] => Raise KeyError
  | (k, v) :: d' => if String.eqb k key then Ok v else dict_getitem d' key
  end.

Definition int_fac (scale : string) : result Q :=
  let! e := dict_getitem INT_SCALES scale in Ok (fst e).

Definition dur_scale (scale : string) : result string :=
  let! e := dict_getitem INT_SCALES scale in Ok (snd e).

Definition dur_fac (scale : string) : result Q :=
  let! d := dur_scale scale in
  let! e := dict_getitem INT_SCALES d in Ok (fst e).

(** The closed set of unit labels. *)
Definition is_unit (scale : string) : Prop :=
  scale = "ms"%string \/ scale = "s"%string \/ scale = "m"%string \/
  scale = "h"%string \/ scale = "d"%string.

End Scales.

(** ** A state-and-exception monad for the stateful classes

    A method that mutates [self] and may raise is a function from the state
    before the call to an [outcome]: the value returned or the exception
    raised, together with the state at that point (a Python exception does
    not roll back the mutations made before it). *)

Inductive outcome (S A : Type) : Type :=
| Return (a : A) (s : S)
| Throw (e : exn) (s : S).
Arguments Return {S A} a s.
Arguments Throw {S A} e s.

Definition M (S A : Type) : Type := S -> outcome S A.

Definition ret {S A : Type} (a : A) : M S A := fun s => Return a s.
Definition throw {S A : Type} (e : exn) : M S A := fun s => Throw e s.

Definition bind {S A B : Type} (m : M S A) (k : A -> M S B) : M S B :=
  fun s => match m s with
           | Return a s' => k a s'
           | Throw e s' => Throw e s'
           end.

Definition get_state {S : Type} : M S S := fun s => Return s s.
Definition modify {S : Type} (f : S -> S) : M S unit := fun s => Return tt (f s).

(** Lift a pure fallible computation. *)
Definition lift {S A : Type} (r : result A) : M S A :=
  match r with
  | Ok a => ret a
  | Raise e => throw e
  end.

Notation "x <- m ;; k" := (bind m (fun x => k))
  (at level 62, m at next level, right associativity).
Notation "m ;;; k" := (bind m (fun _ => k))
  (at level 62, right associativity).

(** [for i in range(dim): body(i)] *)
Fixpoint for_each {S I : Type} (body : I -> M S unit) (range : list I) : M S unit :=
  match range with
  | [] => ret tt
  | i :: range' => body i ;;; for_each body range'
  end.

Definition final_state {S A : Type} (o : outcome S A) : S :=
  match o with
  | Return _ s => s
  | Throw _ s => s
  end.

(** [l[i]] for reading. *)
Definition getitem {A : Type} (l : list A) (i : nat) : result A :=
  match l !! i with
  | Some x => Ok x
  | None => Raise IndexError
  end.

(** A list comprehension [[f(x) for x in l]]: the entries are evaluated in
    order and the first exception ends the evaluation. *)
Fixpoint comprehension {A B : Type} (f : A -> result B) (l : list A)
  : result (list B) :=
  match l with
  | [] => Ok []
  | x :: l' =>
      let! y := f x in
      let! ys := comprehension f l' in
      Ok (y :: ys)
  end.

(** [try: body / except StopIteration: handler] *)
Definition try_stop {S A : Type} (body handler : M S A) : M S A :=
  fun s => match body s with
           | Throw StopIteration s' => handler s'
           | o => o
           end.

(** [try: body / except: handler] *)
Definition try_any {S A : Type} (body handler : M S A) : M S A :=
  fun s => match body s with
           | Throw _ s' => handler s'
           | o => o
           end.

(** Python's [max(a, b)] of two numbers: [a] unless [b] is larger. *)
Definition py_max (a b : Q) : Q := if Qltb a b then b else a.

(** ** Data.py: DataAggregator *)

Module DataAggregator.

(** One entry of [_data]: the three-element list [[min, sum, max]]. The
    sum is exact here; the rounding of the running float sum, which depends
    on the order of the additions, is not modelled. *)
Record channel : Type := Channel { c_min : Q; c_sum : Q; c_max : Q }.

Record t : Type := Aggregator {
  _dim : nat;
  _n : nat;
  _data : list channel
}.

(** [[1e6, -1, 0]] *)
Definition fresh : channel := Channel 1000000 (-1) 0.

Definition reset (self : t) : t :=
  {| _dim := _dim self; _n := 0; _data := replicate (_dim self) fresh |}.

Definition init (dim : nat) : t :=
  reset {| _dim := dim; _n := 0; _data := [] |}.

(** The body of the loop of [add] for one [value] at [self._data[index]]. *)
Definition update (value : Q) (d : channel) : channel :=
  let d1 := Channel (c_min d) (c_sum d + value) (c_max d) in
  let d2 := if Qltb value (c_min d1)
            then Channel value (c_sum d1) (c_max d1) else d1 in
  if Qltb (c_max d2) value
  then Channel (c_min d2) (c_sum d2) value else d2.

(** [for index, value in enumerate(values)], from position [index]. *)
Fixpoint add_loop (dim index : nat) (values : list Q) (data : list channel)
  : result (list channel) :=
  match values with
  | [] => Ok data
  | value :: rest =>
      if Nat.eqb index dim then Ok data
      else
        match data !! index with
        | None => Raise IndexError
        | Some _ => add_loop dim (S index) rest (alter (update value) index data)
        end
  end.

Definition add (self : t) (values : list Q) : result t :=
  let n := S (_n self) in
  let! data := add_loop (_dim self) 0 values (_data self) in
  Ok {| _dim := _dim self; _n := n; _data := data |}.

Definition count (self : t) : Q := inject_Z (Z.of_nat (_n self)).

Definition summary (self : t) (d : channel) : result (Q * Q * Q) :=
  let! mean := py_div (c_sum d) (count self) in
  Ok (c_min d, mean, c_max d).

Definition get (self : t) : result (list (Q * Q * Q)) :=
  comprehension (summary self) (_data self).

Definition get_index (self : t) (index : nat) : result (Q * Q * Q) :=
  let! d := getitem (_data self) index in
  summary self d.

Definition get_mean (self : t) : result (list Q) :=
  comprehension (fun d => py_div (c_sum d) (count self)) (_data self).

(** Adding a sequence of samples, one call of [add] after the other. *)
Fixpoint add_all (self : t) (samples : list (list Q)) : result t :=
  match samples with
  | [] => Ok self
  | values :: rest => let! self' := add self values in add_all self' rest
  end.

End DataAggregator.

(** ** Data.py: DataTable *)

Module DataTable.

Record t : Type := Table {
  _dim : nat;
  _size : nat;
  _n : nat;
  _data : list (list Q)
}.

Definition reset (self : t) : t :=
  {| _dim := _dim self; _size := _size self; _n := 0;
     _data := replicate (_dim self) [] |}.

Definition init (dim size : nat) : t :=
  reset {| _dim := dim; _size := size; _n := 0; _data := [] |}.

Definition set_data (data : list (list Q)) (self : t) : t :=
  {| _dim := _dim self; _size := _size self; _n := _n self; _data := data |}.

(** [self._data[i] = self._data[i][1:]] *)
Definition drop_oldest (i : nat) : M t unit :=
  self <- get_state ;;
  row <- lift (getitem (_data self) i) ;;
  modify (set_data (<[i := drop 1 row]> (_data self))).

(** [self._data[i].append(values[i])] *)
Definition append (values : list Q) (i : nat) : M t unit :=
  self <- get_state ;;
  row <- lift (getitem (_data self) i) ;;
  v <- lift (getitem values i) ;;
  modify (set_data (<[i := row ++ [v]]> (_data self))).

Definition add (values : list Q) : M t unit :=
  self <- get_state ;;
  first <- lift (getitem (_data self) 0) ;;
  (if Nat.eqb (length first) (_size self)
   then for_each drop_oldest (seq 0 (_dim self))
   else ret tt) ;;;
  for_each (append values) (seq 0 (_dim self)).

Definition get (self : t) : list (list Q) := _data self.

Definition get_index (self : t) (index : nat) : result (list Q) :=
  getitem (_data self) index.

(** Adding a sequence of samples, one call of [add] after the other. *)
Definition add_all (samples : list (list Q)) : M t unit :=
  for_each add samples.

End DataTable.

(** ** Formatting of numbers, as [str.format] does it *)

Definition nl : string := String (Ascii.ascii_of_nat 10) EmptyString.

(** [{:d}] on an int. *)
Definition fmt_d (z : Z) : string := NilZero.string_of_int (Z.to_int z).

Definition digits (n : Z) : string := NilZero.string_of_uint (N.to_uint (Z.to_N n)).

(** Rounding to the nearest integer, ties to the even one. *)
Definition round_half_even (a : Q) : Z :=
  let f := Qfloor a in
  let d := a - inject_Z f in
  if Qltb d (1 # 2) then f
  else if Qltb (1 # 2) d then (f + 1)%Z
  else if Z.even f then f else (f + 1)%Z.

(** [s.rjust(width, '0')] *)
Definition zero_pad (width : nat) (s : string) : string :=
  String.concat EmptyString (replicate (width - String.length s) "0"%string) +:+ s.

(** [{:.<prec>f}] on a number: sign, integer part and [prec] decimals. *)
Definition fmt_f (prec : nat) (q : Q) : string :=
  let scale := (10 ^ Z.of_nat prec)%Z in
  let r := round_half_even (Qabs q * inject_Z scale) in
  let sign := if Qltb q 0 then "-"%string else EmptyString in
  let int_part := digits (r / scale) in
  match prec with
  | O => sign +:+ int_part
  | _ => sign +:+ int_part +:+ "." +:+ zero_pad prec (digits (r mod scale))
  end.

(** A format string whose replacement fields are all [{index:.<prec>f}], in
    parsed form: literal text and fields. *)
Inductive piece : Type :=
| Lit (text : string)
| Field (index prec : nat).

Definition template : Type := list piece.

(** [str.format] on the template and the argument tuple: a field whose index has no argument raises
    [IndexError]. *)
Fixpoint format (tpl : template) (args : list Q) : result string :=
  match tpl with
  | [] => Ok EmptyString
  | Lit text :: tpl' =>
      let! rest := format tpl' args in Ok (text +:+ rest)
  | Field index prec :: tpl' =>
      let! a := getitem args index in
      let! rest := format tpl' args in
      Ok (fmt_f prec a +:+ rest)
  end.

(** ** The application context shared by the logger and the active state *)

Module App.

(** What one call of [data_provider.get_data()] does: it returns a sample,
    raises [StopIteration] (no more data), or raises another exception. *)
Inductive reading : Type :=
| Sample (values : list Q)
| EndOfStream
| HardFailure.

(** The collaborators that [_run] does not control, as oracles indexed by
    the number of calls made so far: the data provider, the monotonic
    clock, and the key-polling task, which may set the stop flag while
    [_run] is suspended in an [await]. [sys_maxsize] is [sys.maxsize]. *)
Record world : Type := World {
  w_read : nat -> reading;
  w_clock : nat -> Q;
  w_key_stop : nat -> bool;
  sys_maxsize : Q
}.

Record settings : Type := Settings {
  interval : Z;
  int_scale : string;
  duration : Z;
  oversample : Z;
  update : Z;
  plots : bool
}.

(** The static part of a data provider. *)
Record provider : Type := Provider {
  get_dim : nat;
  get_units : list string;
  get_fmt : template
}.

Record ctx : Type := Ctx {
  app_settings : settings;
  data_provider : provider;
  app_world : world
}.

(** [app.results]: its fields [time], [samples] and [values]. The list
    [plots] of the PlotView objects belongs to the display, which is not
    modelled; nothing here speaks of it. *)
Record session_result : Type := SessionResult {
  r_time : Q;
  r_samples : nat;
  r_values : list (Q * Q * Q)
}.

Inductive activity : Type := KeyPolling | ViewRefresh.

(** The actions of [_run] that are observable from outside, in order. *)
Inductive event : Type :=
| TaskCreated (a : activity)
| Printed (msg : string)
| Published
| Joined (a b : activity).

(** The mutable state: the cursors of the oracles, the attributes of the
    [ActiveState] object, the attributes of the logger and the lines it was
    given, [app.results], and the events so far. An attribute that may not
    have been assigned yet is an [option]. *)
Record state : Type := State {
  reads : nat;
  ticks : nat;
  awaits : nat;
  _stop : bool;
  _new_sample : bool;
  data_t : option Q;
  data_v : option (list Q);
  _start_t : option Q;
  _next_sample_t : option Q;
  lw_scales : option (Q * string * Q);
  sink : list string;
  results : session_result;
  trace : list event
}.

Definition set_reads (x : nat) (s : state) : state :=
  {| reads := x;
     ticks := ticks s;
     awaits := awaits s;
     _stop := _stop s;
     _new_sample := _new_sample s;
     data_t := data_t s;
     data_v := data_v s;
     _start_t := _start_t s;
     _next_sample_t := _next_sample_t s;
     lw_scales := lw_scales s;
     sink := sink s;
     results := results s;
     trace := trace s |}.

Definition set_ticks (x : nat) (s : state) : state :=
  {| reads := reads s;
     ticks := x;
     awaits := awaits s;
     _stop := _stop s;
     _new_sample := _new_sample s;
     data_t := data_t s;
     data_v := data_v s;
     _start_t := _start_t s;
     _next_sample_t := _next_sample_t s;
     lw_scales := lw_scales s;
     sink := sink s;
     results := results s;
     trace := trace s |}.

Definition set_awaits (x : nat) (s : state) : state :=
  {| reads := reads s;
     ticks := ticks s;
     awaits := x;
     _stop := _stop s;
     _new_sample := _new_sample s;
     data_t := data_t s;
     data_v := data_v s;
     _start_t := _start_t s;
     _next_sample_t := _next_sample_t s;
     lw_scales := lw_scales s;
     sink := sink s;
     results := results s;
     trace := trace s |}.

Definition set_stop (x : bool) (s : state) : state :=
  {| reads := reads s;
     ticks := ticks s;
     awaits := awaits s;
     _stop := x;
     _new_sample := _new_sample s;
     data_t := data_t s;
     data_v := data_v s;
     _start_t := _start_t s;
     _next_sample_t := _next_sample_t s;
     lw_scales := lw_scales s;
     sink := sink s;
     results := results s;
     trace := trace s |}.

Definition set_new_sample (x : bool) (s : state) : state :=
  {| reads := reads s;
     ticks := ticks s;
     awaits := awaits s;
     _stop := _stop s;
     _new_sample := x;
     data_t := data_t s;
     data_v := data_v s;
     _start_t := _start_t s;
     _next_sample_t := _next_sample_t s;
     lw_scales := lw_scales s;
     sink := sink s;
     results := results s;
     trace := trace s |}.

Definition set_data_t (x : option Q) (s : state) : state :=
  {| reads := reads s;
     ticks := ticks s;
     awaits := awaits s;
     _stop := _stop s;
     _new_sample := _new_sample s;
     data_t := x;
     data_v := data_v s;
     _start_t := _start_t s;
     _next_sample_t := _next_sample_t s;
     lw_scales := lw_scales s;
     sink := sink s;
     results := results s;
     trace := trace s |}.

Definition set_data_v (x : option (list Q)) (s : state) : state :=
  {| reads := reads s;
     ticks := ticks s;
     awaits := awaits s;
     _stop := _stop s;
     _new_sample := _new_sample s;
     data_t := data_t s;
     data_v := x;
     _start_t := _start_t s;
     _next_sample_t := _next_sample_t s;
     lw_scales := lw_scales s;
     sink := sink s;
     results := results s;
     trace := trace s |}.

Definition set_start_t (x : option Q) (s : state) : state :=
  {| reads := reads s;
     ticks := ticks s;
     awaits := awaits s;
     _stop := _stop s;
     _new_sample := _new_sample s;
     data_t := data_t s;
     data_v := data_v s;
     _start_t := x;
     _next_sample_t := _next_sample_t s;
     lw_scales := lw_scales s;
     sink := sink s;
     results := results s;
     trace := trace s |}.

Definition set_next_sample_t (x : option Q) (s : state) : state :=
  {| reads := reads s;
     ticks := ticks s;
     awaits := awaits s;
     _stop := _stop s;
     _new_sample := _new_sample s;
     data_t := data_t s;
     data_v := data_v s;
     _start_t := _start_t s;
     _next_sample_t := x;
     lw_scales := lw_scales s;
     sink := sink s;
     results := results s;
     trace := trace s |}.

Definition set_lw_scales (x : option (Q * string * Q)) (s : state) : state :=
  {| reads := reads s;
     ticks := ticks s;
     awaits := awaits s;
     _stop := _stop s;
     _new_sample := _new_sample s;
     data_t := data_t s;
     data_v := data_v s;
     _start_t := _start_t s;
     _next_sample_t := _next_sample_t s;
     lw_scales := x;
     sink := sink s;
     results := results s;
     trace := trace s |}.

Definition set_sink (x : list string) (s : state) : state :=
  {| reads := reads s;
     ticks := ticks s;
     awaits := awaits s;
     _stop := _stop s;
     _new_sample := _new_sample s;
     data_t := data_t s;
     data_v := data_v s;
     _start_t := _start_t s;
     _next_sample_t := _next_sample_t s;
     lw_scales := lw_scales s;
     sink := x;
     results := results s;
     trace := trace s |}.

Definition set_results (x : session_result) (s : state) : state :=
  {| reads := reads s;
     ticks := ticks s;
     awaits := awaits s;
     _stop := _stop s;
     _new_sample := _new_sample s;
     data_t := data_t s;
     data_v := data_v s;
     _start_t := _start_t s;
     _next_sample_t := _next_sample_t s;
     lw_scales := lw_scales s;
     sink := sink s;
     results := x;
     trace := trace s |}.

Definition set_trace (x : list event) (s : state) : state :=
  {| reads := reads s;
     ticks := ticks s;
     awaits := awaits s;
     _stop := _stop s;
     _new_sample := _new_sample s;
     data_t := data_t s;
     data_v := data_v s;
     _start_t := _start_t s;
     _next_sample_t := _next_sample_t s;
     lw_scales := lw_scales s;
     sink := sink s;
     results := results s;
     trace := x |}.

Definition set_time (x : Q) (r : session_result) : session_result :=
  {| r_time := x; r_samples := r_samples r; r_values := r_values r |}.
Definition set_samples (x : nat) (r : session_result) : session_result :=
  {| r_time := r_time r; r_samples := x; r_values := r_values r |}.
Definition set_values (x : list (Q * Q * Q)) (r : session_result)
  : session_result :=
  {| r_time := r_time r; r_samples := r_samples r; r_values := x |}.

(** Reading an attribute that may be unset. *)
Definition attr {A : Type} (a : option A) : result A :=
  match a with
  | Some x => Ok x
  | None => Raise AttributeError
  end.

(** [time.monotonic()] *)
Definition monotonic (c : ctx) : M state Q :=
  s <- get_state ;;
  modify (set_ticks (S (ticks s))) ;;;
  ret (w_clock (app_world c) (ticks s)).

(** [self._app.data_provider.get_data()] *)
Definition get_data (c : ctx) : M state (list Q) :=
  s <- get_state ;;
  modify (set_reads (S (reads s))) ;;;
  match w_read (app_world c) (reads s) with
  | Sample values => ret values
  | EndOfStream => throw StopIteration
  | HardFailure => throw ProviderError
  end.

(** [await asyncio.sleep(...)]: the other tasks run. The view task redraws
    and clears [_new_sample]; the key-polling task changes the view or sets
    [_stop]. Of these effects [_run] reads only the stop flag, so this is the
    one that is modelled; a flag that is set stays set. The duration that is
    passed to [asyncio.sleep] is not kept here: the clock is an oracle, and
    the durations requested by the pause are the subject of [pause_slices]
    below. *)
Definition suspend (c : ctx) : M state unit :=
  s <- get_state ;;
  modify (set_awaits (S (awaits s))) ;;;
  modify (set_stop (orb (_stop s) (w_key_stop (app_world c) (awaits s)))).

Definition emit (e : event) : M state unit :=
  modify (fun s => set_trace (trace s ++ [e]) s).

(** [self.log(msg)] of the logger: the sink takes the line. *)
Definition log (msg : string) : M state unit :=
  modify (fun s => set_sink (sink s ++ [msg]) s).

End App.

(** ** LogWriter.py *)

Module LogWriter.
Import App.

(** [self._fmt], set in [__init__]:
    ["{0:.1f}," + app.data_provider.get_fmt() + "\n"] *)
Definition _fmt (c : ctx) : template :=
  [Field 0 1; Lit ","] ++ get_fmt (data_provider c) ++ [Lit nl].

Definition log_settings (c : ctx) : M state unit :=
  let settings := app_settings c in
  int_fac <- lift (Scales.int_fac (int_scale settings)) ;;
  dur_scale <- lift (Scales.dur_scale (int_scale settings)) ;;
  dur_fac <- lift (Scales.dur_fac (int_scale settings)) ;;
  modify (set_lw_scales (Some (int_fac, dur_scale, dur_fac))) ;;;
  log ("#" +:+ nl +:+ "#Interval:   " +:+ fmt_d (interval settings)
         +:+ int_scale settings +:+ nl) ;;;
  (if (0 <? oversample settings)%Z
   then log ("#Oversampling: " +:+ fmt_d (oversample settings) +:+ "X" +:+ nl)
   else ret tt) ;;;
  log ("#Duration:     " +:+ fmt_d (duration settings) +:+ dur_scale +:+ nl) ;;;
  log ("#Update:       " +:+ fmt_d (update settings) +:+ "ms" +:+ nl
         +:+ "#" +:+ nl).

(** The line of one sample. *)
Definition sample_line (c : ctx) (t : Q) (values : list Q) : result string :=
  format (_fmt c) (1000 * t :: values).

Definition log_values (c : ctx) (t : Q) (values : list Q) : M state unit :=
  line <- lift (sample_line c t values) ;;
  log line.

Definition count (samples : nat) : Q := inject_Z (Z.of_nat samples).

(** One line of the min/mean/max block. *)
Definition log_channel (c : ctx) (entry : nat * (Q * Q * Q)) : M state unit :=
  let '(index, (vmin, vmean, vmax)) := entry in
  unit <- lift (getitem (get_units (data_provider c)) index) ;;
  log ("#" +:+ fmt_f 2 vmin +:+ unit +:+ "," +:+ fmt_f 2 vmean +:+ unit
         +:+ "," +:+ fmt_f 2 vmax +:+ unit +:+ nl).

Definition log_summary (c : ctx) (samples : nat) : M state unit :=
  s <- get_state ;;
  scales <- lift (attr (lw_scales s)) ;;
  let '(int_fac, dur_scale, dur_fac) := scales in
  let time := r_time (results s) in
  d <- lift (py_div time dur_fac) ;;
  log ("#" +:+ nl +:+ "#Duration: " +:+ fmt_f 1 d +:+ dur_scale +:+ nl) ;;;
  rate <- lift (py_div (count samples) time) ;;
  log ("#Samples: " +:+ fmt_d (Z.of_nat samples) +:+ " (" +:+ fmt_f 1 rate
         +:+ "/s)" +:+ nl) ;;;
  per_unit <- lift (py_div time int_fac) ;;
  mean_interval <- lift (py_div per_unit (count samples)) ;;
  log ("#Mean Interval: " +:+ fmt_f 1 mean_interval
         +:+ int_scale (app_settings c) +:+ nl) ;;;
  log ("#Min,Mean,Max" +:+ nl) ;;;
  for_each (log_channel c) (imap pair (r_values (results s))).

End LogWriter.

(** ** ActiveState.py *)

Module ActiveState.
Import App.

(** The attributes that [run] computes from the settings before the session
    starts. *)
Record timing : Type := Timing {
  _int_fac : Q;
  _dur_fac : Q;
  _int_t : Q
}.

(** How a call of [_run] came back: by the [return] after the failed probe,
    or by reaching its last statement. *)
Inductive ending : Type := ProbeFailed | Finished.

Definition _dim (c : ctx) : nat := get_dim (data_provider c).

(** [for i in range(self._dim): d_sum[i] += data[i]] *)
Fixpoint accumulate (range : list nat) (data d_sum : list Q)
  : result (list Q) :=
  match range with
  | [] => Ok d_sum
  | i :: range' =>
      let! acc := getitem d_sum i in
      let! x := getitem data i in
      accumulate range' data (<[i := acc + x]> d_sum)
  end.

(** [for _ in range(self._settings.oversample)], with [k] rounds to go. *)
Fixpoint oversample_loop (c : ctx) (k : nat) (d_sum : list Q)
  : M state (list Q) :=
  match k with
  | O => ret d_sum
  | S k' =>
      data <- get_data c ;;
      d_sum' <- lift (accumulate (seq 0 (_dim c)) data d_sum) ;;
      oversample_loop c k' d_sum'
  end.

Definition _get_data (c : ctx) : M state (Q * list Q) :=
  let k := oversample (app_settings c) in
  if (k <? 2)%Z then
    t <- monotonic c ;;
    data <- get_data c ;;
    ret (t, data)
  else
    d_sum <- oversample_loop c (Z.to_nat k) (replicate (_dim c) 0) ;;
    averaged <- lift (comprehension
                        (fun i => let! acc := getitem d_sum i in
                                  py_div acc (inject_Z k))
                        (seq 0 (_dim c))) ;;
    t <- monotonic c ;;
    ret (t, averaged).

(** [while sleep_t: ...]: sleep in slices of at most one second and leave
    early when the stop flag is seen. [None] when the fuel runs out. *)
Fixpoint sleep_loop (c : ctx) (fuel : nat) (sleep_t : Q)
  : M state (option unit) :=
  if Qeq_bool sleep_t 0 then ret (Some tt)
  else
    match fuel with
    | O => ret None
    | S fuel' =>
        if Qltb 1 sleep_t then
          suspend c ;;;
          s <- get_state ;;
          if _stop s then ret (Some tt)
          else sleep_loop c fuel' (sleep_t - 1)
        else
          suspend c ;;;
          ret (Some tt)
    end.

(** The [if data_t_last > 0:] block, up to its [if self._stop: break];
    the value says whether to break. *)
Definition wait_interval (c : ctx) (tm : timing) (data_t_last : Q)
  : M state (option bool) :=
  t1 <- monotonic c ;;
  let sleep_t := py_max (_int_t tm - (t1 - data_t_last)) 0 in
  t2 <- monotonic c ;;
  modify (set_next_sample_t (Some (t2 + sleep_t))) ;;;
  r <- sleep_loop c (S (Z.to_nat (Qceiling sleep_t))) sleep_t ;;
  match r with
  | None => ret None
  | Some _ => s <- get_state ;; ret (Some (_stop s))
  end.

(** The body of the [try] of the main loop. *)
Definition take_sample (c : ctx) (m_data : DataAggregator.t)
  : M state (Q * DataAggregator.t) :=
  data_t_last <- monotonic c ;;
  sample <- _get_data c ;;
  modify (set_data_t (Some (fst sample))) ;;;
  modify (set_data_v (Some (snd sample))) ;;;
  modify (set_new_sample true) ;;;
  LogWriter.log_values c (fst sample) (snd sample) ;;;
  m_data' <- lift (DataAggregator.add m_data (snd sample)) ;;
  ret (data_t_last, m_data').

(** [while not self._stop and time.monotonic() < end_t: ...]; the value is
    the aggregator and the sample count at the exit of the loop, [None]
    when the fuel runs out. *)
Fixpoint main_loop (c : ctx) (tm : timing) (fuel : nat) (end_t data_t_last : Q)
    (m_data : DataAggregator.t) (samples : nat)
  : M state (option (DataAggregator.t * nat)) :=
  match fuel with
  | O => ret None
  | S fuel' =>
      s <- get_state ;;
      if _stop s then ret (Some (m_data, samples))
      else
        now <- monotonic c ;;
        if negb (Qltb now end_t) then ret (Some (m_data, samples))
        else
          slept <- (if Qltb 0 data_t_last
                    then wait_interval c tm data_t_last
                    else ret (Some false)) ;;
          match slept with
          | None => ret None
          | Some true => ret (Some (m_data, samples))
          | Some false =>
              taken <- try_stop
                         (r <- take_sample c m_data ;; ret (Some r))
                         (modify (set_stop true) ;;; ret None) ;;
              match taken with
              | None => ret (Some (m_data, samples))
              | Some (data_t_last', m_data') =>
                  main_loop c tm fuel' end_t data_t_last' m_data' (S samples)
              end
          end
  end.

(** "Save final results": the three assignments to [app.results]. *)
Definition publish (m_data : DataAggregator.t) (samples : nat) : M state unit :=
  s <- get_state ;;
  t <- lift (attr (data_t s)) ;;
  start <- lift (attr (_start_t s)) ;;
  modify (fun s => set_results (set_time (t - start) (results s)) s) ;;;
  modify (fun s => set_results (set_samples samples (results s)) s) ;;;
  values <- lift (DataAggregator.get m_data) ;;
  modify (fun s => set_results (set_values values (results s)) s) ;;;
  emit Published.

(** The part of [_run] after the main loop. *)
Definition finish (c : ctx) (m_data : DataAggregator.t) (samples : nat)
  : M state unit :=
  publish m_data samples ;;;
  LogWriter.log_summary c samples ;;;
  modify (set_stop true) ;;;
  emit (Joined KeyPolling ViewRefresh).

(** [_run]. The calls [self._logger.open()] and [self._logger.close()] are
    [pass] in [LogWriter]; [data_provider.reset()] acts on the provider only,
    whose behaviour is the oracle [w_read]. The [return] after the failed
    probe and the end of the function are told apart by the value. *)
Definition _run (c : ctx) (tm : timing) (fuel : nat) : M state (option ending) :=
  emit (TaskCreated KeyPolling) ;;;
  emit (TaskCreated ViewRefresh) ;;;
  LogWriter.log_settings c ;;;
  let m_data := DataAggregator.init (_dim c) in
  probe <- try_any
             (get_data c ;;; ret true)
             (emit (Printed (nl +:+ "#data-provider timed out")) ;;; ret false) ;;
  if negb probe then ret (Some ProbeFailed)
  else
    end_t <- (if (duration (app_settings c) =? 0)%Z
              then ret (sys_maxsize (app_world c))
              else now <- monotonic c ;;
                   ret (now + inject_Z (duration (app_settings c)) * _dur_fac tm)) ;;
    start <- monotonic c ;;
    modify (set_start_t (Some start)) ;;;
    r <- main_loop c tm fuel end_t 0 m_data 0 ;;
    match r with
    | None => ret None
    | Some (m_data', samples) =>
        finish c m_data' samples ;;;
        ret (Some Finished)
    end.

(** [run]: the attributes computed from the settings, then
    [asyncio.run(self._run())]. The statements that reset the views (among
    them the PlotView objects that [app.results.plots] refers to) act on the
    display only and are left out: of [app.results] the model has the
    fields [time], [samples] and [values]. *)
Definition run (c : ctx) (fuel : nat) : M state (option ending) :=
  modify (set_stop false) ;;;
  int_fac <- lift (Scales.int_fac (int_scale (app_settings c))) ;;
  dur_fac <- lift (Scales.dur_fac (int_scale (app_settings c))) ;;
  _run c {| _int_fac := int_fac; _dur_fac := dur_fac;
            _int_t := inject_Z (interval (app_settings c)) * int_fac |} fuel.

End ActiveState.

(** ** FakeDataProvider.py and INA260DataProvider.py: the static part *)

Module FakeDataProvider.

(** [get_units()], for the module constant [DIM]. *)
Definition get_units (DIM : nat) : list string :=
  if Nat.eqb DIM 2 then ["V"; "mA"]%string else ["V"; "V"; "mA"]%string.

(** [get_fmt()]: ["{1:.2f},{2:.1f}"] or ["{1:.2f},{2:.1f},{3:.1f}"]. *)
Definition get_fmt (DIM : nat) : template :=
  if Nat.eqb DIM 2
  then [Field 1 2; Lit ","; Field 2 1]
  else [Field 1 2; Lit ","; Field 2 1; Lit ","; Field 3 1].

Definition provider (DIM : nat) : App.provider :=
  App.Provider DIM (get_units DIM) (get_fmt DIM).

End FakeDataProvider.

Module INA260DataProvider.

(** The class attributes [_dim], [_units] and [_fmt], for the module
    constant [WITH_POWER]. *)
Definition _dim (WITH_POWER : bool) : nat := if WITH_POWER then 3 else 2.
Definition _units : list string := ["V"; "mA"; "mW"]%string.
Definition _fmt : list template :=
  [[Field 1 3]; [Field 2 3]; [Field 3 3]].

(** [sep.join(parts)] on format strings. *)
Fixpoint join (sep : string) (parts : list template) : template :=
  match parts with
  | [] => []
  | [part] => part
  | part :: rest => part ++ Lit sep :: join sep rest
  end.

Definition get_units (WITH_POWER : bool) : list string :=
  take (_dim WITH_POWER) _units.

Definition get_fmt (WITH_POWER : bool) : template :=
  join "," (take (_dim WITH_POWER) _fmt).

Definition provider (WITH_POWER : bool) : App.provider :=
  App.Provider (_dim WITH_POWER) (get_units WITH_POWER) (get_fmt WITH_POWER).

(** The registers of the sensor at one poll: [voltage] in volts, [current]
    in milliamperes, [power] in watts. *)
Record registers : Type := Registers { voltage : Q; current : Q; power : Q }.

(** What [get_data] takes from outside: the registers at each poll, the
    clock at each reading, and the thresholds [v_min] and [a_min] of the
    settings. *)
Record env : Type := Env {
  sensor : nat -> registers;
  clock : nat -> Q;
  v_min : Q;
  a_min : Q
}.

(** The polls and clock readings so far, and the attribute [_start]. *)
Record pstate : Type := PState { polls : nat; ticks : nat; _start : bool }.

Definition NO_LOAD_TIMEOUT : Q := 60.

Definition time_monotonic (e : env) : M pstate Q :=
  s <- get_state ;;
  modify (fun s => PState (polls s) (S (ticks s)) (_start s)) ;;;
  ret (clock e (ticks s)).

Definition read_sensor (e : env) : M pstate registers :=
  s <- get_state ;;
  modify (fun s => PState (S (polls s)) (ticks s) (_start s)) ;;;
  ret (sensor e (polls s)).

(** [a = max(0, self._ina260.current)] *)
Definition amperes (r : registers) : Q := py_max 0 (current r).

(** [v >= self._settings.v_min and a >= self._settings.a_min] *)
Definition above_thresholds (e : env) (r : registers) : bool :=
  Qle_bool (v_min e) (voltage r) && Qle_bool (a_min e) (amperes r).

(** [(v, a, 1000*p) if WITH_POWER else (v, a)] *)
Definition sample (WITH_POWER : bool) (r : registers) : list Q :=
  if WITH_POWER then [voltage r; amperes r; 1000 * power r]
  else [voltage r; amperes r].

(** [while True: ...]; [None] when the fuel runs out. *)
Fixpoint poll (WITH_POWER : bool) (e : env) (fuel : nat) (t_start : Q)
  : M pstate (option (list Q)) :=
  match fuel with
  | O => ret None
  | S fuel' =>
      r <- read_sensor e ;;
      if above_thresholds e r then
        modify (fun s => PState (polls s) (ticks s) true) ;;;
        ret (Some (sample WITH_POWER r))
      else
        s <- get_state ;;
        if _start s then throw StopIteration
        else
          now <- time_monotonic e ;;
          if Qltb NO_LOAD_TIMEOUT (now - t_start) then throw StopIteration
          else poll WITH_POWER e fuel' t_start
  end.

Definition get_data (WITH_POWER : bool) (e : env) (fuel : nat)
  : M pstate (option (list Q)) :=
  t_start <- time_monotonic e ;;
  poll WITH_POWER e fuel t_start.

End INA260DataProvider.

(** ** Touchpad.py *)

Module Touchpad.

Definition DEBOUNCE_TIME : Q := 200 # 1000.

(** A keymap: a dictionary from the number of a pad to the label of its
    key. *)
Definition keymap : Type := list (nat * string).

Local Open Scope nat_scope.

Definition KEYMAP_READY_P : keymap :=
  [(0, "START"); (4, "CONFIG"); (6, "TOGGLE"); (8, "EXIT")]%string.
Definition KEYMAP_ACTIVE_P : keymap := [(8, "STOP"); (6, "TOGGLE")]%string.
Definition KEYMAP_CONFIG_P : keymap :=
  [(0, "NEXT"); (4, "0"); (8, "CLR");
   (1, "7");    (5, "8"); (9, "9");
   (2, "4");    (6, "5"); (10, "6");
   (3, "1");    (7, "2"); (11, "3")]%string.
Definition KEYMAP_SHIFT_P : keymap :=
  [(0, "NEXT"); (4, "SHIFT"); (8, "CLR"); (5, "0"); (9, ".")]%string.

Definition KEYMAP_READY_L : keymap :=
  [(8, "START"); (4, "CONFIG"); (6, "TOGGLE"); (0, "EXIT")]%string.
Definition KEYMAP_ACTIVE_L : keymap := [(0, "STOP"); (6, "TOGGLE")]%string.
Definition KEYMAP_CONFIG_L : keymap :=
  [(11, "1"); (10, "2"); (9, "3"); (8, "NEXT");
   (7, "4");  (6, "5");  (5, "6"); (4, "0");
   (3, "7");  (2, "8");  (1, "9"); (0, "CLR")]%string.
Definition KEYMAP_SHIFT_L : keymap :=
  [(8, "NEXT"); (4, "SHIFT"); (0, "CLR"); (2, "0"); (1, ".")]%string.

Local Close Scope nat_scope.

(** What the provider takes from outside: the pads touched at each scan of
    the MPR121, the clock at each reading, and the orientation of the
    settings. *)
Record env : Type := Env {
  touched_pins : nat -> list bool;
  clock : nat -> Q;
  tp_orient : string
}.

(** The scans and clock readings so far, and the attribute [_last_key]. *)
Record tstate : Type := TState {
  scans : nat;
  ticks : nat;
  _last_key : Z * Q
}.

(** The keymaps chosen in [__init__]. *)
Definition KEYMAP_READY (e : env) : keymap :=
  if String.eqb (tp_orient e) "L" then KEYMAP_READY_L else KEYMAP_READY_P.
Definition KEYMAP_ACTIVE (e : env) : keymap :=
  if String.eqb (tp_orient e) "L" then KEYMAP_ACTIVE_L else KEYMAP_ACTIVE_P.
Definition KEYMAP_CONFIG (e : env) : keymap :=
  if String.eqb (tp_orient e) "L" then KEYMAP_CONFIG_L else KEYMAP_CONFIG_P.
Definition KEYMAP_SHIFT (e : env) : keymap :=
  if String.eqb (tp_orient e) "L" then KEYMAP_SHIFT_L else KEYMAP_SHIFT_P.

(** [keymap[index]], with [None] when [index not in keymap]. *)
Fixpoint keymap_get (km : keymap) (index : nat) : option string :=
  match km with
  | [] => None
  | (k, label) :: km' =>
      if Nat.eqb k index then Some label else keymap_get km' index
  end.

(** [touched.index(True)], with [None] when [True not in touched]. *)
Fixpoint index_true (touched : list bool) : option nat :=
  match touched with
  | [] => None
  | true :: _ => Some O
  | false :: touched' => option_map S (index_true touched')
  end.

Definition time_monotonic (e : env) : M tstate Q :=
  s <- get_state ;;
  modify (fun s => TState (scans s) (S (ticks s)) (_last_key s)) ;;;
  ret (clock e (ticks s)).

Definition read_pins (e : env) : M tstate (list bool) :=
  s <- get_state ;;
  modify (fun s => TState (S (scans s)) (ticks s) (_last_key s)) ;;;
  ret (touched_pins e (scans s)).

Definition _get_key (e : env) : M tstate (option nat) :=
  touched <- read_pins e ;;
  match index_true touched with
  | None => ret None
  | Some index =>
      now <- time_monotonic e ;;
      s <- get_state ;;
      if (Z.of_nat index =? fst (_last_key s))%Z
         && Qltb now (snd (_last_key s) + DEBOUNCE_TIME)
      then ret None
      else
        modify (fun s => TState (scans s) (ticks s) (Z.of_nat index, now)) ;;;
        ret (Some index)
  end.

(** [keymap[index]] for the result of [_get_key]; [None] is in no keymap. *)
Definition key_of (km : keymap) (index : option nat) : option string :=
  match index with
  | Some i => keymap_get km i
  | None => None
  end.

(** The loop of [wait_for_key]; [None] when the fuel runs out. *)
Fixpoint wait_loop (e : env) (fuel : nat) (normal_keymap km : keymap)
    (shift : bool) : M tstate (option string) :=
  match fuel with
  | O => ret None
  | S fuel' =>
      index <- _get_key e ;;
      match key_of km index with
      | None => wait_loop e fuel' normal_keymap km shift
      | Some label =>
          if negb (String.eqb label "SHIFT") then ret (Some label)
          else
            let shift' := negb shift in
            wait_loop e fuel' normal_keymap
                      (if shift' then KEYMAP_SHIFT e else normal_keymap) shift'
      end
  end.

Definition wait_for_key (e : env) (fuel : nat) (km : keymap)
  : M tstate (option string) :=
  wait_loop e fuel km km false.

Definition is_key_pressed (e : env) (km : keymap) : M tstate (option string) :=
  index <- _get_key e ;;
  ret (key_of km index).

End Touchpad.

(** ** ConfigState.py *)

Module ConfigState.

(** The exceptions of [_upd_value]: the [ValueError] of [int()], and those
    of the list index and of [dur_scale]. *)
Inductive error : Type :=
| ValueError
| Error (e : exn).

(** The value of an attribute of the settings: a string ([int_scale]) or an
    int (all the others). *)
Inductive pyval : Type :=
| PStr (s : string)
| PInt (z : Z).

(** [str(v)] *)
Definition str (v : pyval) : string :=
  match v with
  | PStr s => s
  | PInt z => fmt_d z
  end.

(** [int(s)] on a string of decimal digits with an optional minus sign; any
    other string that the keys of the touchpad can build (the empty string,
    a lone sign, a string with a dot) raises [ValueError]. *)
Definition py_int (s : string) : error + Z :=
  match NilZero.int_of_string s with
  | Some d => inr (Z.of_int d)
  | None => inl ValueError
  end.

(** [value[:-1]] *)
Definition drop_last (value : string) : string :=
  String.substring 0 (String.length value - 1) value.

(** [l[index]] with Python's negative indices. *)
Definition py_getitem {A : Type} (l : list A) (index : Z) : error + A :=
  let n := Z.of_nat (length l) in
  let i := if (index <? 0)%Z then (index + n)%Z else index in
  if (i <? 0)%Z then inl (Error IndexError)
  else match l !! Z.to_nat i with
       | Some x => inr x
       | None => inl (Error IndexError)
       end.

(** The body of the loop for a key other than [NEXT]: the new [value]. *)
Definition press (nr : nat) (value key : string) : error + string :=
  if String.eqb key "CLR" then
    if Nat.eqb nr 0 then inr "ms"%string
    else if Nat.ltb 1 (String.length value) then inr (drop_last value)
    else inr "0"%string
  else if String.eqb value "0" then inr key
  else if Nat.eqb nr 0 then
    match py_int key with
    | inl e => inl e
    | inr k =>
        let index := (Z.min k (Z.of_nat (length Scales.INT_SCALES)) - 1)%Z in
        match py_getitem Scales.INT_SCALES index with
        | inl e => inl e
        | inr item => inr (fst item)
        end
    end
  else inr (value ++ key)%string.

(** How [_upd_value] ended: the attribute was set and the method returned;
    the attribute was set and the update of the duration view raised; or an
    exception was raised with the attribute as it was. *)
Inductive ending : Type :=
| Stored (v : pyval)
| StoredThenRaised (v : pyval) (e : error)
| Raised (e : error).

(** The branch of the key [NEXT]. *)
Definition save (nr : nat) (value : string) : ending :=
  if Nat.eqb nr 0 then
    match Scales.dur_scale value with
    | Ok _ => Stored (PStr value)
    | Raise e => StoredThenRaised (PStr value) (Error e)
    end
  else
    match py_int value with
    | inr z => Stored (PInt z)
    | inl e => Raised e
    end.

(** [while True: ...] over the keys that the calls of [wait_for_key] return,
    in order; [None] when the keys run out before [NEXT]: the method is
    still waiting. The views show the value and the units and are left
    out. *)
Fixpoint edit_loop (nr : nat) (value : string) (keys : list string)
  : option ending :=
  match keys with
  | [] => None
  | key :: keys' =>
      if String.eqb key "NEXT" then Some (save nr value)
      else
        match press nr value key with
        | inl e => Some (Raised e)
        | inr value' => edit_loop nr value' keys'
        end
  end.

(** [_upd_value(nr)], as a function of the current value of the attribute
    [self._attr[nr]], which it reads at its start and sets at [NEXT]. *)
Definition _upd_value (nr : nat) (current : pyval) (keys : list string)
  : option ending :=
  edit_loop nr (str current) keys.

End ConfigState.

(** ** ActiveState.py: the durations of the pause *)

Module Pause.
Import App ActiveState.

(** The loop [while sleep_t: ...] of [_run] once more, as [sleep_loop], now
    with the durations that it passes to [asyncio.sleep], in order: [1] in
    the branch [sleep_t > 1], and [sleep_t] in the other. *)
Fixpoint pause_slices (c : ctx) (fuel : nat) (sleep_t : Q)
  : M state (option (list Q)) :=
  if Qeq_bool sleep_t 0 then ret (Some [])
  else
    match fuel with
    | O => ret None
    | S fuel' =>
        if Qltb 1 sleep_t then
          suspend c ;;;
          s <- get_state ;;
          if _stop s then ret (Some [1])
          else
            rest <- pause_slices c fuel' (sleep_t - 1) ;;
            ret (option_map (cons 1) rest)
        else
          suspend c ;;;
          ret (Some [sleep_t])
    end.

End Pause.

(** ** Notions the properties are stated with *)

(** The table of the unit labels as the specification gives it: label,
    seconds per unit, next larger unit. *)
Definition unit_table : list (string * Q * string) :=
  [ ("ms", 1 # 1000, "s"); ("s", 1, "m"); ("m", 60, "h");
    ("h", 3600, "d"); ("d", 86400, "d") ]%string.

(** The values submitted for channel [i] by a sequence of samples, in
    submission order (a sample too short to have one submits none). *)
Definition column (i : nat) (samples : list (list Q)) : list Q :=
  omap (fun values => values !! i) samples.

(** The sum of a list of numbers. *)
Definition total (l : list Q) : Q := fold_right Qplus 0 l.

(** The arithmetic mean of a list of numbers. *)
Definition arithmetic_mean (l : list Q) : Q :=
  total l / inject_Z (Z.of_nat (length l)).

(** The last [n] elements of a list, oldest first. *)
Definition last_n {A : Type} (n : nat) (l : list A) : list A :=
  drop (length l - n) l.


(** What one sample does to a channel of the aggregator: an update when the
    sample has a value for it. *)
Definition observe (o : option Q) (d : DataAggregator.channel)
  : DataAggregator.channel :=
  match o with
  | Some v => DataAggregator.update v d
  | None => d
  end.

(** The aggregators that [reset] and [add] produce have one entry of [_data]
    per dimension. *)
Definition wf (self : DataAggregator.t) : Prop :=
  length (DataAggregator._data self) = DataAggregator._dim self.

(** The rows of a table after the rows at the indices from [k] to [k + n - 1]
    were replaced by their image under [g]. *)
Definition rows_updated {A : Type} (g : nat -> list A -> list A) (k n : nat)
    (data : list (list A)) : list (list A) :=
  imap (fun j row => if decide (k <= j < k + n)%nat then g j row else row) data.

(** The rows of a table of capacity [size] that has seen [samples]. *)
Definition window_rows (dim size : nat) (samples : list (list Q))
  : list (list Q) :=
  (fun j => last_n size (column j samples)) <$> seq 0 dim.

(** Sample sequences used as concrete inputs. *)
Definition one_sample : list (list Q) := [[7]].
Definition sample_of_two : list (list Q) := [[2]].
Definition negative_second_channel : list (list Q) := [[5; -3]; [4; -(1 # 2)]].
Definition three_samples : list (list Q) := [[1; 10]; [2; 20]; [3; 30]].
Definition three_single_samples : list (list Q) := [[1]; [2]; [3]].

(** A provider and settings like those of the INA260 configuration, and
    small worlds and states for concrete sessions. *)
Definition ina260 : App.provider :=
  App.Provider 2 ["V"; "mA"]%string [Field 1 3; Lit ","; Field 2 3].

Definition settings_1s : App.settings := App.Settings 1 "s" 0 0 0 false.
Definition settings_oversample3 : App.settings := App.Settings 1 "s" 0 3 0 false.

(** A clock that starts at 100 s and advances by half a second per reading. *)
Definition clock_from_100 (n : nat) : Q := 100 + inject_Z (Z.of_nat n) / 2.

(** The probe and two more reads succeed, then the load is removed. *)
Definition world_two_samples : App.world :=
  App.World (fun n => if Nat.ltb n 3 then App.Sample [5; 25] else App.EndOfStream)
            clock_from_100 (fun _ => false) 4611686018427387903.

(** The probe succeeds and the load is removed right after it. *)
Definition world_load_removed : App.world :=
  App.World (fun n => if Nat.ltb n 1 then App.Sample [5; 25] else App.EndOfStream)
            clock_from_100 (fun _ => false) 4611686018427387903.

(** The provider fails on its first read. *)
Definition world_probe_fails : App.world :=
  App.World (fun n => if Nat.ltb n 1 then App.HardFailure else App.Sample [5; 25])
            clock_from_100 (fun _ => false) 4611686018427387903.

(** The [n]-th read yields the values [3 * (n + 1)] and [1]. *)
Definition world_ramp : App.world :=
  App.World (fun n => App.Sample [inject_Z (3 * Z.of_nat (S n)); 1])
            clock_from_100 (fun _ => false) 4611686018427387903.

Definition ramp_readings : list (list Q) := [[3; 1]; [6; 1]; [9; 1]].

(** The state of a new [ActiveState] object, and the state of one that has
    run a session before (its [data_t] is still set). *)
Definition earlier_result : App.session_result :=
  App.SessionResult 7 3 [(1, 2, 3); (4, 5, 6)].

Definition new_state : App.state :=
  App.State 0 0 0 false false None None None None None [] earlier_result [].

Definition used_state : App.state :=
  App.State 0 0 0 false false (Some 3) (Some [5; 25]) (Some 1) None None []
            earlier_result [].

(** A triple for the state-and-exception monad: whatever [m] does, the state
    it ends in is related by [R] to the state it started in, and a value it
    returns satisfies [Q]. *)
Definition triple {S A : Type} (R : S -> S -> Prop) (m : M S A) (Q : A -> Prop)
  : Prop :=
  forall s, match m s with
            | Return a s' => R s s' /\ Q a
            | Throw _ s' => R s s'
            end.

(** The events of the session are unchanged. *)
Definition same_trace (s s' : App.state) : Prop := App.trace s' = App.trace s.

(** A line of the log whose first field is the reading [1000 * t] of the
    monotonic clock with one decimal, followed by a comma, the values in the
    format of the provider, and a newline. *)
Definition timestamped_line (c : App.ctx) (line : string) : Prop :=
  exists k values body,
    let t := App.w_clock (App.app_world c) k in
    format (App.get_fmt (App.data_provider c)) (1000 * t :: values) = Ok body /\
    line = fmt_f 1 (1000 * t) +:+ "," +:+ body +:+ nl.

(** The sink has received only timestamped lines in between. *)
Definition logged_samples (c : App.ctx) (s s' : App.state) : Prop :=
  exists lines,
    App.sink s' = App.sink s ++ lines /\ Forall (timestamped_line c) lines.

(** A value that is a reading of the monotonic clock. *)
Definition clock_reading (c : App.ctx) (t : Q) : Prop :=
  exists k, t = App.w_clock (App.app_world c) k.

(** A provider without channels. *)
Definition no_channels : App.provider := App.Provider 0 [] [].

(** The cursor of the provider is where it was. *)
Definition same_reads (s s' : App.state) : Prop := App.reads s' = App.reads s.

(** The cursor of the provider has not moved back. *)
Definition reads_advance (s s' : App.state) : Prop :=
  (App.reads s <= App.reads s')%nat.

(** From the read number [bound] on the provider has no more samples. *)
Definition stream_ended (c : App.ctx) (bound : nat) : Prop :=
  forall j values,
    (bound <= j)%nat -> App.w_read (App.app_world c) j <> App.Sample values.

(** Every field of a format refers to one of [n] arguments. *)
Definition fields_within (n : nat) (tpl : template) : Prop :=
  Forall (fun p => match p with
                   | Lit _ => True
                   | Field index _ => (index < n)%nat
                   end) tpl.

(** The header that [log_settings] writes. *)
Definition settings_header (st : App.settings) (dur_scale : string)
  : list string :=
  [("#" +:+ nl +:+ "#Interval:   " +:+ fmt_d (App.interval st)
      +:+ App.int_scale st +:+ nl)%string]
  ++ (if (0 <? App.oversample st)%Z
      then [("#Oversampling: " +:+ fmt_d (App.oversample st) +:+ "X" +:+ nl)%string]
      else [])
  ++ [("#Duration:     " +:+ fmt_d (App.duration st) +:+ dur_scale +:+ nl)%string;
      ("#Update:       " +:+ fmt_d (App.update st) +:+ "ms" +:+ nl
         +:+ "#" +:+ nl)%string].

(** A state after a session of two samples that took four seconds. *)
Definition published_state : App.state :=
  App.State 4 9 0 true true (Some 104) (Some [5; 25]) (Some 100) None
            (Some (1, "m"%string, 60)) []
            (App.SessionResult 4 2 [(5, 5, 5); (25, 25, 25)]) [].

(** The same with a clock that did not advance between the start and the
    sample. *)
Definition published_at_once : App.state :=
  App.State 4 9 0 true true (Some 100) (Some [5; 25]) (Some 100) None
            (Some (1, "m"%string, 60)) []
            (App.SessionResult 0 1 [(5, 5, 5); (25, 25, 25)]) [].

(** The provider never has a load: every read signals the end of the
    stream. *)
Definition world_no_load : App.world :=
  App.World (fun _ => App.EndOfStream) clock_from_100 (fun _ => false)
            4611686018427387903.

(** Settings with an interval unit that is not in the table. *)
Definition settings_bad_unit : App.settings := App.Settings 1 "us" 0 0 0 false.

(** Two reads succeed and the third signals the end of the stream. *)
Definition world_two_then_end : App.world :=
  App.World (fun n => if Nat.ltb n 2 then App.Sample [5; 25] else App.EndOfStream)
            clock_from_100 (fun _ => false) 4611686018427387903.

Definition two_readings : list (list Q) := [[5; 25]; [5; 25]].

(** The pause before the next sample, as [_run] computes it: the interval
    less the time since the previous acquisition started, and not below
    zero. *)
Definition sleep_budget (c : App.ctx) (tm : ActiveState.timing)
    (data_t_last : Q) (s : App.state) : Q :=
  py_max (ActiveState._int_t tm
          - (App.w_clock (App.app_world c) (App.ticks s) - data_t_last)) 0.


(** A second sample is due five seconds after the previous one, which was
    taken at 99 s on the clock. *)
Definition timing_5s : ActiveState.timing := ActiveState.Timing 1 60 5.

(** The lines given to the logger are the same. *)
Definition same_sink (s s' : App.state) : Prop := App.sink s' = App.sink s.

(** A clock that advances at every reading and stays below 100 s. *)
Definition clock_below_100 (n : nat) : Q := 100 - (1 # Pos.of_succ_nat n).

(** The probe and two more reads succeed, then the stream ends; the clock
    never reaches the end time. *)
Definition world_bounded_clock : App.world :=
  App.World (fun n => if Nat.ltb n 3 then App.Sample [5; 25] else App.EndOfStream)
            clock_below_100 (fun _ => false) 4611686018427387903.

Definition reading_5_25 : list Q := [5; 25].

(** No load at a poll: the voltage or the current is below its threshold. *)
Definition no_load (e : INA260DataProvider.env) (k : nat) : Prop :=
  INA260DataProvider.above_thresholds e (INA260DataProvider.sensor e k) = false.

(** A sensor that shows a load of 5 V and 25 mA from the third poll on, and
    a clock that advances by half a second per reading. *)
Definition env_load_at_third_poll : INA260DataProvider.env :=
  INA260DataProvider.Env
    (fun k => if Nat.ltb k 2 then INA260DataProvider.Registers 0 (-1) 0
              else INA260DataProvider.Registers 5 25 (1 # 8))
    clock_from_100 1 1.

(** A sensor that never shows a load, and a clock that advances by 25 s per
    reading. *)
Definition env_no_load : INA260DataProvider.env :=
  INA260DataProvider.Env
    (fun _ => INA260DataProvider.Registers 0 (-1) 0)
    (fun n => 25 * inject_Z (Z.of_nat n)) 1 1.

(** Every two neighbours of a list are related. *)
Fixpoint neighbours {A : Type} (R : A -> A -> Prop) (l : list A) : Prop :=
  match l with
  | a :: (b :: _) as l' => R a b /\ neighbours R l'
  | _ => True
  end.

(** The keys that [n] calls of [_get_key] report, each with the time that is
    recorded with it in [_last_key]. *)
Fixpoint reported_keys (e : Touchpad.env) (n : nat) (s : Touchpad.tstate)
  : list (Z * Q) :=
  match n with
  | O => []
  | S n' =>
      match Touchpad._get_key e s with
      | Return (Some _) s' => Touchpad._last_key s' :: reported_keys e n' s'
      | Return None s' => reported_keys e n' s'
      | Throw _ _ => []
      end
  end.

(** Two reports that the debounce lets through one after the other: of
    different pads, or at least [DEBOUNCE_TIME] apart. *)
Definition debounced (a b : Z * Q) : Prop :=
  fst a <> fst b \/ snd a + Touchpad.DEBOUNCE_TIME <= snd b.

(** The labels of a keymap. *)
Definition labels (km : Touchpad.keymap) : list string := map snd km.

(** Pad 0 is touched at the first scan. *)
Definition pad_0_touched : Touchpad.env :=
  Touchpad.Env (fun _ => [true; false; false; false; false; false;
                          false; false; false; false; false; false])
               clock_from_100 "P".

(** Pads 6 and 8 are touched together. *)
Definition pads_6_and_8_touched : Touchpad.env :=
  Touchpad.Env (fun _ => [false; false; false; false; false; false;
                          true; false; true; false; false; false])
               clock_from_100 "P".

(** No key was seen yet: the state after [__init__] at time 0. *)
Definition no_key_yet : Touchpad.tstate := Touchpad.TState 0 0 ((-1)%Z, 0).

(** The keys of the config keymap other than [NEXT]: the ten digits and
    [CLR]. *)
Definition config_key (key : string) : Prop :=
  In key ["0"; "1"; "2"; "3"; "4"; "5"; "6"; "7"; "8"; "9"; "CLR"]%string.

(** The unit that a key of the config keymap selects in the editor of the
    interval unit. *)
Definition chosen_unit (key : string) : string :=
  if String.eqb key "CLR" then "ms"
  else if String.eqb key "1" then "ms"
  else if String.eqb key "2" then "s"
  else if String.eqb key "3" then "m"
  else if String.eqb key "4" then "h"
  else "d".

(** What a key does to the number in an editor of a numeric setting: a
    digit is appended in decimal, [CLR] removes the last digit. *)
Definition typed (n : Z) (key : string) : Z :=
  if String.eqb key "CLR" then (n / 10)%Z
  else match ConfigState.py_int key with
       | inr d => (10 * n + d)%Z
       | inl _ => n
       end.

(** Keys pressed in the examples. *)
Definition keys_3_9_clr : list string := ["3"; "9"; "CLR"]%string.
Definition keys_1_5_0_clr_7 : list string := ["1"; "5"; "0"; "CLR"; "7"]%string.

(** The results of the last session are unchanged. *)
Definition same_results (s s' : App.state) : Prop :=
  App.results s' = App.results s.

(** The probe and one more read succeed, then the provider fails hard. *)
Definition world_fails_at_third_read : App.world :=
  App.World (fun n => if Nat.ltb n 2 then App.Sample [5; 25] else App.HardFailure)
            clock_below_100 (fun _ => false) 4611686018427387903.

Definition one_reading : list (list Q) := [[5; 25]].

(** One line of the min/mean/max block: the three values of a channel with
    two decimals, each followed by the unit of the channel. *)
Definition channel_line (unit : string) (triple : Q * Q * Q) : string :=
  ("#" +:+ fmt_f 2 (fst (fst triple)) +:+ unit +:+ ","
       +:+ fmt_f 2 (snd (fst triple)) +:+ unit +:+ ","
       +:+ fmt_f 2 (snd triple) +:+ unit +:+ nl)%string.

(** The summary of a session of [samples] samples with the result [r]: the
    duration in the duration unit, the number of samples with the rate per
    second, the mean interval in the interval unit, the heading, and one
    line per channel. *)
Definition summary_block (st : App.settings) (units : list string)
    (samples : nat) (r : App.session_result)
    (int_fac : Q) (dur_scale : string) (dur_fac : Q) : list string :=
  [ ("#" +:+ nl +:+ "#Duration: " +:+ fmt_f 1 (App.r_time r / dur_fac)
       +:+ dur_scale +:+ nl)%string;
    ("#Samples: " +:+ fmt_d (Z.of_nat samples) +:+ " ("
       +:+ fmt_f 1 (LogWriter.count samples / App.r_time r) +:+ "/s)"
       +:+ nl)%string;
    ("#Mean Interval: "
       +:+ fmt_f 1 (App.r_time r / int_fac / LogWriter.count samples)
       +:+ App.int_scale st +:+ nl)%string;
    ("#Min,Mean,Max" +:+ nl)%string ]
  ++ zip_with channel_line units (App.r_values r).









(** The durations of a pause of [sleep_t] seconds: every one is positive and
    at most one second, every one but the last is one second, there is one
    for each started second, and they add up to [sleep_t]. *)
Definition sliced (sleep_t : Q) (slices : list Q) : Prop :=
  total slices == sleep_t /\
  Forall (fun d => 0 < d /\ d <= 1) slices /\
  length slices = Z.to_nat (Qceiling sleep_t) /\
  forall i d, slices !! i = Some d -> (S i < length slices)%nat -> d = 1.

(** * Properties *)

(** ** Comparisons and division on rationals *)

Lemma Qltb_lt (a b : Q) : Qltb a b = true <-> a < b.
Proof.
  unfold Qltb. rewrite negb_true_iff. split; intros H.
  - apply Qnot_le_lt. intros Hle. apply Qle_bool_iff in Hle. congruence.
  - destruct (Qle_bool b a) eqn:E; [|reflexivity].
    apply Qle_bool_iff in E. exfalso. exact (Qlt_not_le _ _ H E).
Qed.

Lemma Qltb_ge (a b : Q) : Qltb a b = false <-> b <= a.
Proof.
  unfold Qltb. rewrite negb_false_iff. apply Qle_bool_iff.
Qed.

Lemma py_div_ok (a b : Q) : ~ b == 0 -> py_div a b = Ok (a / b).
Proof.
  intros Hb. unfold py_div.
  destruct (Qeq_bool b 0) eqn:E; [|reflexivity].
  apply Qeq_bool_iff in E. contradiction.
Qed.

Lemma py_div_zero (a b : Q) : b == 0 -> py_div a b = Raise ZeroDivisionError.
Proof.
  intros Hb. unfold py_div. apply Qeq_bool_iff in Hb. now rewrite Hb.
Qed.

Lemma count_nonzero (n : nat) : n <> O -> ~ inject_Z (Z.of_nat n) == 0.
Proof.
  intros Hn H. unfold Qeq in H. simpl in H. lia.
Qed.

(** ** Scales *)

Section ScalesFacts.
Import Scales.
Local Open Scope string_scope.

Lemma unit_table_labels (scale : string) :
  is_unit scale <-> exists fac next, In (scale, fac, next) unit_table.
Proof.
  unfold is_unit, unit_table. split.
  - intros [-> | [-> | [-> | [-> | ->]]]]; do 2 eexists; simpl; eauto 10.
  - intros (fac & next & H). simpl in H.
    repeat (destruct H as [H | H]; [inversion H; tauto|]). contradiction.
Qed.

Lemma dict_getitem_outside (scale : string) :
  ~ is_unit scale -> dict_getitem INT_SCALES scale = Raise KeyError.
Proof.
  intros Hn. unfold INT_SCALES, dict_getitem.
  repeat match goal with
         | |- context [String.eqb ?k scale] =>
             destruct (String.eqb_spec k scale) as [E | _];
             [exfalso; apply Hn; unfold is_unit; rewrite <- E; tauto|]
         end.
  reflexivity.
Qed.

(** C9. For each label of the closed set {ms, s, m, h, d}, [int_fac] is its
    seconds-per-unit factor, [dur_scale] is the next larger unit
    (ms->s, s->m, m->h, h->d, d->d) and [dur_fac] is [int_fac] of that next
    unit; for a label outside the set each of the three functions raises
    (a [KeyError]) instead of returning a value. *)
Theorem scales_closed_set :
  (forall scale fac next,
      In (scale, fac, next) unit_table ->
      int_fac scale = Ok fac /\ dur_scale scale = Ok next /\
      dur_fac scale = int_fac next) /\
  (forall scale,
      ~ is_unit scale ->
      int_fac scale = Raise KeyError /\ dur_scale scale = Raise KeyError /\
      dur_fac scale = Raise KeyError).
Proof.
  split.
  - intros scale fac next H. simpl in H.
    repeat (destruct H as [H | H];
            [inversion H; subst; repeat split; reflexivity|]).
    contradiction.
  - intros scale Hn. unfold int_fac, dur_fac, dur_scale.
    rewrite (dict_getitem_outside scale Hn). simpl. auto.
Qed.

Lemma scales_closed_set_witness :
  (int_fac "h" = Ok 3600 /\ dur_scale "h" = Ok "d" /\
   dur_fac "h" = int_fac "d") /\
  (int_fac "us" = Raise KeyError /\ dur_scale "us" = Raise KeyError /\
   dur_fac "us" = Raise KeyError).
Proof.
  split.
  - apply (proj1 scales_closed_set "h" 3600 "d"). simpl. tauto.
  - apply (proj2 scales_closed_set "us").
    unfold is_unit. intros [H | [H | [H | [H | H]]]]; discriminate H.
Defined.

End ScalesFacts.

(** ** DataAggregator *)

Section AggregatorFacts.
Import DataAggregator.

Lemma add_loop_lookup (dim : nat) (values : list Q) :
  forall (index : nat) (data : list channel),
    length data = dim -> (index <= dim)%nat ->
    exists data',
      add_loop dim index values data = Ok data' /\
      length data' = dim /\
      forall j, data' !! j =
                observe (if decide (index <= j)%nat
                         then values !! (j - index)%nat else None)
                  <$> data !! j.
Proof.
  induction values as [|v rest IH]; intros index data Hlen Hle.
  - exists data. repeat split; [assumption|]. intros j.
    destruct (decide _); destruct (data !! j); reflexivity.
  - simpl. destruct (Nat.eqb_spec index dim) as [-> | Hne].
    + exists data. repeat split; [assumption|]. intros j.
      destruct (decide (dim <= j)%nat) as [Hj | Hj].
      * rewrite (lookup_ge_None_2 data j) by lia. reflexivity.
      * destruct (data !! j); reflexivity.
    + destruct (lookup_lt_is_Some_2 data index ltac:(lia)) as [d Hd].
      rewrite Hd.
      destruct (IH (S index) (alter (update v) index data)) as (data' & E & L & H).
      { rewrite length_alter. assumption. }
      { lia. }
      exists data'. repeat split; [assumption | assumption |].
      intros j. rewrite H.
      destruct (decide (j = index)) as [-> | Hji].
      * rewrite list_lookup_alter_eq, Hd.
        destruct (decide (S index <= index)%nat); [lia|].
        destruct (decide (index <= index)%nat); [|lia].
        replace (index - index)%nat with O by lia. reflexivity.
      * rewrite list_lookup_alter_ne by congruence.
        destruct (decide (S index <= j)%nat), (decide (index <= j)%nat);
          try lia; [|reflexivity].
        replace (j - index)%nat with (S (j - S index)) by lia. reflexivity.
Qed.

Lemma init_wf (dim : nat) : wf (init dim).
Proof. unfold wf, init, reset. simpl. apply length_replicate. Qed.

Lemma add_spec (self : t) (values : list Q) :
  wf self ->
  exists self',
    add self values = Ok self' /\ wf self' /\
    _dim self' = _dim self /\ _n self' = S (_n self) /\
    forall j, _data self' !! j = observe (values !! j) <$> _data self !! j.
Proof.
  intros Hwf. unfold add.
  destruct (add_loop_lookup (_dim self) values O (_data self) Hwf ltac:(lia))
    as (data' & E & L & H).
  rewrite E. simpl. eexists. repeat split; simpl; try assumption.
  intros j. rewrite H. destruct (decide (0 <= j)%nat); [|lia].
  now rewrite Nat.sub_0_r.
Qed.

Lemma add_all_spec (samples : list (list Q)) :
  forall self,
    wf self ->
    exists self',
      add_all self samples = Ok self' /\ wf self' /\
      _dim self' = _dim self /\ _n self' = (_n self + length samples)%nat /\
      forall j, _data self' !! j =
                (fun d => fold_left (fun d v => update v d) (column j samples) d)
                  <$> _data self !! j.
Proof.
  induction samples as [|values rest IH]; intros self Hwf.
  - exists self. simpl. repeat split; try assumption; try lia.
    intros j. destruct (_data self !! j); reflexivity.
  - simpl. destruct (add_spec self values Hwf) as (s1 & E1 & W1 & D1 & N1 & H1).
    rewrite E1. simpl.
    destruct (IH s1 W1) as (s2 & E2 & W2 & D2 & N2 & H2).
    exists s2. repeat split; try assumption; try congruence; try lia.
    intros j. rewrite H2, H1.
    destruct (_data self !! j) as [d|]; simpl; [|reflexivity].
    f_equal. unfold column. simpl. destruct (values !! j); reflexivity.
Qed.

Lemma update_fields (v : Q) (d : channel) :
  c_min (update v d) = (if Qltb v (c_min d) then v else c_min d) /\
  c_sum (update v d) = c_sum d + v /\
  c_max (update v d) = (if Qltb (c_max d) v then v else c_max d).
Proof.
  unfold update. simpl.
  destruct (Qltb v (c_min d)); simpl; destruct (Qltb (c_max d) v); simpl; auto.
Qed.

Lemma update_bounds (v : Q) (d : channel) :
  c_min (update v d) <= c_min d /\ c_min (update v d) <= v /\
  c_max d <= c_max (update v d) /\ v <= c_max (update v d).
Proof.
  destruct (update_fields v d) as (-> & _ & ->).
  destruct (Qltb v (c_min d)) eqn:E1; destruct (Qltb (c_max d) v) eqn:E2;
    repeat match goal with
           | H : Qltb _ _ = true |- _ => apply Qltb_lt in H
           | H : Qltb _ _ = false |- _ => apply Qltb_ge in H
           end;
    repeat split; auto using Qle_refl, Qlt_le_weak.
Qed.

Lemma fold_update_monotone (vs : list Q) :
  forall d,
    c_min (fold_left (fun d v => update v d) vs d) <= c_min d /\
    c_max d <= c_max (fold_left (fun d v => update v d) vs d).
Proof.
  induction vs as [|v vs IH]; intros d; simpl.
  - split; apply Qle_refl.
  - destruct (IH (update v d)) as [H1 H2].
    destruct (update_bounds v d) as (B1 & _ & B3 & _).
    split; eapply Qle_trans; eauto.
Qed.

Lemma fold_update_bounds (vs : list Q) :
  forall d v,
    In v vs ->
    c_min (fold_left (fun d v => update v d) vs d) <= v /\
    v <= c_max (fold_left (fun d v => update v d) vs d).
Proof.
  induction vs as [|x vs IH]; intros d v Hin; simpl in *; [contradiction|].
  destruct Hin as [-> | Hin]; [|apply IH; assumption].
  destruct (fold_update_monotone vs (update v d)) as [H1 H2].
  destruct (update_bounds v d) as (_ & B2 & _ & B4).
  split; eapply Qle_trans; eauto.
Qed.

Lemma fold_update_sum (vs : list Q) :
  forall d,
    c_sum (fold_left (fun d v => update v d) vs d) == c_sum d + total vs.
Proof.
  induction vs as [|v vs IH]; intros d; simpl.
  - ring.
  - rewrite IH. destruct (update_fields v d) as (_ & -> & _). ring.
Qed.

Lemma fold_update_max_kept (vs : list Q) :
  forall d,
    (forall v, In v vs -> v <= c_max d) ->
    c_max (fold_left (fun d v => update v d) vs d) = c_max d.
Proof.
  induction vs as [|v vs IH]; intros d Hle; simpl; [reflexivity|].
  assert (E : c_max (update v d) = c_max d).
  { destruct (update_fields v d) as (_ & _ & ->).
    destruct (Qltb (c_max d) v) eqn:E; [|reflexivity].
    apply Qltb_lt in E. exfalso.
    apply (Qlt_not_le _ _ E). apply Hle. now left. }
  rewrite IH; [assumption|].
  intros x Hx. rewrite E. apply Hle. now right.
Qed.

Lemma comprehension_ok {A B : Type} (f : A -> result B) (g : A -> B)
    (l : list A) :
  (forall x, In x l -> f x = Ok (g x)) -> comprehension f l = Ok (map g l).
Proof.
  induction l as [|x l IH]; intros H; simpl; [reflexivity|].
  rewrite (H x) by now left. simpl.
  rewrite IH by (intros y Hy; apply H; now right). reflexivity.
Qed.

(** With at least one sample added, [get] returns one triple per channel. *)
Lemma get_ok (self : t) :
  _n self <> O ->
  get self = Ok (map (fun d => (c_min d, c_sum d / count self, c_max d))
                     (_data self)).
Proof.
  intros Hn. unfold get. apply comprehension_ok. intros d _.
  unfold summary. rewrite py_div_ok; [reflexivity|].
  apply count_nonzero. assumption.
Qed.

(** With no sample added and at least one channel, [get] raises. *)
Lemma get_empty_raises (self : t) :
  _n self = O -> _data self <> [] -> get self = Raise ZeroDivisionError.
Proof.
  intros Hn Hd. unfold get. destruct (_data self) as [|d data]; [congruence|].
  simpl. unfold summary, count. rewrite Hn. reflexivity.
Qed.

Lemma column_length (i : nat) (samples : list (list Q)) :
  Forall (fun values => (i < length values)%nat) samples ->
  length (column i samples) = length samples.
Proof.
  induction 1 as [|values rest Hv _ IH]; [reflexivity|].
  unfold column in *. simpl.
  destruct (lookup_lt_is_Some_2 values i Hv) as [v ->]. simpl.
  f_equal. exact IH.
Qed.

(** What [get] returns after [samples] were added to a fresh aggregator:
    for each channel the bounds hold, and the mean is computed from a sum
    that started at -1. *)
Lemma get_after_adds (dim : nat) (samples : list (list Q)) :
  samples <> [] ->
  exists self triples,
    add_all (init dim) samples = Ok self /\
    get self = Ok triples /\
    length triples = dim /\
    forall i, (i < dim)%nat ->
      exists vmin vmean vmax,
        triples !! i = Some (vmin, vmean, vmax) /\
        (forall v, In v (column i samples) -> vmin <= v /\ v <= vmax) /\
        vmean == (total (column i samples) - 1)
                   / inject_Z (Z.of_nat (length samples)) /\
        vmax = c_max (fold_left (fun d v => update v d) (column i samples) fresh).
Proof.
  intros Hne.
  destruct (add_all_spec samples (init dim) (init_wf dim))
    as (self & E & W & D & N & H).
  assert (Hn : _n self <> O).
  { rewrite N. destruct samples; [congruence|]. simpl. lia. }
  exists self. eexists. split; [exact E|]. split; [apply (get_ok self Hn)|].
  split.
  { rewrite length_map, W, D. reflexivity. }
  intros i Hi.
  assert (Hd : _data self !! i =
               Some (fold_left (fun d v => update v d) (column i samples) fresh)).
  { rewrite H. unfold init, reset. simpl.
    rewrite lookup_replicate_2 by assumption. reflexivity. }
  do 3 eexists. split.
  { rewrite list_lookup_fmap, Hd. reflexivity. }
  split; [|split; [|reflexivity]].
  - intros v Hv. apply fold_update_bounds. assumption.
  - rewrite fold_update_sum. unfold count. rewrite N. simpl.
    unfold Qdiv. apply Qmult_comp; [|reflexivity]. simpl. ring.
Qed.

Lemma shifted_mean (T : Q) (n : nat) :
  n <> O ->
  (T - 1) / inject_Z (Z.of_nat n)
    == T / inject_Z (Z.of_nat n) - 1 / inject_Z (Z.of_nat n) /\
  ~ (T - 1) / inject_Z (Z.of_nat n) == T / inject_Z (Z.of_nat n).
Proof.
  intros Hn. pose proof (count_nonzero n Hn) as Hc.
  set (c := inject_Z (Z.of_nat n)) in *. split.
  - field. assumption.
  - intros H.
    assert (E : c * ((T - 1) / c) == c * (T / c)) by now rewrite H.
    rewrite !Qmult_div_r in E by assumption. lra.
Qed.

(** C1. For every dimension [dim >= 1] and every sequence of [N >= 1]
    samples (each with at least [dim] values) added to a fresh aggregator,
    [get] returns one triple per channel with min <= every observed value
    <= max; the mean it returns, however, is the arithmetic mean of the
    observed values minus [1/N], never the arithmetic mean itself, because
    [reset] starts the running sum at -1. *)
Theorem aggregator_mean_is_shifted (dim : nat) (samples : list (list Q)) :
  (1 <= dim)%nat ->
  samples <> [] ->
  Forall (fun values => (dim <= length values)%nat) samples ->
  exists self triples,
    add_all (init dim) samples = Ok self /\
    get self = Ok triples /\
    length triples = dim /\
    forall i, (i < dim)%nat ->
      exists vmin vmean vmax,
        triples !! i = Some (vmin, vmean, vmax) /\
        (forall v, In v (column i samples) -> vmin <= v /\ v <= vmax) /\
        vmean == arithmetic_mean (column i samples)
                   - 1 / inject_Z (Z.of_nat (length samples)) /\
        ~ vmean == arithmetic_mean (column i samples).
Proof.
  intros _ Hne Hlen.
  destruct (get_after_adds dim samples Hne) as (self & triples & E & G & L & H).
  exists self, triples. repeat split; try assumption.
  intros i Hi. destruct (H i Hi) as (vmin & vmean & vmax & Hl & Hb & Hm & _).
  exists vmin, vmean, vmax. split; [assumption|]. split; [assumption|].
  assert (Hc : length (column i samples) = length samples).
  { apply column_length. eapply Forall_impl; [exact Hlen|].
    simpl. intros values Hv. lia. }
  assert (Hn : length samples <> O) by (destruct samples; simpl; congruence).
  unfold arithmetic_mean. rewrite Hc, Hm.
  apply shifted_mean. assumption.
Qed.

Lemma aggregator_mean_is_shifted_witness :
  exists self triples,
    add_all (init 1) sample_of_two = Ok self /\
    get self = Ok triples /\
    length triples = 1%nat /\
    forall i, (i < 1)%nat ->
      exists vmin vmean vmax,
        triples !! i = Some (vmin, vmean, vmax) /\
        (forall v, In v (column i sample_of_two) -> vmin <= v /\ v <= vmax) /\
        vmean == arithmetic_mean (column i sample_of_two)
                   - 1 / inject_Z (Z.of_nat (length sample_of_two)) /\
        ~ vmean == arithmetic_mean (column i sample_of_two).
Proof.
  apply (aggregator_mean_is_shifted 1 sample_of_two).
  - lia.
  - discriminate.
  - repeat constructor.
Defined.

(** One sample with the single value 2: the mean reported is 1. *)
Example mean_of_single_sample :
  (let! self := add (init 1) [2] in get self) = Ok [(2, 1, 2)].
Proof. reflexivity. Qed.

(** C8, as stated, fails: the minimum of a fresh channel is the finite
    number 1e6, so it is not above every value. *)
Lemma fresh_min_is_finite :
  ~ (forall d, In d (_data (init 1)) ->
               (forall v, v <= c_min d) /\ c_sum d == 0 /\ c_max d == 0).
Proof.
  intros H. destruct (H fresh) as [Hmin _]; [now left|].
  specialize (Hmin 2000000). vm_compute in Hmin. apply Hmin. reflexivity.
Qed.

(** C8, amended. After [reset] the aggregator holds [dim] channels, each
    with min = 1e6 and max = 0; consequently, for every non-empty sequence
    of samples in which channel [i] only receives negative values, [get]
    reports max = 0 for that channel. *)
Theorem negative_channel_reports_max_zero
    (dim i : nat) (samples : list (list Q)) :
  (i < dim)%nat ->
  samples <> [] ->
  (forall v, In v (column i samples) -> v < 0) ->
  length (_data (init dim)) = dim /\
  Forall (fun d => c_min d = 1000000 /\ c_max d = 0) (_data (init dim)) /\
  exists self triples vmin vmean,
    add_all (init dim) samples = Ok self /\
    get self = Ok triples /\
    triples !! i = Some (vmin, vmean, 0).
Proof.
  intros Hi Hne Hneg. split; [apply init_wf|]. split.
  { unfold init, reset. simpl. apply Forall_replicate. split; reflexivity. }
  destruct (get_after_adds dim samples Hne) as (self & triples & E & G & L & H).
  destruct (H i Hi) as (vmin & vmean & vmax & Hl & _ & _ & Hmax).
  exists self, triples, vmin, vmean. repeat split; try assumption.
  rewrite Hl, Hmax. rewrite fold_update_max_kept; [reflexivity|].
  intros v Hv. simpl. apply Qlt_le_weak. apply Hneg. assumption.
Qed.

Lemma negative_channel_reports_max_zero_witness :
  length (_data (init 2)) = 2%nat /\
  Forall (fun d => c_min d = 1000000 /\ c_max d = 0) (_data (init 2)) /\
  exists self triples vmin vmean,
    add_all (init 2) negative_second_channel = Ok self /\
    get self = Ok triples /\
    triples !! 1%nat = Some (vmin, vmean, 0).
Proof.
  apply (negative_channel_reports_max_zero 2 1 negative_second_channel).
  - lia.
  - discriminate.
  - simpl. intros v [<- | [<- | []]]; reflexivity.
Defined.

End AggregatorFacts.

(** ** DataTable *)

Section TableFacts.
Import DataTable.

Lemma set_data_id (self : t) : set_data (_data self) self = self.
Proof. destruct self. reflexivity. Qed.

Lemma rows_updated_none {A : Type} (g : nat -> list A -> list A) (k : nat)
    (data : list (list A)) :
  rows_updated g k 0 data = data.
Proof.
  apply list_eq. intros j. unfold rows_updated. rewrite list_lookup_imap.
  destruct (decide _); [lia|]. destruct (data !! j); reflexivity.
Qed.

Lemma rows_updated_step {A : Type} (g : nat -> list A -> list A) (k n : nat)
    (data : list (list A)) (row : list A) :
  data !! k = Some row ->
  rows_updated g (S k) n (<[k := g k row]> data) = rows_updated g k (S n) data.
Proof.
  intros Hk. apply list_eq. intros j. unfold rows_updated.
  rewrite !list_lookup_imap.
  destruct (decide (j = k)) as [-> | Hjk].
  - rewrite list_lookup_insert_eq by (eapply lookup_lt_Some; eassumption).
    rewrite Hk. simpl. repeat case_decide; (reflexivity || lia).
  - rewrite list_lookup_insert_ne by congruence.
    destruct (data !! j); simpl; [|reflexivity].
    repeat case_decide; (reflexivity || lia).
Qed.

(** A loop over [range(k, k + n)] whose body replaces row [i] by [g i row]. *)
Lemma for_each_rows (body : nat -> M t unit) (g : nat -> list Q -> list Q)
    (bound : nat) :
  (forall i self row,
      (i < bound)%nat -> _data self !! i = Some row ->
      body i self = Return tt (set_data (<[i := g i row]> (_data self)) self)) ->
  forall n k self,
    (k + n <= bound)%nat -> (k + n <= length (_data self))%nat ->
    for_each body (seq k n) self =
    Return tt (set_data (rows_updated g k n (_data self)) self).
Proof.
  intros Hbody. induction n as [|n IH]; intros k self Hb Hlen.
  - simpl. rewrite rows_updated_none, set_data_id. reflexivity.
  - simpl. unfold bind.
    destruct (lookup_lt_is_Some_2 (_data self) k ltac:(lia)) as [row Hrow].
    rewrite (Hbody k self row) by (assumption || lia).
    rewrite IH.
    + simpl. rewrite (rows_updated_step g k n _ row Hrow). reflexivity.
    + lia.
    + simpl. rewrite length_insert. lia.
Qed.

Lemma drop_oldest_row (i : nat) (self : t) (row : list Q) :
  _data self !! i = Some row ->
  drop_oldest i self =
  Return tt (set_data (<[i := drop 1 row]> (_data self)) self).
Proof.
  intros H. unfold drop_oldest, bind, get_state, getitem. rewrite H. reflexivity.
Qed.

Lemma append_row (values : list Q) (i : nat) (self : t) (row : list Q) :
  (i < length values)%nat ->
  _data self !! i = Some row ->
  append values i self =
  Return tt (set_data (<[i := row ++ option_list (values !! i)]> (_data self))
                      self).
Proof.
  intros Hi H. unfold append, bind, get_state, getitem. rewrite H. simpl.
  destruct (lookup_lt_is_Some_2 values i Hi) as [v ->]. reflexivity.
Qed.

(** [add] on a table with one row per dimension and at least one row. *)
Lemma add_spec_table (values : list Q) (self : t) (first : list Q) :
  length (_data self) = _dim self ->
  (_dim self <= length values)%nat ->
  _data self !! O = Some first ->
  add values self =
  Return tt
    (set_data
       (imap (fun j row =>
                (if Nat.eqb (length first) (_size self)
                 then drop 1 row else row) ++ option_list (values !! j))
             (_data self))
       self).
Proof.
  intros Hwf Hlen Hfirst. unfold add, bind at 1 2, get_state.
  unfold getitem. rewrite Hfirst. simpl. unfold bind.
  assert (Happ : forall s', length (_data s') = _dim self ->
             for_each (append values) (seq 0 (_dim self)) s' =
             Return tt (set_data (rows_updated
                                    (fun j row => row ++ option_list (values !! j))
                                    0 (_dim self) (_data s')) s')).
  { intros s' Hs'.
    apply (for_each_rows (append values)
             (fun j row => row ++ option_list (values !! j)) (_dim self)).
    - intros i s0 row Hi Hrow. apply append_row; [lia | assumption].
    - lia.
    - lia. }
  destruct (Nat.eqb (length first) (_size self)).
  - rewrite (for_each_rows drop_oldest (fun _ row => drop 1 row) (_dim self));
      [| intros; apply drop_oldest_row; assumption | lia | lia].
    rewrite Happ.
    2:{ simpl. unfold rows_updated. rewrite length_imap. assumption. }
    unfold set_data. simpl. do 2 f_equal. apply list_eq. intros j.
    unfold rows_updated. rewrite !list_lookup_imap.
    destruct (_data self !! j) eqn:Ej; simpl; [|reflexivity].
    apply lookup_lt_Some in Ej.
    repeat case_decide; (reflexivity || lia).
  - unfold ret. rewrite Happ by assumption.
    unfold set_data. simpl. do 2 f_equal. apply list_eq. intros j.
    unfold rows_updated. rewrite !list_lookup_imap.
    destruct (_data self !! j) eqn:Ej; simpl; [|reflexivity].
    apply lookup_lt_Some in Ej.
    repeat case_decide; (reflexivity || lia).
Qed.

Lemma last_n_length {A : Type} (n : nat) (l : list A) :
  length (last_n n l) = Nat.min (length l) n.
Proof. unfold last_n. rewrite length_drop. lia. Qed.

Lemma last_n_all {A : Type} (n : nat) (l : list A) :
  (length l <= n)%nat -> last_n n l = l.
Proof.
  intros H. unfold last_n. replace (length l - n)%nat with O by lia.
  reflexivity.
Qed.

Lemma last_n_snoc {A : Type} (n : nat) (l : list A) (x : A) :
  (1 <= n)%nat ->
  last_n n (l ++ [x]) =
  (if Nat.eqb (length (last_n n l)) n then drop 1 (last_n n l) else last_n n l)
    ++ [x].
Proof.
  intros Hn. rewrite last_n_length. unfold last_n.
  rewrite length_app. simpl.
  destruct (Nat.eqb_spec (Nat.min (length l) n) n) as [E | E].
  - rewrite drop_drop.
    replace (length l + 1 - n)%nat with (length l - n + 1)%nat by lia.
    rewrite drop_app_le by lia. reflexivity.
  - replace (length l + 1 - n)%nat with O by lia.
    replace (length l - n)%nat with O by lia. reflexivity.
Qed.

Lemma column_snoc (j : nat) (pre : list (list Q)) (values : list Q) :
  column j (pre ++ [values]) = column j pre ++ option_list (values !! j).
Proof.
  unfold column. rewrite omap_app. simpl.
  destruct (values !! j); reflexivity.
Qed.

Lemma window_rows_lookup (dim size j : nat) (samples : list (list Q)) :
  (j < dim)%nat ->
  window_rows dim size samples !! j = Some (last_n size (column j samples)).
Proof.
  intros Hj. unfold window_rows.
  rewrite list_lookup_fmap, lookup_seq_lt by assumption. reflexivity.
Qed.

Lemma window_rows_length (dim size : nat) (samples : list (list Q)) :
  length (window_rows dim size samples) = dim.
Proof. unfold window_rows. rewrite length_fmap, length_seq. reflexivity. Qed.

(** One [add] moves the window by one sample. *)
Lemma add_window (dim size : nat) (pre : list (list Q)) (values : list Q)
    (self : t) :
  (1 <= dim)%nat -> (1 <= size)%nat ->
  _dim self = dim -> _size self = size ->
  _data self = window_rows dim size pre ->
  Forall (fun values => (dim <= length values)%nat) pre ->
  (dim <= length values)%nat ->
  add values self =
  Return tt (set_data (window_rows dim size (pre ++ [values])) self).
Proof.
  intros Hdim Hsize Hd Hs Hdata Hpre Hvalues.
  rewrite (add_spec_table values self (last_n size (column 0 pre))).
  - do 2 f_equal. apply list_eq. intros j.
    rewrite list_lookup_imap, Hdata, Hs.
    destruct (decide (j < dim)%nat) as [Hj | Hj].
    + rewrite !window_rows_lookup by assumption. simpl. f_equal.
      rewrite column_snoc.
      destruct (lookup_lt_is_Some_2 values j ltac:(lia)) as [v ->]. simpl.
      rewrite last_n_snoc by assumption.
      rewrite !last_n_length, !column_length; [reflexivity | |].
      * eapply Forall_impl; [exact Hpre|]. simpl. intros; lia.
      * eapply Forall_impl; [exact Hpre|]. simpl. intros; lia.
    + rewrite !(lookup_ge_None_2 (window_rows _ _ _))
        by (rewrite window_rows_length; lia).
      reflexivity.
  - rewrite Hdata, window_rows_length. congruence.
  - lia.
  - rewrite Hdata. apply window_rows_lookup. lia.
Qed.

Lemma add_all_window (dim size : nat) (rest : list (list Q)) :
  (1 <= dim)%nat -> (1 <= size)%nat ->
  Forall (fun values => (dim <= length values)%nat) rest ->
  forall (pre : list (list Q)) (self : t),
    _dim self = dim -> _size self = size ->
    _data self = window_rows dim size pre ->
    Forall (fun values => (dim <= length values)%nat) pre ->
    add_all rest self =
    Return tt (set_data (window_rows dim size (pre ++ rest)) self).
Proof.
  intros Hdim Hsize Hrest.
  induction Hrest as [|values rest Hv _ IH]; intros pre self Hd Hs Hdata Hpre.
  - unfold add_all. simpl. unfold ret. rewrite app_nil_r, <- Hdata.
    rewrite set_data_id. reflexivity.
  - unfold add_all in *. simpl. unfold bind.
    rewrite (add_window dim size pre values self) by assumption.
    rewrite (IH (pre ++ [values])); try assumption; try reflexivity.
    + rewrite <- app_assoc. reflexivity.
    + apply Forall_app. split; [assumption|]. repeat constructor. assumption.
Qed.

Lemma init_window (dim size : nat) :
  _data (init dim size) = window_rows dim size [].
Proof.
  unfold init, reset, window_rows. simpl. apply list_eq. intros j.
  rewrite list_lookup_fmap.
  destruct (decide (j < dim)%nat) as [Hj | Hj].
  - rewrite lookup_replicate_2, lookup_seq_lt by assumption. reflexivity.
  - rewrite (lookup_ge_None_2 (replicate _ _))
      by (rewrite length_replicate; lia).
    rewrite lookup_seq_ge by lia. reflexivity.
Qed.

Lemma reset_is_init (self : t) : reset self = init (_dim self) (_size self).
Proof. reflexivity. Qed.

(** C6 at the capacity 0, [DataTable(1, 0)]: the test
    [len(self._data[0]) == self._size] of [add] holds for the empty row
    only, where there is nothing to evict, and never again, so the table
    never evicts. After one sample (M = 1 > C = 0) [get] holds that sample
    and not the last zero values: the code departs here from the claim,
    from its docstring (a fixed number of recent data points) and from
    the comment of [add] (if the buffer is full, remove the oldest
    value). *)
Lemma zero_capacity_table_keeps_sample :
  exists self,
    add_all one_sample (init 1 0) = Return tt self /\
    get self = [[7]] /\
    (0 < length one_sample)%nat /\
    get self !! O <> Some (last_n 0 (column 0 one_sample)).
Proof.
  eexists. split; [reflexivity|]. split; [reflexivity|].
  split; [simpl; lia|]. simpl. discriminate.
Qed.

(** C6, away from the capacity 0. For a table with at least one channel
    and a capacity [C >= 1]: after adding [M] samples (each with a value
    for every channel) since the last reset, [get] holds for each channel
    the last [C] submitted values, oldest first, when [M > C], and all [M]
    values in submission order when [M <= C]. *)
Theorem table_keeps_last_values
    (dim C : nat) (samples : list (list Q)) :
  (1 <= dim)%nat ->
  (1 <= C)%nat ->
  Forall (fun values => (dim <= length values)%nat) samples ->
  exists self,
    add_all samples (init dim C) = Return tt self /\
    length (get self) = dim /\
    forall i, (i < dim)%nat ->
      exists row,
        get self !! i = Some row /\
        ((C < length samples)%nat ->
         row = last_n C (column i samples) /\ length row = C) /\
        ((length samples <= C)%nat -> row = column i samples).
Proof.
  intros Hdim HC Hs.
  eexists. split.
  { apply (add_all_window dim C samples Hdim HC Hs [] (init dim C));
      try reflexivity; [apply init_window | constructor]. }
  simpl. split; [apply window_rows_length|].
  intros i Hi. exists (last_n C (column i samples)).
  split; [apply window_rows_lookup; assumption|].
  assert (Hc : length (column i samples) = length samples).
  { apply column_length. eapply Forall_impl; [exact Hs|]. simpl. intros; lia. }
  split.
  - intros HM. split; [reflexivity|]. rewrite last_n_length. lia.
  - intros HM. apply last_n_all. lia.
Qed.

Lemma table_keeps_last_values_witness :
  exists self,
    add_all three_samples (init 2 2) = Return tt self /\
    length (get self) = 2%nat /\
    forall i, (i < 2)%nat ->
      exists row,
        get self !! i = Some row /\
        ((2 < length three_samples)%nat ->
         row = last_n 2 (column i three_samples) /\
         length row = 2%nat) /\
        ((length three_samples <= 2)%nat ->
         row = column i three_samples).
Proof.
  apply (table_keeps_last_values 2 2 three_samples).
  - lia.
  - lia.
  - repeat constructor.
Defined.

(** The window after three samples into a table of capacity two. *)
Example window_after_three :
  get (final_state (add_all three_samples (init 2 2)))
  = [[2; 3]; [20; 30]].
Proof. reflexivity. Qed.

(** C10 at the capacity 0, [DataTable(1, 0)]: the same test of [add]
    never evicts, so the rows grow beyond the capacity, one value for each
    call, against the docstring of the class. *)
Lemma zero_capacity_table_grows :
  exists self row,
    add_all three_single_samples (init 1 0) = Return tt self /\
    _data self = [row] /\
    length row = 3%nat /\
    length row <> Nat.min (length three_single_samples) 0.
Proof.
  do 2 eexists. split; [reflexivity|]. split; [reflexivity|].
  split; [reflexivity|]. simpl. discriminate.
Qed.

(** C10, away from the capacity 0. For a table of capacity [C >= 1]:
    after [reset] and any sequence of [add] calls in which each [values]
    has at least [dim] elements, there are [dim] rows, all of the same
    length min(number of adds, C); in particular no row is longer than
    [C]. With at least one channel, every one of these calls returns
    normally. *)
Theorem table_rows_have_window_length
    (self0 : t) (samples : list (list Q)) :
  (1 <= _size self0)%nat ->
  Forall (fun values => (_dim self0 <= length values)%nat) samples ->
  let self := final_state (add_all samples (reset self0)) in
  length (_data self) = _dim self0 /\
  Forall (fun row => length row = Nat.min (length samples) (_size self0) /\
                     (length row <= _size self0)%nat)
         (_data self) /\
  ((1 <= _dim self0)%nat -> add_all samples (reset self0) = Return tt self).
Proof.
  intros HC Hs. rewrite reset_is_init.
  destruct (decide (1 <= _dim self0)%nat) as [Hdim | Hdim].
  - rewrite (add_all_window (_dim self0) (_size self0) samples Hdim HC Hs []
               (init (_dim self0) (_size self0)));
      try reflexivity; [| apply init_window | constructor].
    simpl. split; [apply window_rows_length|]. split; [|reflexivity].
    apply Forall_forall. intros row Hrow.
    apply list_elem_of_lookup in Hrow. destruct Hrow as [j Hj].
    assert (Hlt : (j < _dim self0)%nat).
    { apply lookup_lt_Some in Hj. rewrite window_rows_length in Hj. exact Hj. }
    rewrite window_rows_lookup in Hj by assumption.
    injection Hj as <-. rewrite last_n_length, column_length.
    + lia.
    + eapply Forall_impl; [exact Hs|]. simpl. intros; lia.
  - assert (E : _dim self0 = O) by lia. rewrite E.
    assert (Hdata : forall l : list (list Q),
               _data (final_state (add_all l (init 0 (_size self0)))) = []).
    { intros [|x l]; reflexivity. }
    simpl. rewrite Hdata. split; [reflexivity|]. split; [constructor|lia].
Qed.

Lemma table_rows_have_window_length_witness :
  let self := final_state (add_all three_samples (reset (init 2 2))) in
  length (_data self) = 2%nat /\
  Forall (fun row => length row = Nat.min 3 2 /\ (length row <= 2)%nat)
         (_data self) /\
  ((1 <= 2)%nat ->
   add_all three_samples (reset (init 2 2)) = Return tt self).
Proof.
  apply (table_rows_have_window_length (init 2 2) three_samples).
  - simpl. lia.
  - repeat constructor.
Defined.

End TableFacts.

(** ** ActiveState: acquiring one sample *)

Section GetDataFacts.
Import App ActiveState.

Lemma set_reads_id (s : state) : set_reads (reads s) s = s.
Proof. destruct s. reflexivity. Qed.

Lemma get_data_sample (c : ctx) (s : state) (values : list Q) :
  w_read (app_world c) (reads s) = Sample values ->
  get_data c s = Return values (set_reads (S (reads s)) s).
Proof.
  intros H. unfold get_data, bind, get_state, modify. rewrite H. reflexivity.
Qed.

Lemma get_data_reads (c : ctx) (s : state) :
  reads (final_state (get_data c s)) = S (reads s).
Proof.
  unfold get_data, bind, get_state, modify.
  destruct (w_read (app_world c) (reads s)); reflexivity.
Qed.

Lemma accumulate_lookup (data : list Q) (n : nat) :
  forall (k : nat) (d_sum : list Q),
    (k + n <= length d_sum)%nat -> (k + n <= length data)%nat ->
    exists r,
      accumulate (seq k n) data d_sum = Ok r /\
      length r = length d_sum /\
      forall j acc x,
        d_sum !! j = Some acc -> data !! j = Some x ->
        r !! j = Some (if decide (k <= j < k + n)%nat then acc + x else acc).
Proof.
  induction n as [|n IH]; intros k d_sum H1 H2.
  - exists d_sum. simpl. repeat split. intros j acc x Ha _.
    case_decide; [lia | assumption].
  - simpl.
    destruct (lookup_lt_is_Some_2 d_sum k ltac:(lia)) as [a Ha].
    destruct (lookup_lt_is_Some_2 data k ltac:(lia)) as [x Hx].
    unfold getitem at 1. rewrite Ha. simpl.
    unfold getitem at 1. rewrite Hx. simpl.
    destruct (IH (S k) (<[k := a + x]> d_sum)) as (r & E & L & H).
    { rewrite length_insert. lia. }
    { lia. }
    exists r. split; [exact E|]. split.
    { rewrite L. apply length_insert. }
    intros j acc y Hj Hy.
    destruct (decide (j = k)) as [-> | Hjk].
    + rewrite (H k (a + x) x).
      * repeat case_decide; (reflexivity || lia || congruence).
      * apply list_lookup_insert_eq. apply lookup_lt_Some in Ha. exact Ha.
      * assumption.
    + rewrite (H j acc y).
      * repeat case_decide; (reflexivity || lia).
      * rewrite list_lookup_insert_ne by congruence. assumption.
      * assumption.
Qed.

(** [oversample_loop] over readings that are all samples with a value for
    every channel: it reads each of them once and adds them up. *)
Lemma oversample_loop_sums (c : ctx) (readings : list (list Q)) :
  forall (s : state) (d_sum : list Q),
    length d_sum = _dim c ->
    (forall m r, readings !! m = Some r ->
                 w_read (app_world c) (reads s + m) = Sample r /\
                 (_dim c <= length r)%nat) ->
    exists d',
      oversample_loop c (length readings) d_sum s =
      Return d' (set_reads (reads s + length readings) s) /\
      length d' = _dim c /\
      forall j acc,
        d_sum !! j = Some acc ->
        d' !! j = Some (fold_left Qplus (column j readings) acc).
Proof.
  induction readings as [|r rest IH]; intros s d_sum Hlen Hread.
  - exists d_sum. simpl. unfold ret. rewrite Nat.add_0_r, set_reads_id.
    split; [reflexivity|]. split; [assumption|]. auto.
  - simpl. unfold bind at 1.
    destruct (Hread O r eq_refl) as [Hr0 Hr1]. rewrite Nat.add_0_r in Hr0.
    rewrite (get_data_sample c s r Hr0).
    destruct (accumulate_lookup r (_dim c) O d_sum) as (d1 & E1 & L1 & H1);
      [lia | lia |].
    unfold bind at 1. rewrite E1. simpl.
    destruct (IH (set_reads (S (reads s)) s) d1) as (d' & E & L & H).
    { congruence. }
    { intros m r' Hm. simpl.
      replace (S (reads s + m)) with (reads s + S m)%nat by lia.
      apply (Hread (S m) r'). exact Hm. }
    exists d'. split.
    { rewrite E. simpl.
      replace (reads s + S (length rest))%nat
        with (S (reads s + length rest)) by lia.
      reflexivity. }
    split; [exact L|].
    intros j acc Hj.
    assert (Hjd : (j < _dim c)%nat) by (apply lookup_lt_Some in Hj; lia).
    destruct (lookup_lt_is_Some_2 r j ltac:(lia)) as [x Hx].
    rewrite (H j (acc + x)).
    + unfold column. simpl. rewrite Hx. reflexivity.
    + rewrite (H1 j acc x Hj Hx). case_decide; [reflexivity | lia].
Qed.

Lemma fold_left_total (l : list Q) :
  forall acc, fold_left Qplus l acc == acc + total l.
Proof.
  induction l as [|x l IH]; intros acc; simpl.
  - ring.
  - rewrite IH. ring.
Qed.

(** C7. Acquiring one sample with the oversample setting [K]: for
    [K <= 1] the provider is read exactly once and its raw values are
    returned unchanged; for [K >= 2] the provider is read exactly [K] times
    and the accepted value of each channel is the sum of the [K] raw
    readings of that channel, accumulated first, divided once by [K]. *)
Theorem get_data_oversampling (c : ctx) (s : state) :
  ((oversample (app_settings c) <= 1)%Z ->
   reads (final_state (_get_data c s)) = S (reads s) /\
   forall values,
     w_read (app_world c) (reads s) = Sample values ->
     _get_data c s =
     Return (w_clock (app_world c) (ticks s), values)
            (set_reads (S (reads s)) (set_ticks (S (ticks s)) s))) /\
  ((2 <= oversample (app_settings c))%Z ->
   forall readings,
     length readings = Z.to_nat (oversample (app_settings c)) ->
     (forall m r, readings !! m = Some r ->
                  w_read (app_world c) (reads s + m) = Sample r /\
                  (_dim c <= length r)%nat) ->
     exists averaged,
       _get_data c s =
       Return (w_clock (app_world c) (ticks s), averaged)
              (set_ticks (S (ticks s))
                 (set_reads (reads s + Z.to_nat (oversample (app_settings c))) s))
       /\
       length averaged = _dim c /\
       forall i, (i < _dim c)%nat ->
         exists a,
           averaged !! i = Some a /\
           a = fold_left Qplus (column i readings) 0
                 / inject_Z (oversample (app_settings c)) /\
           a == total (column i readings)
                  / inject_Z (oversample (app_settings c))).
Proof.
  split.
  - intros HK. unfold _get_data.
    destruct (Z.ltb_spec (oversample (app_settings c)) 2) as [_ | H]; [|lia].
    split.
    + unfold bind, monotonic, bind, get_state, modify, ret.
      pose proof (get_data_reads c (set_ticks (S (ticks s)) s)) as Hr.
      destruct (get_data c (set_ticks (S (ticks s)) s)); exact Hr.
    + intros values Hv. unfold bind, monotonic, bind, get_state, modify, ret.
      rewrite (get_data_sample c _ values) by exact Hv. reflexivity.
  - intros HK readings Hlen Hread. unfold _get_data.
    destruct (Z.ltb_spec (oversample (app_settings c)) 2) as [H | _]; [lia|].
    destruct (oversample_loop_sums c readings s (replicate (_dim c) 0))
      as (d' & E & L & H).
    { apply length_replicate. }
    { exact Hread. }
    rewrite Hlen in E.
    set (K := inject_Z (oversample (app_settings c))).
    assert (HK0 : ~ K == 0).
    { unfold K, Qeq. simpl. lia. }
    exists (map (fun i => fold_left Qplus (column i readings) 0 / K)
                (seq 0 (_dim c))).
    unfold bind at 1. rewrite E.
    unfold bind at 1.
    rewrite (comprehension_ok _
               (fun i => fold_left Qplus (column i readings) 0 / K)).
    2:{ intros i Hi. apply in_seq in Hi.
        unfold getitem. rewrite (H i 0).
        - simpl. apply py_div_ok. exact HK0.
        - apply lookup_replicate_2. lia. }
    split; [reflexivity|]. split.
    { rewrite length_map, length_seq. reflexivity. }
    intros i Hi. eexists. split.
    { rewrite list_lookup_fmap, lookup_seq_lt by assumption. reflexivity. }
    split; [reflexivity|].
    simpl. rewrite fold_left_total. unfold Qdiv.
    apply Qmult_comp; [ring | reflexivity].
Qed.

Lemma get_data_oversampling_witness :
  (reads (final_state (_get_data (Ctx settings_1s ina260 world_ramp) new_state))
   = 1%nat) /\
  exists averaged,
    _get_data (Ctx settings_oversample3 ina260 world_ramp) new_state =
    Return (clock_from_100 0, averaged)
           (set_ticks 1 (set_reads 3 new_state)) /\
    length averaged = 2%nat /\
    forall i, (i < 2)%nat ->
      exists a,
        averaged !! i = Some a /\
        a = fold_left Qplus (column i ramp_readings) 0 / 3 /\
        a == total (column i ramp_readings) / 3.
Proof.
  split.
  - apply (proj1 (get_data_oversampling
                    (Ctx settings_1s ina260 world_ramp) new_state)).
    simpl. lia.
  - apply (proj2 (get_data_oversampling
                    (Ctx settings_oversample3 ina260 world_ramp) new_state)).
    + simpl. lia.
    + reflexivity.
    + intros m r Hm.
      destruct m as [|[|[|m]]]; simpl in Hm; inversion Hm; subst;
        split; (reflexivity || (simpl; lia)).
Defined.

End GetDataFacts.

(** ** ActiveState: the session *)

Section SessionFacts.
Import App ActiveState.

Arguments LogWriter.log_settings : simpl never.
Arguments LogWriter.log_summary : simpl never.
Arguments LogWriter.log_values : simpl never.
Arguments get_data : simpl never.
Arguments monotonic : simpl never.
Arguments _get_data : simpl never.
Arguments take_sample : simpl never.
Arguments wait_interval : simpl never.
Arguments sleep_loop : simpl never.
Arguments main_loop : simpl never.
Arguments publish : simpl never.
Arguments finish : simpl never.
Arguments DataAggregator.get : simpl never.
Arguments DataAggregator.add : simpl never.

(** Running the monadic glue: binds, lifts and the elementary actions. *)
Ltac step :=
  repeat (progress (unfold bind, lift, ret, throw, modify, get_state, log,
                      emit, try_any, try_stop; cbn)).

Lemma scales_defined (scale : string) :
  Scales.is_unit scale ->
  exists fac next dfac,
    Scales.int_fac scale = Ok fac /\ Scales.dur_scale scale = Ok next /\
    Scales.dur_fac scale = Ok dfac /\ ~ fac == 0 /\ ~ dfac == 0.
Proof.
  intros [-> | [-> | [-> | [-> | ->]]]]; do 3 eexists;
    (split; [reflexivity|]); (split; [reflexivity|]);
    (split; [reflexivity|]); split; discriminate.
Qed.

(** [log_settings] only sets the scale attributes of the logger and appends
    header lines to the sink. *)
Lemma log_settings_effect (c : ctx) (s : state) :
  Scales.is_unit (int_scale (app_settings c)) ->
  exists scales lines,
    LogWriter.log_settings c s =
    Return tt (set_sink (sink s ++ lines) (set_lw_scales (Some scales) s)).
Proof.
  intros Hu.
  destruct (scales_defined _ Hu) as (fac & next & dfac & E1 & E2 & E3 & _).
  unfold LogWriter.log_settings. rewrite E1, E2, E3.
  destruct (0 <? oversample (app_settings c))%Z;
    repeat (progress (unfold bind, lift, ret, modify, log; cbn));
    do 2 eexists; unfold set_sink, set_lw_scales; cbn;
    rewrite <- !app_assoc; cbn; reflexivity.
Qed.

(** C3. If the first read of the provider after [reset] (the probe, before
    timing starts) raises a hard failure, [run] returns through the
    failed-probe exit and [app.results] (time, samples, values) is exactly
    what it was before the session; nothing is published. *)
Theorem probe_failure_publishes_nothing (c : ctx) (fuel : nat) (s : state) :
  Scales.is_unit (int_scale (app_settings c)) ->
  w_read (app_world c) (reads s) = HardFailure ->
  exists s',
    run c fuel s = Return (Some ProbeFailed) s' /\
    results s' = results s /\
    trace s' = trace s ++ [TaskCreated KeyPolling; TaskCreated ViewRefresh;
                           Printed (nl +:+ "#data-provider timed out")].
Proof.
  intros Hu Hr.
  destruct (scales_defined _ Hu) as (fac & next & dfac & E1 & _ & E3 & _).
  unfold run. rewrite E1, E3. step. unfold _run. step.
  match goal with
  | |- context [LogWriter.log_settings c ?st] =>
      destruct (log_settings_effect c st Hu) as (scales & lines & E);
      rewrite E
  end.
  unfold get_data. step. rewrite Hr. step.
  eexists. split; [reflexivity|]. split; [reflexivity|].
  cbn. rewrite <- !app_assoc. reflexivity.
Qed.

Lemma probe_failure_publishes_nothing_witness :
  exists s',
    run (Ctx settings_1s ina260 world_probe_fails) 10 used_state
    = Return (Some ProbeFailed) s' /\
    results s' = results used_state /\
    trace s' = trace used_state
                 ++ [TaskCreated KeyPolling; TaskCreated ViewRefresh;
                     Printed (nl +:+ "#data-provider timed out")].
Proof.
  apply (probe_failure_publishes_nothing
           (Ctx settings_1s ina260 world_probe_fails) 10 used_state).
  - unfold Scales.is_unit. simpl. tauto.
  - reflexivity.
Defined.

End SessionFacts.

(** ** Rules for triples *)

Section TripleRules.
Context {S : Type} (R : S -> S -> Prop).
Hypothesis R_refl : forall s, R s s.
Hypothesis R_trans : forall s1 s2 s3, R s1 s2 -> R s2 s3 -> R s1 s3.

Lemma triple_ret {A : Type} (a : A) (Q : A -> Prop) :
  Q a -> triple R (ret a) Q.
Proof. intros H s. simpl. auto. Qed.

Lemma triple_throw {A : Type} (e : exn) (Q : A -> Prop) :
  triple R (throw e) Q.
Proof. intros s. simpl. auto. Qed.

Lemma triple_lift {A : Type} (r : result A) (Q : A -> Prop) :
  (forall a, r = Ok a -> Q a) -> triple R (lift r) Q.
Proof. intros H s. destruct r; simpl; auto. Qed.

Lemma triple_get_state (Q : S -> Prop) :
  (forall s, Q s) -> triple R get_state Q.
Proof. intros H s. simpl. auto. Qed.

Lemma triple_modify (g : S -> S) :
  (forall s, R s (g s)) -> triple R (modify g) (fun _ => True).
Proof. intros H s. simpl. auto. Qed.

Lemma triple_bind {A B : Type} (m : M S A) (k : A -> M S B)
    (Q1 : A -> Prop) (Q2 : B -> Prop) :
  triple R m Q1 -> (forall a, Q1 a -> triple R (k a) Q2) ->
  triple R (bind m k) Q2.
Proof.
  intros Hm Hk s. unfold bind. specialize (Hm s).
  destruct (m s) as [a s1 | e s1]; [|assumption].
  destruct Hm as [H1 Ha]. specialize (Hk a Ha s1).
  destruct (k a s1) as [b s2 | e s2].
  - destruct Hk. split; eauto.
  - eauto.
Qed.


Lemma triple_try_stop {A : Type} (body handler : M S A) (Q : A -> Prop) :
  triple R body Q -> triple R handler Q -> triple R (try_stop body handler) Q.
Proof.
  intros Hb Hh s. unfold try_stop. specialize (Hb s).
  destruct (body s) as [a s1 | e s1]; [assumption|].
  destruct e; try assumption.
  specialize (Hh s1). destruct (handler s1) as [a s2 | e' s2].
  - destruct Hh. split; eauto.
  - eauto.
Qed.

Lemma triple_try_any {A : Type} (body handler : M S A) (Q : A -> Prop) :
  triple R body Q -> triple R handler Q -> triple R (try_any body handler) Q.
Proof.
  intros Hb Hh s. unfold try_any. specialize (Hb s).
  destruct (body s) as [a s1 | e s1]; [assumption|].
  specialize (Hh s1). destruct (handler s1) as [a s2 | e' s2].
  - destruct Hh. split; eauto.
  - eauto.
Qed.

Lemma triple_for_each {X : Type} (body : X -> M S unit) (range : list X) :
  (forall i, triple R (body i) (fun _ => True)) ->
  triple R (for_each body range) (fun _ => True).
Proof.
  intros Hb. induction range as [|i range IH]; simpl.
  - apply triple_ret. exact I.
  - eapply triple_bind; [apply Hb|]. intros _ _. exact IH.
Qed.

(** What a triple says about a run that returns. *)
Lemma triple_return {A : Type} (m : M S A) (Q : A -> Prop) (s s' : S) (a : A) :
  triple R m Q -> m s = Return a s' -> R s s' /\ Q a.
Proof. intros H E. specialize (H s). rewrite E in H. exact H. Qed.


End TripleRules.

Lemma bind_return {S A B : Type} (m : M S A) (k : A -> M S B)
    (s s' : S) (b : B) :
  bind m k s = Return b s' ->
  exists a s1, m s = Return a s1 /\ k a s1 = Return b s'.
Proof.
  unfold bind. intros H. destruct (m s) as [a s1 | e s1]; [|discriminate].
  eauto.
Qed.

(** ** Rules for the sampling loop

    The loop is followed under any relation [R] on states that is a preorder,
    that the updates of the cursors and of the attributes of the object
    respect, and that logging a timestamped sample respects. *)

Section LoopRules.
Import App ActiveState.

Variable c : ctx.
Variable R : state -> state -> Prop.
Hypothesis R_refl : forall s, R s s.
Hypothesis R_trans : forall s1 s2 s3, R s1 s2 -> R s2 s3 -> R s1 s3.
Hypothesis R_reads : forall s, R s (set_reads (S (reads s)) s).
Hypothesis R_ticks : forall x s, R s (set_ticks x s).
Hypothesis R_awaits : forall x s, R s (set_awaits x s).
Hypothesis R_stop : forall x s, R s (set_stop x s).
Hypothesis R_new_sample : forall x s, R s (set_new_sample x s).
Hypothesis R_data_t : forall x s, R s (set_data_t x s).
Hypothesis R_data_v : forall x s, R s (set_data_v x s).
Hypothesis R_next_sample_t : forall x s, R s (set_next_sample_t x s).
Hypothesis R_log_values :
  forall t values,
    clock_reading c t ->
    triple R (LogWriter.log_values c t values) (fun _ => True).

Lemma monotonic_triple : triple R (monotonic c) (clock_reading c).
Proof.
  intros s. unfold monotonic. cbn. split; [apply R_ticks|].
  eexists. reflexivity.
Qed.

Lemma get_data_triple : triple R (get_data c) (fun _ => True).
Proof.
  intros s. unfold get_data. cbn.
  destruct (w_read (app_world c) (reads s)); cbn; auto.
Qed.

Lemma suspend_triple : triple R (suspend c) (fun _ => True).
Proof.
  intros s. unfold suspend. cbn. split; [|exact I].
  eapply R_trans; [apply R_awaits | apply R_stop].
Qed.

Lemma oversample_loop_triple (k : nat) :
  forall d_sum, triple R (oversample_loop c k d_sum) (fun _ => True).
Proof.
  induction k as [|k IH]; intros d_sum; simpl.
  - apply triple_ret; auto.
  - eapply triple_bind; auto using get_data_triple. intros data _.
    eapply triple_bind; auto.
    apply triple_lift with (Q := fun _ => True); auto.
Qed.

Lemma _get_data_triple :
  triple R (_get_data c) (fun sample => clock_reading c (fst sample)).
Proof.
  unfold _get_data. destruct (oversample (app_settings c) <? 2)%Z.
  - eapply triple_bind; auto using monotonic_triple. intros t Ht.
    eapply triple_bind; auto using get_data_triple. intros data _.
    apply triple_ret; auto.
  - eapply triple_bind; auto using oversample_loop_triple. intros d_sum _.
    eapply triple_bind; auto.
    { apply triple_lift with (Q := fun _ => True); auto. }
    intros averaged _.
    eapply triple_bind; auto using monotonic_triple. intros t Ht.
    apply triple_ret; auto.
Qed.

Lemma sleep_loop_triple (fuel : nat) :
  forall sleep_t, triple R (sleep_loop c fuel sleep_t) (fun _ => True).
Proof.
  induction fuel as [|fuel IH]; intros sleep_t; simpl;
    destruct (Qeq_bool sleep_t 0); try (apply triple_ret; auto; fail).
  destruct (Qltb 1 sleep_t).
  - eapply triple_bind; auto using suspend_triple. intros _ _.
    eapply triple_bind; auto.
    { apply triple_get_state with (Q := fun _ => True); auto. }
    intros s _. destruct (_stop s); [apply triple_ret; auto | apply IH].
  - eapply triple_bind; auto using suspend_triple. intros _ _.
    apply triple_ret; auto.
Qed.

Lemma wait_interval_triple (tm : timing) (data_t_last : Q) :
  triple R (wait_interval c tm data_t_last) (fun _ => True).
Proof.
  unfold wait_interval.
  eapply triple_bind; auto using monotonic_triple. intros t1 _.
  eapply triple_bind; auto using monotonic_triple. intros t2 _.
  eapply triple_bind; auto.
  { apply triple_modify; auto. }
  intros _ _.
  eapply triple_bind; auto using sleep_loop_triple. intros r _.
  destruct r; [|apply triple_ret; auto].
  eapply triple_bind; auto.
  { apply triple_get_state with (Q := fun _ => True); auto. }
  intros s _. apply triple_ret; auto.
Qed.

Lemma take_sample_triple (m_data : DataAggregator.t) :
  triple R (take_sample c m_data) (fun _ => True).
Proof.
  unfold take_sample.
  eapply triple_bind; auto using monotonic_triple. intros t _.
  eapply triple_bind; auto using _get_data_triple. intros sample Hs.
  eapply triple_bind; auto. { apply triple_modify; auto. } intros _ _.
  eapply triple_bind; auto. { apply triple_modify; auto. } intros _ _.
  eapply triple_bind; auto. { apply triple_modify; auto. } intros _ _.
  eapply triple_bind; auto. intros _ _.
  eapply triple_bind; auto.
  { apply triple_lift with (Q := fun _ => True); auto. }
  intros m _. apply triple_ret; auto.
Qed.

Lemma main_loop_triple (tm : timing) (fuel : nat) :
  forall end_t data_t_last m_data samples,
    triple R (main_loop c tm fuel end_t data_t_last m_data samples)
           (fun _ => True).
Proof.
  induction fuel as [|fuel IH]; intros end_t data_t_last m_data samples; simpl.
  - apply triple_ret; auto.
  - eapply triple_bind; auto.
    { apply triple_get_state with (Q := fun _ => True); auto. }
    intros s _. destruct (_stop s); [apply triple_ret; auto|].
    eapply triple_bind; auto using monotonic_triple. intros now _.
    destruct (negb (Qltb now end_t)); [apply triple_ret; auto|].
    eapply triple_bind with (Q1 := fun _ => True); auto.
    { destruct (Qltb 0 data_t_last);
        [apply wait_interval_triple | apply triple_ret; auto]. }
    intros [[|]|] _; try (apply triple_ret; auto; fail).
    eapply triple_bind with (Q1 := fun _ => True); auto.
    { apply triple_try_stop; auto.
      - eapply triple_bind; auto using take_sample_triple.
        intros r _. apply triple_ret; auto.
      - eapply triple_bind; auto.
        { apply triple_modify; auto. }
        intros _ _. apply triple_ret; auto. }
    intros [[t m]|] _; [apply IH | apply triple_ret; auto].
Qed.

End LoopRules.

(** ** The events of a session *)

Section TraceFacts.
Import App ActiveState.

Lemma log_values_same_trace (c : ctx) (t : Q) (values : list Q) :
  triple same_trace (LogWriter.log_values c t values) (fun _ => True).
Proof.
  intros s. unfold LogWriter.log_values, bind, lift.
  destruct (LogWriter.sample_line c t values); cbn;
    [split; [reflexivity | exact I] | reflexivity].
Qed.

(** The sampling loop emits no event. *)
Lemma main_loop_same_trace (c : ctx) (tm : timing) (fuel : nat)
    (end_t data_t_last : Q) (m_data : DataAggregator.t) (samples : nat) :
  triple same_trace (main_loop c tm fuel end_t data_t_last m_data samples)
         (fun _ => True).
Proof.
  apply main_loop_triple; try (intros; reflexivity).
  - intros s1 s2 s3 H1 H2. unfold same_trace in *. congruence.
  - intros t values _. apply log_values_same_trace.
Qed.

Lemma log_channel_same_trace (c : ctx) (entry : nat * (Q * Q * Q)) :
  triple same_trace (LogWriter.log_channel c entry) (fun _ => True).
Proof.
  intros s. destruct entry as [index [[vmin vmean] vmax]].
  unfold LogWriter.log_channel, bind, lift.
  destruct (getitem (get_units (data_provider c)) index); cbn;
    [split; [reflexivity | exact I] | reflexivity].
Qed.

Lemma same_trace_refl (s : state) : same_trace s s.
Proof. reflexivity. Qed.

Lemma same_trace_trans (s1 s2 s3 : state) :
  same_trace s1 s2 -> same_trace s2 s3 -> same_trace s1 s3.
Proof. unfold same_trace. congruence. Qed.

Lemma log_same_trace (msg : string) :
  triple same_trace (log msg) (fun _ => True).
Proof. intros s. cbn. split; [reflexivity | exact I]. Qed.

Lemma log_summary_same_trace (c : ctx) (samples : nat) :
  triple same_trace (LogWriter.log_summary c samples) (fun _ => True).
Proof.
  pose proof same_trace_refl as Hr. pose proof same_trace_trans as Ht.
  unfold LogWriter.log_summary.
  eapply triple_bind; auto.
  { apply triple_get_state with (Q := fun _ => True); auto. }
  intros s _.
  eapply triple_bind; auto.
  { apply triple_lift with (Q := fun _ => True); auto. }
  intros [[int_fac dur_scale] dur_fac] _.
  repeat (eapply triple_bind with (Q1 := fun _ => True); auto;
          [first [ apply log_same_trace
                 | apply triple_lift with (Q := fun _ => True); auto ]
          | intros ? _ ]).
  apply triple_for_each; auto. intros i. apply log_channel_same_trace.
Qed.

Lemma log_settings_same_trace (c : ctx) :
  triple same_trace (LogWriter.log_settings c) (fun _ => True).
Proof.
  pose proof same_trace_refl as Hr. pose proof same_trace_trans as Ht.
  unfold LogWriter.log_settings.
  repeat (eapply triple_bind with (Q1 := fun _ => True); auto;
          [first [ apply log_same_trace
                 | apply triple_lift with (Q := fun _ => True); auto
                 | apply triple_modify; intros; reflexivity
                 | destruct (0 <? oversample (app_settings c))%Z;
                   [apply log_same_trace | apply triple_ret; auto] ]
          | intros ? _ ]).
  apply log_same_trace.
Qed.

Lemma lift_return {S A : Type} (r : result A) (s s' : S) (a : A) :
  lift r s = Return a s' -> r = Ok a /\ s' = s.
Proof. destruct r; cbn; intros H; inversion H; auto. Qed.

Lemma publish_return (m_data : DataAggregator.t) (samples : nat)
    (s s' : state) :
  publish m_data samples s = Return tt s' ->
  trace s' = trace s ++ [Published] /\ _stop s' = _stop s /\
  r_samples (results s') = samples /\
  DataAggregator.get m_data = Ok (r_values (results s')).
Proof.
  unfold publish, bind, get_state, lift, modify, emit.
  destruct (data_t s); cbn; [|discriminate].
  destruct (_start_t s); cbn; [|discriminate].
  destruct (DataAggregator.get m_data); cbn; [|discriminate].
  intros H. inversion H. cbn. auto.
Qed.

Lemma finish_return (c : ctx) (m_data : DataAggregator.t) (samples : nat)
    (s s' : state) :
  finish c m_data samples s = Return tt s' ->
  trace s' = trace s ++ [Published; Joined KeyPolling ViewRefresh] /\
  _stop s' = true.
Proof.
  unfold finish. intros H.
  apply bind_return in H. destruct H as (u1 & s1 & H1 & H).
  destruct u1. apply publish_return in H1. destruct H1 as (T1 & _).
  apply bind_return in H. destruct H as (u2 & s2 & H2 & H).
  destruct (triple_return same_trace _ _ s1 s2 u2
              (log_summary_same_trace c samples) H2) as [T2 _].
  unfold bind, modify, emit in H. cbn in H. inversion H. cbn.
  rewrite T2, T1, <- app_assoc. auto.
Qed.


Lemma probe_same_trace (c : ctx) (s s' : state) :
  try_any (get_data c ;;; ret true)
          (emit (Printed (nl +:+ "#data-provider timed out")) ;;; ret false) s
  = Return true s' ->
  same_trace s s'.
Proof.
  unfold try_any, bind, get_data, get_state, modify, emit, ret, throw. cbn.
  destruct (w_read (app_world c) (reads s)); cbn; intros H; inversion H;
    reflexivity.
Qed.

Lemma end_time_same_trace (c : ctx) (dur_fac : Q) :
  triple same_trace
    (if (duration (app_settings c) =? 0)%Z
     then ret (sys_maxsize (app_world c))
     else now <- monotonic c ;;
          ret (now + inject_Z (duration (app_settings c)) * dur_fac))
    (fun _ => True).
Proof.
  destruct (duration (app_settings c) =? 0)%Z.
  - intros s. cbn. split; [reflexivity | exact I].
  - intros s. cbn. split; [reflexivity | exact I].
Qed.

End TraceFacts.

(** ** The lines of the log *)

Section LogFacts.
Import App ActiveState.

Lemma append_assoc (a b d : string) : (a +:+ b) +:+ d = a +:+ (b +:+ d).
Proof.
  induction a as [|x a IH]; [reflexivity|].
  change (String x ((a +:+ b) +:+ d) = String x (a +:+ (b +:+ d))).
  now rewrite IH.
Qed.

Lemma append_empty_r (a : string) : a +:+ EmptyString = a.
Proof.
  induction a as [|x a IH]; [reflexivity|].
  change (String x (a +:+ EmptyString) = String x a). now rewrite IH.
Qed.

Lemma format_snoc (tpl : template) (tail : string) (args : list Q) :
  format (tpl ++ [Lit tail]) args =
  (let! body := format tpl args in Ok (body +:+ tail)).
Proof.
  induction tpl as [|[text | index prec] tpl IH]; simpl.
  - now rewrite append_empty_r.
  - rewrite IH. destruct (format tpl args); simpl; [|reflexivity].
    now rewrite append_assoc.
  - destruct (getitem args index); simpl; [|reflexivity].
    rewrite IH. destruct (format tpl args); simpl; [|reflexivity].
    now rewrite append_assoc.
Qed.

(** The line of a sample: the time in milliseconds with one decimal, a
    comma, the values as the provider formats them, a newline. *)
Lemma sample_line_shape (c : ctx) (t : Q) (values : list Q) (line : string) :
  LogWriter.sample_line c t values = Ok line ->
  exists body,
    format (get_fmt (data_provider c)) (1000 * t :: values) = Ok body /\
    line = fmt_f 1 (1000 * t) +:+ "," +:+ body +:+ nl.
Proof.
  unfold LogWriter.sample_line, LogWriter._fmt. simpl.
  rewrite format_snoc.
  destruct (format (get_fmt (data_provider c)) (1000 * t :: values)) as [body|];
    simpl; [|discriminate].
  intros H. inversion H. exists body. split; reflexivity.
Qed.

Lemma log_values_logged (c : ctx) (t : Q) (values : list Q) :
  clock_reading c t ->
  triple (logged_samples c) (LogWriter.log_values c t values) (fun _ => True).
Proof.
  intros [k ->] s. unfold LogWriter.log_values, bind, lift.
  destruct (LogWriter.sample_line c _ values) as [line|] eqn:E; cbn.
  - split; [|exact I]. exists [line]. split; [reflexivity|].
    constructor; [|constructor].
    destruct (sample_line_shape c _ values line E) as (body & Hb & Hl).
    exists k, values, body. split; assumption.
  - exists []. split; [now rewrite app_nil_r | constructor].
Qed.

Lemma logged_samples_refl (c : ctx) (s : state) : logged_samples c s s.
Proof. exists []. split; [now rewrite app_nil_r | constructor]. Qed.

Lemma logged_samples_trans (c : ctx) (s1 s2 s3 : state) :
  logged_samples c s1 s2 -> logged_samples c s2 s3 -> logged_samples c s1 s3.
Proof.
  intros (l1 & E1 & F1) (l2 & E2 & F2). exists (l1 ++ l2). split.
  - rewrite E2, E1, app_assoc. reflexivity.
  - apply Forall_app. split; assumption.
Qed.




End LogFacts.

(** ** A session without samples *)

Section DegenerateFacts.
Import App ActiveState.

(** When the loop ends without a sample, the aggregator is still the fresh
    one; with at least one channel the statements after the loop raise
    before [app.results.values] is assigned, and neither an event nor a
    line of the summary is produced. *)
Lemma finish_without_samples (c : ctx) (s : state) :
  (1 <= _dim c)%nat ->
  exists e s',
    finish c (DataAggregator.init (_dim c)) 0 s = Throw e s' /\
    (e = AttributeError \/ e = ZeroDivisionError) /\
    r_values (results s') = r_values (results s) /\
    trace s' = trace s /\ sink s' = sink s.
Proof.
  intros Hdim.
  assert (G : DataAggregator.get (DataAggregator.init (_dim c))
              = Raise ZeroDivisionError).
  { apply get_empty_raises; [reflexivity|].
    destruct (_dim c); [lia | discriminate]. }
  unfold finish, publish. rewrite G.
  unfold bind, get_state, lift, modify.
  destruct (data_t s); cbn; [|do 2 eexists; split; [reflexivity | auto]].
  destruct (_start_t s); cbn; do 2 eexists; (split; [reflexivity | auto]).
Qed.

(** C2: the code at the failing input. The probe succeeds and the provider
    signals the end of the stream on the next read, so the loop ends with
    zero samples. No session is flagged and no empty result is published:
    a new [ActiveState] object raises [AttributeError] on the unset
    [data_t]; an object that ran before writes a stale time and the sample
    count 0 and then calls [get] with count 0, which raises
    [ZeroDivisionError]; and with a provider without channels the summary
    divides by the sample count and raises [ZeroDivisionError]. *)
Theorem zero_sample_session_raises :
  (exists s',
      run (Ctx settings_1s ina260 world_load_removed) 10 new_state
      = Throw AttributeError s' /\
      results s' = results new_state /\
      trace s' = [TaskCreated KeyPolling; TaskCreated ViewRefresh]) /\
  (exists s',
      run (Ctx settings_1s ina260 world_load_removed) 10 used_state
      = Throw ZeroDivisionError s' /\
      r_samples (results s') = O /\
      r_values (results s') = r_values (results used_state) /\
      trace s' = [TaskCreated KeyPolling; TaskCreated ViewRefresh]) /\
  (exists s',
      run (Ctx settings_1s no_channels world_load_removed) 10 used_state
      = Throw ZeroDivisionError s' /\
      r_samples (results s') = O /\
      r_values (results s') = [] /\
      trace s' = [TaskCreated KeyPolling; TaskCreated ViewRefresh; Published]).
Proof.
  split; [|split].
  - eexists. split; [vm_compute; reflexivity|]. split; reflexivity.
  - eexists. split; [vm_compute; reflexivity|]. repeat split; reflexivity.
  - eexists. split; [vm_compute; reflexivity|]. repeat split; reflexivity.
Qed.

End DegenerateFacts.

(** ** The fuel of the sleeping loop *)

Section SleepFacts.
Import App ActiveState.

(** With as many rounds as the budget has whole seconds, plus one, the
    sleeping loop comes to its end. *)
Lemma sleep_loop_ends (c : ctx) (fuel : nat) :
  forall (sleep_t : Q) (s : state),
    sleep_t <= inject_Z (Z.of_nat fuel) ->
    exists s', sleep_loop c (S fuel) sleep_t s = Return (Some tt) s'.
Proof.
  induction fuel as [|fuel IH]; intros sleep_t s Hle.
  - simpl. destruct (Qeq_bool sleep_t 0); [eexists; reflexivity|].
    destruct (Qltb 1 sleep_t) eqn:E.
    + apply Qltb_lt in E. exfalso. change (inject_Z (Z.of_nat 0)) with 0 in Hle.
      lra.
    + eexists. reflexivity.
  - remember (S fuel) as n eqn:En. simpl.
    destruct (Qeq_bool sleep_t 0); [eexists; reflexivity|].
    destruct (Qltb 1 sleep_t); [|eexists; reflexivity].
    unfold bind at 1. cbn.
    match goal with
    | |- context [if ?b then ret _ else _] =>
        destruct b; [eexists; reflexivity|]
    end.
    subst n. apply IH.
    rewrite Nat2Z.inj_succ, <- Z.add_1_r, inject_Z_plus in Hle.
    change (inject_Z 1) with 1 in Hle. lra.
Qed.

Arguments sleep_loop : simpl never.

Lemma wait_interval_ends (c : ctx) (tm : timing) (data_t_last : Q) (s : state) :
  exists stopped s',
    wait_interval c tm data_t_last s = Return (Some stopped) s'.
Proof.
  unfold wait_interval, monotonic. unfold bind at 1 2 3 4 5 6. cbn.
  match goal with
  | |- context [sleep_loop c (S (Z.to_nat (Qceiling ?t))) ?t] =>
      assert (Hs : forall st, exists s',
                   sleep_loop c (S (Z.to_nat (Qceiling t))) t st
                   = Return (Some tt) s')
  end.
  { intros st. apply sleep_loop_ends.
    eapply Qle_trans; [apply Qle_ceiling|].
    rewrite <- Zle_Qle. lia. }
  unfold bind at 1.
  match goal with
  | |- context [sleep_loop c _ _ ?st] => destruct (Hs st) as [s' E]
  end.
  rewrite E. cbn. do 2 eexists. reflexivity.
Qed.

End SleepFacts.

(** ** The fuel of the sampling loop *)

Section TerminationFacts.
Import App ActiveState.

Lemma reads_advance_trans (s1 s2 s3 : state) :
  reads_advance s1 s2 -> reads_advance s2 s3 -> reads_advance s1 s3.
Proof. unfold reads_advance. lia. Qed.

Lemma log_values_reads (c : ctx) (t : Q) (values : list Q) :
  triple reads_advance (LogWriter.log_values c t values) (fun _ => True).
Proof.
  intros s. unfold LogWriter.log_values, bind, lift, reads_advance.
  destruct (LogWriter.sample_line c t values); cbn; auto.
Qed.

Lemma oversample_loop_reads (c : ctx) (k : nat) (d_sum : list Q) :
  triple reads_advance (oversample_loop c k d_sum) (fun _ => True).
Proof.
  apply oversample_loop_triple; unfold reads_advance; cbn; intros; lia.
Qed.

Lemma get_data_return (c : ctx) (s s' : state) (values : list Q) :
  get_data c s = Return values s' -> reads s' = S (reads s).
Proof.
  intros H. pose proof (get_data_reads c s) as E. rewrite H in E. exact E.
Qed.

Lemma get_data_ended (c : ctx) (s : state) :
  (forall values, w_read (app_world c) (reads s) <> Sample values) ->
  exists e s', get_data c s = Throw e s'.
Proof.
  intros H. unfold get_data, bind, get_state, modify. cbn.
  destruct (w_read (app_world c) (reads s)) as [values| |] eqn:E.
  - exfalso. apply (H values). reflexivity.
  - do 2 eexists. reflexivity.
  - do 2 eexists. reflexivity.
Qed.

Lemma _get_data_advances (c : ctx) (s s' : state) (sample : Q * list Q) :
  _get_data c s = Return sample s' -> (reads s < reads s')%nat.
Proof.
  unfold _get_data.
  destruct (Z.ltb_spec (oversample (app_settings c)) 2) as [HK | HK]; intros H.
  - apply bind_return in H. destruct H as (t & s1 & H1 & H).
    unfold monotonic, bind, get_state, modify, ret in H1.
    inversion H1; subst; clear H1.
    apply bind_return in H. destruct H as (data & s2 & H2 & H).
    apply get_data_return in H2. unfold ret in H. inversion H; subst.
    rewrite H2. cbn. lia.
  - apply bind_return in H. destruct H as (d_sum & s1 & H1 & H).
    destruct (Z.to_nat (oversample (app_settings c))) as [|k] eqn:EK; [lia|].
    simpl in H1.
    apply bind_return in H1. destruct H1 as (data & s2 & H2 & H1).
    apply get_data_return in H2.
    apply bind_return in H1. destruct H1 as (d1 & s3 & H3 & H1).
    apply lift_return in H3. destruct H3 as [_ ->].
    destruct (triple_return reads_advance _ _ _ _ _
                (oversample_loop_reads c k d1) H1) as [R1 _].
    apply bind_return in H. destruct H as (averaged & s4 & H4 & H).
    apply lift_return in H4. destruct H4 as [_ ->].
    unfold monotonic, bind, get_state, modify, ret in H. inversion H; subst.
    unfold reads_advance in R1. cbn. lia.
Qed.

Lemma _get_data_ended (c : ctx) (s : state) :
  (forall values, w_read (app_world c) (reads s) <> Sample values) ->
  exists e s', _get_data c s = Throw e s'.
Proof.
  intros Hend. unfold _get_data.
  destruct (Z.ltb_spec (oversample (app_settings c)) 2) as [HK | HK].
  - unfold bind at 1. cbn.
    destruct (get_data_ended c (set_ticks (S (ticks s)) s) Hend) as (e & s' & E).
    unfold bind. rewrite E. do 2 eexists. reflexivity.
  - destruct (Z.to_nat (oversample (app_settings c))) as [|k] eqn:EK; [lia|].
    simpl. destruct (get_data_ended c s Hend) as (e & s' & E).
    unfold bind. rewrite E. do 2 eexists. reflexivity.
Qed.

Lemma take_sample_advances (c : ctx) (m_data : DataAggregator.t)
    (s s' : state) (r : Q * DataAggregator.t) :
  take_sample c m_data s = Return r s' -> (reads s < reads s')%nat.
Proof.
  unfold take_sample. intros H.
  apply bind_return in H. destruct H as (t & s1 & H1 & H).
  unfold monotonic, bind, get_state, modify, ret in H1.
  inversion H1; subst; clear H1.
  apply bind_return in H. destruct H as (sample & s2 & H2 & H).
  apply _get_data_advances in H2. cbn in H2.
  apply bind_return in H. destruct H as (u3 & s3 & H3 & H).
  unfold modify in H3. inversion H3; subst; clear H3.
  apply bind_return in H. destruct H as (u4 & s4 & H4 & H).
  unfold modify in H4. inversion H4; subst; clear H4.
  apply bind_return in H. destruct H as (u5 & s5 & H5 & H).
  unfold modify in H5. inversion H5; subst; clear H5.
  apply bind_return in H. destruct H as (u6 & s6 & H6 & H).
  destruct (triple_return reads_advance _ _ _ _ _
              (log_values_reads c (fst sample) (snd sample)) H6) as [R6 _].
  apply bind_return in H. destruct H as (m' & s7 & H7 & H).
  apply lift_return in H7. destruct H7 as [_ ->].
  unfold ret in H. inversion H; subst.
  unfold reads_advance in R6. cbn in R6. lia.
Qed.

Lemma take_sample_ended (c : ctx) (m_data : DataAggregator.t) (s : state) :
  (forall values, w_read (app_world c) (reads s) <> Sample values) ->
  exists e s', take_sample c m_data s = Throw e s'.
Proof.
  intros Hend. unfold take_sample. unfold bind at 1. cbn.
  destruct (_get_data_ended c (set_ticks (S (ticks s)) s) Hend) as (e & s' & E).
  unfold bind at 1. rewrite E. do 2 eexists. reflexivity.
Qed.

Lemma wait_interval_same_reads (c : ctx) (tm : timing) (data_t_last : Q) :
  triple same_reads (wait_interval c tm data_t_last) (fun _ => True).
Proof.
  apply wait_interval_triple; unfold same_reads; cbn; intros; congruence.
Qed.

(** When the provider runs out of samples, the sampling loop comes to its
    end: with more rounds than there are reads left it does not run out of
    fuel. *)
Lemma main_loop_ends (c : ctx) (tm : timing) (bound : nat) :
  stream_ended c bound ->
  forall (fuel : nat) (end_t data_t_last : Q) (m_data : DataAggregator.t)
         (samples : nat) (s s' : state),
    (1 <= fuel)%nat ->
    (bound < reads s + fuel)%nat ->
    main_loop c tm fuel end_t data_t_last m_data samples s <> Return None s'.
Proof.
  intros Hend.
  induction fuel as [|fuel IH];
    intros end_t data_t_last m_data samples s s' Hfuel Hbound H; [lia|].
  simpl in H.
  apply bind_return in H. destruct H as (s0 & sa & H0 & H).
  unfold get_state in H0. inversion H0; subst; clear H0.
  destruct (_stop sa); [discriminate H|].
  apply bind_return in H. destruct H as (now & sb & Hb & H).
  unfold monotonic, bind, get_state, modify, ret in Hb.
  inversion Hb; subst; clear Hb.
  destruct (negb _); [discriminate H|].
  apply bind_return in H. destruct H as (slept & sc & Hc & H).
  assert (Hsc : reads sc = reads sa /\ slept <> None).
  { destruct (Qltb 0 data_t_last).
    - destruct (triple_return same_reads _ _ _ _ _
                  (wait_interval_same_reads c tm data_t_last) Hc) as [R _].
      split; [exact R|].
      destruct (wait_interval_ends c tm data_t_last
                  (set_ticks (S (ticks sa)) sa)) as (b & s1 & E).
      rewrite E in Hc. inversion Hc. discriminate.
    - unfold ret in Hc. inversion Hc. split; [reflexivity | discriminate]. }
  destruct Hsc as [Hreads Hslept].
  destruct slept as [[|]|]; [discriminate H | | congruence].
  apply bind_return in H. destruct H as (taken & sd & Hd & H).
  unfold try_stop in Hd. unfold bind at 1 in Hd.
  destruct (take_sample c m_data sc) as [[t m'] s2 | e s2] eqn:ET.
  - unfold ret in Hd. inversion Hd; subst; clear Hd.
    pose proof (take_sample_advances c m_data sc sd (t, m') ET) as Hadv.
    apply IH in H; [exact H | | lia].
    destruct fuel; [|lia]. exfalso.
    destruct (take_sample_ended c m_data sc) as (e & s3 & E).
    + intros values. apply Hend. lia.
    + rewrite E in ET. discriminate ET.
  - destruct e; try discriminate Hd.
    unfold bind, modify, ret in Hd. inversion Hd; subst.
    discriminate H.
Qed.

End TerminationFacts.

(** ** DataAggregator: further properties *)

Section AggregatorMore.
Import DataAggregator.

(** The entry of channel [i] after [samples] were added to a fresh
    aggregator, and the triple that [get] makes of it. *)
Lemma get_after_adds_channel (dim : nat) (samples : list (list Q)) :
  exists self,
    add_all (init dim) samples = Ok self /\
    _n self = length samples /\ wf self /\ _dim self = dim /\
    forall i, (i < dim)%nat ->
      _data self !! i =
      Some (fold_left (fun d v => update v d) (column i samples) fresh).
Proof.
  destruct (add_all_spec samples (init dim) (init_wf dim))
    as (self & E & W & D & N & H).
  exists self. repeat split; try assumption.
  intros i Hi. rewrite H. unfold init, reset. simpl.
  rewrite lookup_replicate_2 by assumption. reflexivity.
Qed.

(** [add] takes the first [dim] values of a sample and ignores the others. *)
Theorem add_ignores_extra_values (self : t) (values extra : list Q) :
  wf self ->
  (_dim self <= length values)%nat ->
  add self (values ++ extra) = add self values.
Proof.
  intros Hwf Hlen.
  destruct (add_spec self (values ++ extra) Hwf) as (s1 & E1 & W1 & D1 & N1 & H1).
  destruct (add_spec self values Hwf) as (s2 & E2 & W2 & D2 & N2 & H2).
  rewrite E1, E2. f_equal.
  destruct s1 as [d1 n1 data1], s2 as [d2 n2 data2]. simpl in *.
  f_equal; try congruence.
  apply list_eq. intros j. rewrite H1, H2.
  destruct (decide (j < _dim self)%nat) as [Hj | Hj].
  - rewrite lookup_app_l by lia. reflexivity.
  - rewrite (lookup_ge_None_2 (_data self)) by (unfold wf in Hwf; lia).
    reflexivity.
Qed.

Lemma add_ignores_extra_values_witness :
  add (init 2) ([5; 25] ++ [125; 7]) = add (init 2) [5; 25].
Proof.
  apply (add_ignores_extra_values (init 2) [5; 25] [125; 7]).
  - apply init_wf.
  - simpl. lia.
Defined.

(** Adding never raises, whatever the lengths of the samples (a sample may
    be shorter than [dim], or empty): every call counts as one sample and
    the aggregator keeps one entry per channel. *)
Theorem add_all_counts_every_sample (dim : nat) (samples : list (list Q)) :
  exists self,
    add_all (init dim) samples = Ok self /\
    _n self = length samples /\
    length (_data self) = dim /\ _dim self = dim.
Proof.
  destruct (get_after_adds_channel dim samples) as (self & E & N & W & D & _).
  exists self. unfold wf in W. repeat split; congruence.
Qed.

(** [get(index)]: the index is looked up before the division. Out of range
    it raises [IndexError], also when no sample was added; in range it is
    the entry of [get()] at that index, or [ZeroDivisionError] when no
    sample was added. *)
Theorem get_index_agrees_with_get (self : t) (index : nat) :
  ((length (_data self) <= index)%nat -> get_index self index = Raise IndexError) /\
  ((index < length (_data self))%nat ->
   _n self = O -> get_index self index = Raise ZeroDivisionError) /\
  (_n self <> O ->
   exists triples,
     get self = Ok triples /\ get_index self index = getitem triples index).
Proof.
  split; [|split].
  - intros H. unfold get_index, getitem.
    rewrite lookup_ge_None_2 by assumption. reflexivity.
  - intros H Hn. unfold get_index, getitem.
    destruct (lookup_lt_is_Some_2 (_data self) index H) as [d ->]. simpl.
    unfold summary, count. rewrite Hn. reflexivity.
  - intros Hn. eexists. split; [apply (get_ok self Hn)|].
    unfold get_index, getitem. rewrite list_lookup_fmap.
    destruct (_data self !! index) as [d|]; simpl; [|reflexivity].
    unfold summary. rewrite py_div_ok by (apply count_nonzero; assumption).
    reflexivity.
Qed.

Lemma get_index_agrees_with_get_witness :
  (get_index (init 2) 2 = Raise IndexError) /\
  (get_index (init 2) 1 = Raise ZeroDivisionError) /\
  (exists triples,
      get (Aggregator 1 1 [Channel 2 1 2]) = Ok triples /\
      get_index (Aggregator 1 1 [Channel 2 1 2]) 0 = getitem triples 0).
Proof.
  split; [|split].
  - apply (proj1 (get_index_agrees_with_get (init 2) 2)). simpl. lia.
  - apply (proj1 (proj2 (get_index_agrees_with_get (init 2) 1)));
      [simpl; lia | reflexivity].
  - apply (proj2 (proj2 (get_index_agrees_with_get
                           (Aggregator 1 1 [Channel 2 1 2]) 0))).
    simpl. discriminate.
Defined.

(** [get_mean()] is the list of the means of [get()], and raises when
    [get()] does. *)
Theorem get_mean_is_middle_of_get (self : t) :
  get_mean self = (let! triples := get self in
                   Ok (map (fun triple => snd (fst triple)) triples)).
Proof.
  unfold get_mean, get. induction (_data self) as [|d data IH]; simpl.
  - reflexivity.
  - unfold summary at 1. destruct (py_div (c_sum d) (count self)); simpl;
      [|reflexivity].
    rewrite IH. destruct (comprehension (summary self) data); reflexivity.
Qed.

Lemma fold_update_attained (vs : list Q) :
  forall d,
    In (c_min (fold_left (fun d v => update v d) vs d)) (c_min d :: vs) /\
    In (c_max (fold_left (fun d v => update v d) vs d)) (c_max d :: vs).
Proof.
  induction vs as [|v vs IH]; intros d; simpl.
  - auto.
  - destruct (IH (update v d)) as [Hmin Hmax].
    destruct (update_fields v d) as (Emin & _ & Emax).
    rewrite Emin in Hmin. rewrite Emax in Hmax. simpl in Hmin, Hmax.
    split.
    + destruct (Qltb v (c_min d)); destruct Hmin as [<- | Hmin]; auto.
    + destruct (Qltb (c_max d) v); destruct Hmax as [<- | Hmax]; auto.
Qed.

(** The extremes that [get] reports are attained: the minimum of a channel
    is 1e6 or one of the values added to it, it is at most 1e6 and at most
    each value; the maximum is 0 or one of the values, at least 0 and at
    least each value. *)
Theorem reported_extremes_are_attained
    (dim i : nat) (samples : list (list Q)) :
  (i < dim)%nat ->
  samples <> [] ->
  exists self triples vmin vmean vmax,
    add_all (init dim) samples = Ok self /\
    get self = Ok triples /\
    triples !! i = Some (vmin, vmean, vmax) /\
    In vmin (1000000 :: column i samples) /\
    In vmax (0 :: column i samples) /\
    (forall v, In v (1000000 :: column i samples) -> vmin <= v) /\
    (forall v, In v (0 :: column i samples) -> v <= vmax).
Proof.
  intros Hi Hne.
  destruct (get_after_adds_channel dim samples) as (self & E & N & W & D & H).
  assert (Hn : _n self <> O).
  { rewrite N. destruct samples; simpl; congruence. }
  set (f := fold_left (fun d v => update v d) (column i samples) fresh).
  exists self, (map (fun d => (c_min d, c_sum d / count self, c_max d))
                    (_data self)),
         (c_min f), (c_sum f / count self), (c_max f).
  split; [exact E|]. split; [apply (get_ok self Hn)|]. split.
  { rewrite list_lookup_fmap, (H i Hi). reflexivity. }
  destruct (fold_update_attained (column i samples) fresh) as [Amin Amax].
  destruct (fold_update_monotone (column i samples) fresh) as [Mmin Mmax].
  repeat split; try assumption.
  - intros v [<- | Hv]; [exact Mmin|].
    apply (fold_update_bounds (column i samples) fresh v Hv).
  - intros v [<- | Hv]; [exact Mmax|].
    apply (fold_update_bounds (column i samples) fresh v Hv).
Qed.

Lemma reported_extremes_are_attained_witness :
  exists self triples vmin vmean vmax,
    add_all (init 2) negative_second_channel = Ok self /\
    get self = Ok triples /\
    triples !! 1%nat = Some (vmin, vmean, vmax) /\
    In vmin (1000000 :: column 1 negative_second_channel) /\
    In vmax (0 :: column 1 negative_second_channel) /\
    (forall v, In v (1000000 :: column 1 negative_second_channel) -> vmin <= v) /\
    (forall v, In v (0 :: column 1 negative_second_channel) -> v <= vmax).
Proof.
  apply (reported_extremes_are_attained 2 1 negative_second_channel).
  - lia.
  - discriminate.
Defined.

Lemma total_permutation (vs vs' : list Q) :
  vs ≡ₚ vs' -> total vs == total vs'.
Proof.
  induction 1 as [|x l l' _ IH|x y l|l1 l2 l3 _ IH1 _ IH2]; simpl.
  - reflexivity.
  - rewrite IH. reflexivity.
  - ring.
  - rewrite IH1. exact IH2.
Qed.

Lemma fold_update_min_le (vs vs' : list Q) (d : channel) :
  (forall v, In v vs -> In v vs') ->
  c_min (fold_left (fun d v => update v d) vs' d)
  <= c_min (fold_left (fun d v => update v d) vs d).
Proof.
  intros Hsub.
  destruct (fold_update_attained vs d) as [[E | Hin] _].
  - rewrite <- E. apply fold_update_monotone.
  - apply (fold_update_bounds vs' d _ (Hsub _ Hin)).
Qed.

Lemma fold_update_max_le (vs vs' : list Q) (d : channel) :
  (forall v, In v vs -> In v vs') ->
  c_max (fold_left (fun d v => update v d) vs d)
  <= c_max (fold_left (fun d v => update v d) vs' d).
Proof.
  intros Hsub.
  destruct (fold_update_attained vs d) as [_ [E | Hin]].
  - rewrite <- E. apply fold_update_monotone.
  - apply (fold_update_bounds vs' d _ (Hsub _ Hin)).
Qed.

(** The extremes that [get] reports do not depend on the order in which
    the samples were added: for two orders of the same samples, the minimum
    and the maximum of each channel are equal as numbers. (The mean is left
    out: the running sum of the code is a float sum, whose rounding depends
    on the order.) *)
Theorem extremes_are_order_independent
    (dim i : nat) (samples samples' : list (list Q)) :
  (i < dim)%nat ->
  samples <> [] ->
  samples ≡ₚ samples' ->
  exists self self' triples triples' a b,
    add_all (init dim) samples = Ok self /\
    add_all (init dim) samples' = Ok self' /\
    get self = Ok triples /\ get self' = Ok triples' /\
    triples !! i = Some a /\ triples' !! i = Some b /\
    fst (fst a) == fst (fst b) /\
    snd a == snd b.
Proof.
  intros Hi Hne Hperm.
  destruct (get_after_adds_channel dim samples) as (self & E & N & W & D & H).
  destruct (get_after_adds_channel dim samples') as (self' & E' & N' & W' & D' & H').
  assert (Hlen : length samples' = length samples).
  { symmetry. apply Permutation_length. exact Hperm. }
  assert (Hn : _n self <> O).
  { rewrite N. destruct samples; simpl; congruence. }
  assert (Hn' : _n self' <> O) by congruence.
  assert (Hcol : column i samples ≡ₚ column i samples').
  { unfold column. apply omap_Permutation. exact Hperm. }
  set (f := fold_left (fun d v => update v d) (column i samples) fresh).
  set (f' := fold_left (fun d v => update v d) (column i samples') fresh).
  exists self, self'.
  exists (map (fun d => (c_min d, c_sum d / count self, c_max d)) (_data self)).
  exists (map (fun d => (c_min d, c_sum d / count self', c_max d)) (_data self')).
  exists (c_min f, c_sum f / count self, c_max f).
  exists (c_min f', c_sum f' / count self', c_max f').
  split; [exact E|]. split; [exact E'|].
  split; [apply (get_ok self Hn)|]. split; [apply (get_ok self' Hn')|].
  split. { rewrite list_lookup_fmap, (H i Hi). reflexivity. }
  split. { rewrite list_lookup_fmap, (H' i Hi). reflexivity. }
  simpl.
  assert (Hin : forall v, In v (column i samples) -> In v (column i samples')).
  { intros v. apply Permutation_in. exact Hcol. }
  assert (Hin' : forall v, In v (column i samples') -> In v (column i samples)).
  { intros v. apply Permutation_in. symmetry. exact Hcol. }
  split.
  - apply Qle_antisym; apply fold_update_min_le; assumption.
  - apply Qle_antisym; apply fold_update_max_le; assumption.
Qed.

Lemma extremes_are_order_independent_witness :
  exists self self' triples triples' a b,
    add_all (init 2) three_samples = Ok self /\
    add_all (init 2) (rev three_samples) = Ok self' /\
    get self = Ok triples /\ get self' = Ok triples' /\
    triples !! 1%nat = Some a /\ triples' !! 1%nat = Some b /\
    fst (fst a) == fst (fst b) /\
    snd a == snd b.
Proof.
  apply (extremes_are_order_independent 2 1 three_samples (rev three_samples)).
  - lia.
  - discriminate.
  - apply Permutation_rev.
Defined.

End AggregatorMore.

(** ** DataTable: further properties *)

Section TableMore.
Import DataTable.

Lemma for_each_app {S X : Type} (body : X -> M S unit) (l1 l2 : list X) (s : S) :
  for_each body (l1 ++ l2) s = (for_each body l1 ;;; for_each body l2) s.
Proof.
  revert s. induction l1 as [|x l1 IH]; intros s; simpl.
  - reflexivity.
  - unfold bind in *. destruct (body x s) as [u s1 | e s1]; [|reflexivity].
    apply IH.
Qed.

Lemma rows_appended (values : list Q) (n : nat) (data : list (list Q)) :
  (length values <= n)%nat \/ (length data <= n)%nat ->
  rows_updated (fun j row => row ++ option_list (values !! j)) 0 n data =
  imap (fun j row => row ++ option_list (values !! j)) data.
Proof.
  intros Hn. apply list_eq. intros j. unfold rows_updated.
  rewrite !list_lookup_imap.
  destruct (data !! j) as [row|] eqn:Ej; simpl; [|reflexivity].
  apply lookup_lt_Some in Ej.
  case_decide; [reflexivity|].
  rewrite (lookup_ge_None_2 values j) by lia. simpl.
  now rewrite app_nil_r.
Qed.

(** The loop of [add] that appends: it goes through the rows in order and
    raises at the first row for which the sample has no value. *)
Lemma append_loop (values : list Q) (s : t) :
  length (_data s) = _dim s ->
  for_each (append values) (seq 0 (_dim s)) s =
  (if decide (_dim s <= length values)%nat
   then Return tt (set_data (imap (fun j row => row ++ option_list (values !! j))
                                  (_data s)) s)
   else Throw IndexError
          (set_data (imap (fun j row => row ++ option_list (values !! j))
                          (_data s)) s)).
Proof.
  intros Hwf. case_decide as Hlen.
  - rewrite (for_each_rows (append values)
               (fun j row => row ++ option_list (values !! j)) (_dim s));
      [| intros; apply append_row; [lia | assumption] | lia | lia].
    rewrite rows_appended by lia. reflexivity.
  - set (b := length values).
    replace (_dim s) with (b + (_dim s - b))%nat at 1 by lia.
    rewrite seq_app, for_each_app. unfold bind at 1.
    rewrite (for_each_rows (append values)
               (fun j row => row ++ option_list (values !! j)) b);
      [| intros; apply append_row; [lia | assumption] | lia | lia].
    rewrite rows_appended by (left; lia).
    destruct (_dim s - b)%nat as [|k] eqn:Ek; [lia|]. simpl.
    unfold bind at 1.
    assert (Hrow : is_Some (imap (fun j row => row ++ option_list (values !! j))
                                 (_data s) !! b)).
    { apply lookup_lt_is_Some_2. rewrite length_imap. lia. }
    destruct Hrow as [row Hrow].
    unfold append, bind, get_state, getitem. simpl. rewrite Hrow. simpl.
    rewrite (lookup_ge_None_2 values b) by lia. reflexivity.
Qed.

(** [add] with a sample that may be too short. On a table without channels
    it raises [IndexError] and changes nothing. Otherwise the oldest values
    are evicted when the first row is full, and then each row gets the value
    the sample has for it; when the sample has fewer values than there are
    channels, [add] raises [IndexError] after the rows it has values for were
    extended, so the rows no longer have the same length. *)
Theorem add_with_short_sample (self : t) (values : list Q) :
  (_data self = [] -> add values self = Throw IndexError self) /\
  (forall first,
      length (_data self) = _dim self ->
      _data self !! O = Some first ->
      let data' :=
        imap (fun j row =>
                (if Nat.eqb (length first) (_size self)
                 then drop 1 row else row) ++ option_list (values !! j))
             (_data self) in
      add values self =
      (if decide (_dim self <= length values)%nat
       then Return tt (set_data data' self)
       else Throw IndexError (set_data data' self))).
Proof.
  split.
  - intros E. unfold add, bind, get_state, getitem. rewrite E. reflexivity.
  - intros first Hwf Hfirst data'. subst data'.
    unfold add, bind at 1 2, get_state. unfold getitem. rewrite Hfirst. simpl.
    unfold bind.
    destruct (Nat.eqb (length first) (_size self)).
    + rewrite (for_each_rows drop_oldest (fun _ row => drop 1 row) (_dim self));
        [| intros; apply drop_oldest_row; assumption | lia | lia].
      pose proof (append_loop values
                    (set_data (rows_updated (fun _ row => drop 1 row) 0
                                 (_dim self) (_data self)) self)) as Happ.
      cbn [_dim set_data _data] in Happ. rewrite Happ.
      2:{ unfold rows_updated. rewrite length_imap. assumption. }
      unfold set_data. cbn [_dim _size _n _data].
      assert (E : imap (fun j row => row ++ option_list (values !! j))
                       (rows_updated (fun _ row => drop 1 row) 0 (_dim self)
                                     (_data self))
                  = imap (fun j row => drop 1 row ++ option_list (values !! j))
                         (_data self)).
      { apply list_eq. intros j. unfold rows_updated.
        rewrite !list_lookup_imap.
        destruct (_data self !! j) eqn:Ej; simpl; [|reflexivity].
        apply lookup_lt_Some in Ej.
        repeat case_decide; (reflexivity || lia). }
      rewrite E. case_decide; reflexivity.
    + unfold ret. rewrite (append_loop values self Hwf).
      case_decide; reflexivity.
Qed.

Lemma add_with_short_sample_witness :
  (add [1; 10] (init 0 4) = Throw IndexError (init 0 4)) /\
  (let data' :=
     imap (fun j row =>
             (if Nat.eqb (length ([] : list Q)) 4
              then drop 1 row else row) ++ option_list ([7] !! j))
          (_data (init 2 4)) in
   add [7] (init 2 4) =
   (if decide (2 <= length [7 : Q])%nat
    then Return tt (set_data data' (init 2 4))
    else Throw IndexError (set_data data' (init 2 4)))).
Proof.
  split.
  - apply (proj1 (add_with_short_sample (init 0 4) [1; 10])). reflexivity.
  - apply (proj2 (add_with_short_sample (init 2 4) [7]) []); reflexivity.
Defined.

(** A table of two channels given a sample of one value: the first row has
    the value, the second has none, and [IndexError] is raised. *)
Example short_sample_leaves_uneven_rows :
  add [7] (init 2 4) = Throw IndexError (Table 2 4 0 [[7]; []]).
Proof. reflexivity. Qed.

End TableMore.

(** ** Scales: further properties *)

Section ScalesMore.
Import Scales.
Local Open Scope string_scope.

(** For every unit of the closed set, the unit that durations are shown in
    is again a unit of the set, [dur_fac] is the factor of that unit ([int_fac]
    of it), and this factor is never smaller than the factor of the interval
    unit: it is larger for every unit except days, which is its own duration
    unit. *)
Theorem duration_unit_is_not_smaller (scale : string) :
  is_unit scale ->
  exists fac next dfac,
    int_fac scale = Ok fac /\ dur_scale scale = Ok next /\
    dur_fac scale = Ok dfac /\
    is_unit next /\ int_fac next = Ok dfac /\
    0 < fac /\ fac <= dfac /\
    (scale <> "d" -> fac < dfac) /\ (scale = "d" -> next = "d").
Proof.
  unfold is_unit.
  intros [-> | [-> | [-> | [-> | ->]]]]; do 3 eexists;
    (split; [reflexivity|]); (split; [reflexivity|]);
    (split; [reflexivity|]);
    (split; [tauto|]); (split; [reflexivity|]); (split; [reflexivity|]);
    (split; [discriminate|]);
    (split; [intros H; (reflexivity || congruence) | intros H; (reflexivity || discriminate H)]).
Qed.

Lemma duration_unit_is_not_smaller_witness :
  exists fac next dfac,
    int_fac "m" = Ok fac /\ dur_scale "m" = Ok next /\
    dur_fac "m" = Ok dfac /\
    is_unit next /\ int_fac next = Ok dfac /\
    0 < fac /\ fac <= dfac /\
    ("m" <> "d" -> fac < dfac) /\ ("m" = "d" -> next = "d").
Proof.
  apply (duration_unit_is_not_smaller "m"). unfold is_unit. tauto.
Defined.

End ScalesMore.

(** ** LogWriter: further properties *)

Section LogWriterMore.
Import App.

Lemma log_settings_ok (c : ctx) (s : state) (fac dfac : Q) (next : string) :
  Scales.int_fac (int_scale (app_settings c)) = Ok fac ->
  Scales.dur_scale (int_scale (app_settings c)) = Ok next ->
  Scales.dur_fac (int_scale (app_settings c)) = Ok dfac ->
  LogWriter.log_settings c s =
  Return tt (set_sink (sink s ++ settings_header (app_settings c) next)
                      (set_lw_scales (Some (fac, next, dfac)) s)).
Proof.
  intros E1 E2 E3.
  unfold LogWriter.log_settings, settings_header. rewrite E1, E2, E3.
  destruct (0 <? oversample (app_settings c))%Z;
    repeat (progress (unfold bind, lift, ret, modify, log; cbn));
    unfold set_sink, set_lw_scales; cbn;
    rewrite <- !app_assoc; cbn; reflexivity.
Qed.

(** [log_settings] with an interval unit outside the closed set raises
    [KeyError] before anything is written; with a valid unit it stores the
    scale attributes and writes the header, whose oversampling line is
    present only when the oversample setting is positive. *)
Theorem log_settings_writes_header (c : ctx) (s : state) :
  (~ Scales.is_unit (int_scale (app_settings c)) ->
   LogWriter.log_settings c s = Throw KeyError s) /\
  (forall fac next dfac,
      Scales.int_fac (int_scale (app_settings c)) = Ok fac ->
      Scales.dur_scale (int_scale (app_settings c)) = Ok next ->
      Scales.dur_fac (int_scale (app_settings c)) = Ok dfac ->
      LogWriter.log_settings c s =
      Return tt (set_sink (sink s ++ settings_header (app_settings c) next)
                          (set_lw_scales (Some (fac, next, dfac)) s))).
Proof.
  split.
  - intros Hn. unfold LogWriter.log_settings, Scales.int_fac.
    rewrite (dict_getitem_outside _ Hn). reflexivity.
  - intros fac next dfac E1 E2 E3.
    unfold LogWriter.log_settings, settings_header. rewrite E1, E2, E3.
    destruct (0 <? oversample (app_settings c))%Z;
      repeat (progress (unfold bind, lift, ret, modify, log; cbn));
      unfold set_sink, set_lw_scales; cbn;
      rewrite <- !app_assoc; cbn; reflexivity.
Qed.

Lemma log_settings_writes_header_witness :
  (LogWriter.log_settings (Ctx (Settings 1 "us" 0 0 0 false) ina260 world_ramp)
     new_state = Throw KeyError new_state) /\
  (LogWriter.log_settings (Ctx settings_oversample3 ina260 world_ramp) new_state =
   Return tt (set_sink (sink new_state ++ settings_header settings_oversample3 "m")
                       (set_lw_scales (Some (1, "m"%string, 60)) new_state))).
Proof.
  split.
  - apply (proj1 (log_settings_writes_header
                    (Ctx (Settings 1 "us" 0 0 0 false) ina260 world_ramp)
                    new_state)).
    unfold Scales.is_unit. simpl.
    intros [H | [H | [H | [H | H]]]]; discriminate H.
  - apply (proj2 (log_settings_writes_header
                    (Ctx settings_oversample3 ina260 world_ramp) new_state));
      reflexivity.
Defined.

Lemma log_channel_line (c : ctx) (index : nat) (triple : Q * Q * Q)
    (unit : string) (s : state) :
  get_units (data_provider c) !! index = Some unit ->
  exists line,
    LogWriter.log_channel c (index, triple) s
    = Return tt (set_sink (sink s ++ [line]) s).
Proof.
  intros Hu. destruct triple as [[vmin vmean] vmax].
  unfold LogWriter.log_channel, bind, getitem. rewrite Hu.
  eexists. reflexivity.
Qed.

Arguments LogWriter.log_channel : simpl never.
Arguments fmt_f : simpl never.
Arguments fmt_d : simpl never.

Lemma log_channels_lines (c : ctx) (values : list (Q * Q * Q)) :
  forall (k : nat) (s : state),
    (k + length values <= length (get_units (data_provider c)))%nat ->
    exists lines,
      for_each (LogWriter.log_channel c) (imap (fun i v => ((k + i)%nat, v)) values) s
      = Return tt (set_sink (sink s ++ lines) s) /\
      length lines = length values.
Proof.
  induction values as [|triple values IH]; intros k s Hlen.
  - exists []. simpl. unfold ret. rewrite app_nil_r.
    destruct s; split; reflexivity.
  - simpl in Hlen.
    destruct (lookup_lt_is_Some_2 (get_units (data_provider c)) (k + 0)
                ltac:(lia)) as [unit Hu].
    destruct (log_channel_line c (k + 0) triple unit s Hu) as [line El].
    destruct (IH (S k) (set_sink (sink s ++ [line]) s) ltac:(lia))
      as (lines & E & L).
    exists (line :: lines). split; [|simpl; now rewrite L].
    change (imap (fun i v => ((k + i)%nat, v)) (triple :: values))
      with (((k + 0)%nat, triple)
              :: imap ((fun i v => ((k + i)%nat, v)) ∘ S) values).
    rewrite (imap_ext _ (fun i v => ((S k + i)%nat, v))).
    2:{ intros i v _. simpl. f_equal. lia. }
    change (for_each (LogWriter.log_channel c) (?x :: ?l))
      with (LogWriter.log_channel c x ;;; for_each (LogWriter.log_channel c) l).
    unfold bind. rewrite El, E. cbn. rewrite <- app_assoc. reflexivity.
Qed.

Lemma log_channels_all (c : ctx) (values : list (Q * Q * Q)) (s : state) :
  (length values <= length (get_units (data_provider c)))%nat ->
  exists lines,
    for_each (LogWriter.log_channel c) (imap pair values) s
    = Return tt (set_sink (sink s ++ lines) s) /\
    length lines = length values.
Proof.
  intros Hlen.
  destruct (log_channels_lines c values O s Hlen) as (lines & E & L).
  exists lines. split; [|exact L].
  rewrite <- E. f_equal.
Qed.

Lemma log_summary_ok (c : ctx) (samples : nat) (s : state)
    (fac dfac : Q) (next : string) :
  lw_scales s = Some (fac, next, dfac) ->
  ~ fac == 0 -> ~ dfac == 0 ->
  ~ r_time (results s) == 0 ->
  samples <> O ->
  (length (r_values (results s)) <= length (get_units (data_provider c)))%nat ->
  exists lines,
    LogWriter.log_summary c samples s = Return tt (set_sink (sink s ++ lines) s) /\
    length lines = (4 + length (r_values (results s)))%nat.
Proof.
  intros Hsc Hfac Hdfac Htime Hsamples Hunits.
  unfold LogWriter.log_summary. unfold bind at 1. unfold get_state.
  unfold bind at 1. rewrite Hsc. cbn.
  rewrite (py_div_ok _ dfac Hdfac). cbn.
  rewrite (py_div_ok _ _ Htime). cbn.
  rewrite (py_div_ok _ fac Hfac). cbn.
  rewrite (py_div_ok _ (LogWriter.count samples))
    by (apply count_nonzero; assumption).
  cbn.
  match goal with
  | |- context [for_each _ _ ?st] =>
      destruct (log_channels_all c (r_values (results s)) st)
        as (lines & E & L); [simpl; lia|]
  end.
  rewrite E. cbn.
  eexists. split.
  - rewrite <- !app_assoc. cbn. reflexivity.
  - simpl. rewrite L. reflexivity.
Qed.

(** [log_summary] divides without a guard. When the elapsed time is zero
    (the clock gave the same reading for the start and for the last sample)
    it raises [ZeroDivisionError] after the duration line was written; when
    the time is not zero but the sample count is, it raises after the line
    with the sample count. *)
Theorem log_summary_raises_on_zero (c : ctx) (samples : nat) (s : state)
    (fac dfac : Q) (next : string) :
  lw_scales s = Some (fac, next, dfac) ->
  ~ fac == 0 -> ~ dfac == 0 ->
  (r_time (results s) == 0 ->
   exists line,
     LogWriter.log_summary c samples s
     = Throw ZeroDivisionError (set_sink (sink s ++ [line]) s)) /\
  (~ r_time (results s) == 0 -> samples = O ->
   exists line1 line2,
     LogWriter.log_summary c samples s
     = Throw ZeroDivisionError (set_sink (sink s ++ [line1; line2]) s)).
Proof.
  intros Hsc Hfac Hdfac. split.
  - intros Htime.
    unfold LogWriter.log_summary. unfold bind at 1. unfold get_state.
    unfold bind at 1. rewrite Hsc. cbn.
    rewrite (py_div_ok _ dfac Hdfac). cbn.
    rewrite (py_div_zero _ _ Htime). cbn.
    eexists. reflexivity.
  - intros Htime ->.
    unfold LogWriter.log_summary. unfold bind at 1. unfold get_state.
    unfold bind at 1. rewrite Hsc. cbn.
    rewrite (py_div_ok _ dfac Hdfac). cbn.
    rewrite (py_div_ok _ _ Htime). cbn.
    rewrite (py_div_ok _ fac Hfac). cbn.
    rewrite (py_div_zero _ (LogWriter.count 0)) by reflexivity. cbn.
    do 2 eexists. rewrite <- app_assoc. reflexivity.
Qed.

Lemma log_summary_raises_on_zero_witness :
  (exists line,
      LogWriter.log_summary (Ctx settings_1s ina260 world_two_samples) 1
        published_at_once
      = Throw ZeroDivisionError
          (set_sink (sink published_at_once ++ [line]) published_at_once)) /\
  (exists line1 line2,
      LogWriter.log_summary (Ctx settings_1s ina260 world_two_samples) 0
        published_state
      = Throw ZeroDivisionError
          (set_sink (sink published_state ++ [line1; line2]) published_state)).
Proof.
  split.
  - apply (proj1 (log_summary_raises_on_zero
                    (Ctx settings_1s ina260 world_two_samples) 1
                    published_at_once 1 60 "m"
                    eq_refl ltac:(discriminate) ltac:(discriminate))).
    reflexivity.
  - apply (proj2 (log_summary_raises_on_zero
                    (Ctx settings_1s ina260 world_two_samples) 0
                    published_state 1 60 "m"
                    eq_refl ltac:(discriminate) ltac:(discriminate)));
      [discriminate | reflexivity].
Defined.

Lemma format_within (tpl : template) (args : list Q) :
  fields_within (length args) tpl -> exists text, format tpl args = Ok text.
Proof.
  induction 1 as [|[text | index prec] tpl Hp _ IH]; simpl.
  - eexists. reflexivity.
  - destruct IH as [rest ->]. eexists. reflexivity.
  - destruct (lookup_lt_is_Some_2 args index Hp) as [a Ha].
    unfold getitem. rewrite Ha. simpl.
    destruct IH as [rest ->]. eexists. reflexivity.
Qed.

Lemma format_outside (tpl : template) (args : list Q) :
  ~ fields_within (length args) tpl -> format tpl args = Raise IndexError.
Proof.
  induction tpl as [|[text | index prec] tpl IH]; intros Hn; simpl.
  - exfalso. apply Hn. constructor.
  - rewrite IH; [reflexivity|].
    intros H. apply Hn. constructor; [exact I | exact H].
  - unfold getitem. destruct (args !! index) as [a|] eqn:Ea; simpl;
      [|reflexivity].
    rewrite IH; [reflexivity|].
    intros H. apply Hn. constructor; [|exact H].
    apply lookup_lt_Some in Ea. exact Ea.
Qed.

(** [log_values] writes the line of a sample exactly when every field of the
    provider's format refers to the time or to a value the sample has;
    otherwise it raises [IndexError] and writes nothing. *)
Theorem log_values_needs_enough_values (c : ctx) (t : Q) (values : list Q)
    (s : state) :
  (fields_within (S (length values)) (get_fmt (data_provider c)) ->
   exists line,
     LogWriter.sample_line c t values = Ok line /\
     LogWriter.log_values c t values s
     = Return tt (set_sink (sink s ++ [line]) s)) /\
  (~ fields_within (S (length values)) (get_fmt (data_provider c)) ->
   LogWriter.log_values c t values s = Throw IndexError s).
Proof.
  unfold LogWriter.log_values, LogWriter.sample_line, LogWriter._fmt. split.
  - intros H.
    destruct (format_within
                ([Field 0 1; Lit ","] ++ get_fmt (data_provider c) ++ [Lit nl])
                (1000 * t :: values)) as [line E].
    { unfold fields_within. simpl.
      constructor; [lia|]. constructor; [exact I|].
      apply Forall_app. split; [exact H|].
      constructor; [exact I | constructor]. }
    exists line. split; [exact E|].
    unfold bind. rewrite E. reflexivity.
  - intros H. unfold bind. rewrite format_outside; [reflexivity|].
    intros Hw. apply H.
    inversion Hw as [|p1 l1 _ Hw1]; subst.
    inversion Hw1 as [|p2 l2 _ Hw2]; subst.
    apply Forall_app in Hw2. apply Hw2.
Qed.

Lemma log_values_needs_enough_values_witness :
  (exists line,
      LogWriter.sample_line (Ctx settings_1s ina260 world_ramp) 100 [5; 25]
      = Ok line /\
      LogWriter.log_values (Ctx settings_1s ina260 world_ramp) 100 [5; 25]
        new_state
      = Return tt (set_sink (sink new_state ++ [line]) new_state)) /\
  (LogWriter.log_values (Ctx settings_1s ina260 world_ramp) 100 [5] new_state
   = Throw IndexError new_state).
Proof.
  split.
  - apply (proj1 (log_values_needs_enough_values
                    (Ctx settings_1s ina260 world_ramp) 100 [5; 25] new_state)).
    repeat constructor.
  - apply (proj2 (log_values_needs_enough_values
                    (Ctx settings_1s ina260 world_ramp) 100 [5] new_state)).
    intros H. inversion H as [|p1 l1 _ H1]; subst.
    inversion H1 as [|p2 l2 _ H2]; subst.
    inversion H2 as [|p3 l3 H3 _]; subst. simpl in H3. lia.
Defined.

(** The providers that are shipped fit the logger: for both values of
    [WITH_POWER] of the INA260 provider and for [DIM] 2 or 3 of the fake
    provider there is a unit for every channel, and every field of the
    format refers to the time or to one of the [dim] channel values, so that
    a sample with [dim] values is always logged. *)
Theorem shipped_providers_fit_logger (p : provider) :
  (exists WITH_POWER, p = INA260DataProvider.provider WITH_POWER) \/
  p = FakeDataProvider.provider 2 \/ p = FakeDataProvider.provider 3 ->
  length (get_units p) = get_dim p /\
  fields_within (S (get_dim p)) (get_fmt p).
Proof.
  intros [[[|] ->] | [-> | ->]]; split; try reflexivity;
    repeat constructor.
Qed.

Lemma shipped_providers_fit_logger_witness :
  length (get_units (INA260DataProvider.provider false))
  = get_dim (INA260DataProvider.provider false) /\
  fields_within (S (get_dim (INA260DataProvider.provider false)))
                (get_fmt (INA260DataProvider.provider false)).
Proof.
  apply (shipped_providers_fit_logger (INA260DataProvider.provider false)).
  left. exists false. reflexivity.
Defined.

End LogWriterMore.

(** ** ActiveState: further properties *)

Section ActiveStateMore.
Import App ActiveState.

Arguments LogWriter.log_settings : simpl never.
Arguments get_data : simpl never.
Arguments monotonic : simpl never.
Arguments main_loop : simpl never.
Arguments finish : simpl never.

Ltac step :=
  repeat (progress (unfold bind, lift, ret, throw, modify, get_state, log,
                      emit, try_any, try_stop; cbn)).

(** The probe is guarded by a bare [except]: whatever the first read raises,
    also the end-of-stream signal (the INA260 provider raises it when no load
    appears within its timeout), the session is given up as after a hard
    failure: the message is printed, and the [time], [samples] and [values]
    of [app.results] are left as they were. *)
Theorem probe_end_of_stream_is_failure (c : ctx) (fuel : nat) (s : state) :
  Scales.is_unit (int_scale (app_settings c)) ->
  (forall values, w_read (app_world c) (reads s) <> Sample values) ->
  exists s',
    run c fuel s = Return (Some ProbeFailed) s' /\
    r_time (results s') = r_time (results s) /\
    r_samples (results s') = r_samples (results s) /\
    r_values (results s') = r_values (results s) /\
    trace s' = trace s ++ [TaskCreated KeyPolling; TaskCreated ViewRefresh;
                           Printed (nl +:+ "#data-provider timed out")].
Proof.
  intros Hu Hr.
  destruct (scales_defined _ Hu) as (fac & next & dfac & E1 & _ & E3 & _).
  unfold run. rewrite E1, E3. step. unfold _run. step.
  match goal with
  | |- context [LogWriter.log_settings c ?st] =>
      destruct (log_settings_effect c st Hu) as (scales & lines & E);
      rewrite E
  end.
  unfold get_data. step.
  destruct (w_read (app_world c) (reads s)) as [values | |] eqn:Er.
  - exfalso. apply (Hr values). reflexivity.
  - step. eexists. split; [reflexivity|]. do 3 (split; [reflexivity|]).
    cbn. rewrite <- !app_assoc. reflexivity.
  - step. eexists. split; [reflexivity|]. do 3 (split; [reflexivity|]).
    cbn. rewrite <- !app_assoc. reflexivity.
Qed.

Lemma probe_end_of_stream_is_failure_witness :
  exists s',
    run (Ctx settings_1s ina260 world_no_load) 10 used_state
    = Return (Some ProbeFailed) s' /\
    r_time (results s') = r_time (results used_state) /\
    r_samples (results s') = r_samples (results used_state) /\
    r_values (results s') = r_values (results used_state) /\
    trace s' = trace used_state
                 ++ [TaskCreated KeyPolling; TaskCreated ViewRefresh;
                     Printed (nl +:+ "#data-provider timed out")].
Proof.
  apply (probe_end_of_stream_is_failure
           (Ctx settings_1s ina260 world_no_load) 10 used_state).
  - unfold Scales.is_unit. simpl. tauto.
  - intros values. discriminate.
Defined.

(** With an interval unit outside the closed set, [run] raises [KeyError]
    when it computes the interval factor: the stop flag is cleared, and no
    task is created, nothing is logged and the provider is not read. *)
Theorem run_rejects_unknown_unit (c : ctx) (fuel : nat) (s : state) :
  ~ Scales.is_unit (int_scale (app_settings c)) ->
  run c fuel s = Throw KeyError (set_stop false s).
Proof.
  intros Hn. unfold run, Scales.int_fac.
  rewrite (dict_getitem_outside _ Hn). reflexivity.
Qed.

Lemma run_rejects_unknown_unit_witness :
  run (Ctx settings_bad_unit ina260 world_ramp) 10 used_state
  = Throw KeyError (set_stop false used_state).
Proof.
  apply (run_rejects_unknown_unit (Ctx settings_bad_unit ina260 world_ramp)).
  unfold Scales.is_unit. simpl.
  intros [H | [H | [H | [H | H]]]]; discriminate H.
Defined.

Lemma oversample_loop_cut (c : ctx) (readings : list (list Q)) (k : nat) :
  forall (s : state) (d_sum : list Q),
    length d_sum = _dim c ->
    (forall m r, readings !! m = Some r ->
                 w_read (app_world c) (reads s + m) = Sample r /\
                 (_dim c <= length r)%nat) ->
    w_read (app_world c) (reads s + length readings) = EndOfStream ->
    oversample_loop c (length readings + S k) d_sum s =
    Throw StopIteration (set_reads (reads s + length readings + 1) s).
Proof.
  induction readings as [|r rest IH]; intros s d_sum Hlen Hread Hend.
  - simpl in *. rewrite Nat.add_0_r in Hend. unfold bind, get_data. step.
    rewrite Hend. step. rewrite Nat.add_0_r, Nat.add_1_r. reflexivity.
  - simpl. unfold bind at 1.
    destruct (Hread O r eq_refl) as [Hr0 Hr1]. rewrite Nat.add_0_r in Hr0.
    rewrite (get_data_sample c s r Hr0).
    destruct (accumulate_lookup r (_dim c) O d_sum) as (d1 & E1 & L1 & H1);
      [lia | lia |].
    unfold bind at 1. rewrite E1. simpl.
    rewrite (IH (set_reads (S (reads s)) s) d1).
    + simpl.
      replace (reads s + S (length rest) + 1)%nat
        with (S (reads s) + length rest + 1)%nat by lia.
      reflexivity.
    + congruence.
    + intros m r' Hm. simpl.
      replace (S (reads s + m)) with (reads s + S m)%nat by lia.
      apply (Hread (S m) r'). exact Hm.
    + simpl. simpl in Hend.
      replace (S (reads s + length rest)) with (reads s + S (length rest))%nat
        by lia.
      exact Hend.
Qed.

(** With oversampling, a sample is made of [K] readings or not at all: when
    the provider signals the end of the stream after fewer than [K]
    readings, the readings taken so far are dropped, no time is taken, and
    the signal is passed on. *)
Theorem oversampling_needs_all_readings
    (c : ctx) (s : state) (readings : list (list Q)) :
  (2 <= oversample (app_settings c))%Z ->
  (length readings < Z.to_nat (oversample (app_settings c)))%nat ->
  (forall m r, readings !! m = Some r ->
               w_read (app_world c) (reads s + m) = Sample r /\
               (_dim c <= length r)%nat) ->
  w_read (app_world c) (reads s + length readings) = EndOfStream ->
  _get_data c s =
  Throw StopIteration (set_reads (reads s + length readings + 1) s).
Proof.
  intros HK Hshort Hread Hend. unfold _get_data.
  destruct (Z.ltb_spec (oversample (app_settings c)) 2) as [H | _]; [lia|].
  replace (Z.to_nat (oversample (app_settings c)))
    with (length readings
          + S (Z.to_nat (oversample (app_settings c)) - length readings - 1))%nat
    by lia.
  unfold bind at 1.
  rewrite (oversample_loop_cut c readings _ s (replicate (_dim c) 0));
    [reflexivity | apply length_replicate | exact Hread | exact Hend].
Qed.

Lemma oversampling_needs_all_readings_witness :
  _get_data (Ctx settings_oversample3 ina260 world_two_then_end) new_state =
  Throw StopIteration (set_reads (reads new_state + length two_readings + 1)
                                 new_state).
Proof.
  apply (oversampling_needs_all_readings
           (Ctx settings_oversample3 ina260 world_two_then_end) new_state
           two_readings).
  - simpl. lia.
  - simpl. lia.
  - intros m r Hm.
    destruct m as [|[|m]]; simpl in Hm; inversion Hm; subst;
      split; (reflexivity || (simpl; lia)).
  - reflexivity.
Defined.

Lemma Qceiling_unique (x : Q) (z : Z) :
  inject_Z (z - 1) < x -> x <= inject_Z z -> Qceiling x = z.
Proof.
  intros H1 H2.
  pose proof (Qceiling_lt x) as C1. pose proof (Qle_ceiling x) as C2.
  assert (A : (Qceiling x - 1 < z)%Z).
  { rewrite Zlt_Qlt. eapply Qlt_le_trans; eassumption. }
  assert (B : (z - 1 < Qceiling x)%Z).
  { rewrite Zlt_Qlt. eapply Qlt_le_trans; eassumption. }
  lia.
Qed.

Lemma py_max_nonneg (a : Q) : 0 <= py_max a 0.
Proof.
  unfold py_max. destruct (Qltb a 0) eqn:E.
  - apply Qle_refl.
  - apply Qltb_ge in E. exact E.
Qed.

Lemma awaits_unmoved (s : state) :
  _stop s = false -> set_stop false (set_awaits (awaits s + 0) s) = s.
Proof. intros H. destruct s. simpl in *. subst. now rewrite Nat.add_0_r. Qed.

(** The sleeping loop when no stop key arrives: one suspension per second
    of the budget, the last one for the rest. *)
Lemma sleep_loop_slices (c : ctx) (fuel : nat) :
  forall (sleep_t : Q) (s : state),
    0 <= sleep_t ->
    sleep_t <= inject_Z (Z.of_nat fuel) ->
    _stop s = false ->
    (forall k, (awaits s <= k)%nat -> w_key_stop (app_world c) k = false) ->
    sleep_loop c (S fuel) sleep_t s =
    Return (Some tt)
      (set_stop false
         (set_awaits (awaits s + Z.to_nat (Qceiling sleep_t)) s)).
Proof.
  induction fuel as [|fuel IH]; intros sleep_t s H0 Hle Hstop Hkey.
  - assert (E : sleep_t == 0).
    { change (inject_Z (Z.of_nat 0)) with 0 in Hle. apply Qle_antisym; assumption. }
    simpl. rewrite (proj2 (Qeq_bool_iff _ _) E).
    rewrite (Qceiling_comp _ _ E). change (Z.to_nat (Qceiling 0)) with O.
    unfold ret. now rewrite awaits_unmoved.
  - remember (S fuel) as n eqn:En. simpl.
    destruct (Qeq_bool sleep_t 0) eqn:E0.
    { apply Qeq_bool_iff in E0.
      rewrite (Qceiling_comp _ _ E0). change (Z.to_nat (Qceiling 0)) with O.
      unfold ret. now rewrite awaits_unmoved. }
    assert (Hpos : 0 < sleep_t).
    { apply Qle_lteq in H0. destruct H0 as [H0 | H0]; [exact H0|].
      exfalso. symmetry in H0. apply Qeq_bool_iff in H0. congruence. }
    destruct (Qltb 1 sleep_t) eqn:E1.
    + apply Qltb_lt in E1.
      unfold bind at 1. unfold suspend. step.
      rewrite Hstop, (Hkey (awaits s)) by lia. cbn.
      subst n. rewrite IH.
      * cbn.
        assert (Ec : Qceiling sleep_t = (Qceiling (sleep_t - 1) + 1)%Z).
        { apply Qceiling_unique.
          - replace (Qceiling (sleep_t - 1) + 1 - 1)%Z
              with (Qceiling (sleep_t - 1) - 1 + 1)%Z by lia.
            rewrite inject_Z_plus. pose proof (Qceiling_lt (sleep_t - 1)).
            change (inject_Z 1) with 1. lra.
          - rewrite inject_Z_plus. pose proof (Qle_ceiling (sleep_t - 1)).
            change (inject_Z 1) with 1. lra. }
        assert (Hc : (0 <= Qceiling (sleep_t - 1))%Z).
        { rewrite Zle_Qle. eapply Qle_trans; [|apply Qle_ceiling].
          change (inject_Z 0) with 0. lra. }
        rewrite Ec.
        replace (awaits s + Z.to_nat (Qceiling (sleep_t - 1) + 1))%nat
          with (S (awaits s + Z.to_nat (Qceiling (sleep_t - 1)))) by lia.
        reflexivity.
      * lra.
      * rewrite Nat2Z.inj_succ, <- Z.add_1_r, inject_Z_plus in Hle.
        change (inject_Z 1) with 1 in Hle. lra.
      * reflexivity.
      * intros k Hk. cbn in Hk. apply Hkey. lia.
    + apply Qltb_ge in E1.
      unfold bind at 1. unfold suspend. step.
      rewrite Hstop, (Hkey (awaits s)) by lia. cbn.
      assert (Ec : Qceiling sleep_t = 1%Z).
      { apply Qceiling_unique; [exact Hpos | exact E1]. }
      rewrite Ec. change (Z.to_nat 1) with 1%nat.
      rewrite Nat.add_1_r. reflexivity.
Qed.


Lemma main_loop_step (c : ctx) (tm : timing) (fuel : nat)
    (end_t data_t_last : Q) (m_data : DataAggregator.t) (samples : nat) :
  main_loop c tm (S fuel) end_t data_t_last m_data samples =
  (s <- get_state ;;
   if _stop s then ret (Some (m_data, samples))
   else
     now <- monotonic c ;;
     if negb (Qltb now end_t) then ret (Some (m_data, samples))
     else
       slept <- (if Qltb 0 data_t_last
                 then wait_interval c tm data_t_last
                 else ret (Some false)) ;;
       match slept with
       | None => ret None
       | Some true => ret (Some (m_data, samples))
       | Some false =>
           taken <- try_stop
                      (r <- take_sample c m_data ;; ret (Some r))
                      (modify (set_stop true) ;;; ret None) ;;
           match taken with
           | None => ret (Some (m_data, samples))
           | Some (data_t_last', m_data') =>
               main_loop c tm fuel end_t data_t_last' m_data' (S samples)
           end
       end).
Proof. reflexivity. Qed.

Arguments sleep_loop : simpl never.

Lemma wait_interval_slices
    (c : ctx) (tm : timing) (data_t_last : Q) (s : state) :
  _stop s = false ->
  (forall k, (awaits s <= k)%nat -> w_key_stop (app_world c) k = false) ->
  wait_interval c tm data_t_last s =
  Return (Some false)
    (set_stop false
       (set_awaits
          (awaits s + Z.to_nat (Qceiling (sleep_budget c tm data_t_last s)))
          (set_next_sample_t
             (Some (w_clock (app_world c) (S (ticks s))
                    + sleep_budget c tm data_t_last s))
             (set_ticks (S (S (ticks s))) s)))).
Proof.
  intros Hstop Hkey.
  unfold wait_interval, monotonic, sleep_budget.
  unfold bind at 1 2 3 4 5 6. cbn.
  set (t := py_max (_int_t tm - (w_clock (app_world c) (ticks s) - data_t_last)) 0).
  unfold bind at 1.
  rewrite sleep_loop_slices.
  - cbn. reflexivity.
  - apply py_max_nonneg.
  - eapply Qle_trans; [apply Qle_ceiling|]. rewrite <- Zle_Qle. lia.
  - exact Hstop.
  - intros k Hk. apply Hkey. exact Hk.
Qed.



End ActiveStateMore.

(** ** The log of a finished session *)

Section SessionLog.
Import App ActiveState.

Arguments settings_header : simpl never.
Arguments LogWriter.log_channel : simpl never.
Arguments fmt_f : simpl never.
Arguments fmt_d : simpl never.

Lemma _get_data_same_sink (c : ctx) :
  triple same_sink (_get_data c) (fun sample => clock_reading c (fst sample)).
Proof.
  apply _get_data_triple; unfold same_sink; cbn; intros; congruence.
Qed.

Lemma wait_interval_same_sink (c : ctx) (tm : timing) (data_t_last : Q) :
  triple same_sink (wait_interval c tm data_t_last) (fun _ => True).
Proof.
  apply wait_interval_triple; unfold same_sink; cbn; intros; congruence.
Qed.

(** A sample that is taken is logged as one timestamped line and added to
    the aggregator. *)
Lemma take_sample_return (c : ctx) (m_data m_data' : DataAggregator.t)
    (t : Q) (s s' : state) :
  take_sample c m_data s = Return (t, m_data') s' ->
  exists line values,
    sink s' = sink s ++ [line] /\ timestamped_line c line /\
    DataAggregator.add m_data values = Ok m_data'.
Proof.
  unfold take_sample. intros H.
  apply bind_return in H. destruct H as (t0 & s1 & H1 & H).
  unfold monotonic, bind, get_state, modify, ret in H1.
  inversion H1; subst; clear H1.
  apply bind_return in H. destruct H as (sample & s2 & H2 & H).
  destruct (triple_return same_sink _ _ _ _ _ (_get_data_same_sink c) H2)
    as [S2 [k Hk]].
  apply bind_return in H. destruct H as (u3 & s3 & H3 & H).
  unfold modify in H3. inversion H3; subst; clear H3.
  apply bind_return in H. destruct H as (u4 & s4 & H4 & H).
  unfold modify in H4. inversion H4; subst; clear H4.
  apply bind_return in H. destruct H as (u5 & s5 & H5 & H).
  unfold modify in H5. inversion H5; subst; clear H5.
  apply bind_return in H. destruct H as (u6 & s6 & H6 & H).
  unfold LogWriter.log_values in H6.
  apply bind_return in H6. destruct H6 as (line & s7 & H7 & H6).
  apply lift_return in H7. destruct H7 as [Hline ->].
  unfold log, modify in H6. inversion H6; subst; clear H6.
  apply bind_return in H. destruct H as (m' & s8 & H8 & H).
  apply lift_return in H8. destruct H8 as [Hadd ->].
  unfold ret in H. inversion H; subst; clear H.
  exists line, (snd sample). split; [|split].
  - cbn. unfold same_sink in S2. cbn in S2. rewrite S2. reflexivity.
  - destruct (sample_line_shape c _ _ _ Hline) as (body & Hb & Hl).
    exists k, (snd sample), body. cbn.
    rewrite <- Hk. split; assumption.
  - exact Hadd.
Qed.

Lemma add_keeps_wf (m m' : DataAggregator.t) (values : list Q) :
  wf m -> DataAggregator.add m values = Ok m' ->
  wf m' /\ DataAggregator._dim m' = DataAggregator._dim m /\
  DataAggregator._n m' = S (DataAggregator._n m).
Proof.
  intros Hwf H.
  destruct (add_spec m values Hwf) as (m2 & E & W & D & N & _).
  rewrite E in H. inversion H; subst. auto.
Qed.

Lemma bind_throw {S A B : Type} (m : M S A) (k : A -> M S B)
    (s s' : S) (e : exn) :
  bind m k s = Throw e s' ->
  m s = Throw e s' \/ exists a s1, m s = Return a s1 /\ k a s1 = Throw e s'.
Proof.
  unfold bind. intros H. destruct (m s) as [a s1 | e1 s1]; [right | left].
  - eauto.
  - inversion H; subst. reflexivity.
Qed.

Lemma format_raises (tpl : template) (args : list Q) (e : exn) :
  format tpl args = Raise e -> e = IndexError.
Proof.
  induction tpl as [|[text | index prec] tpl IH]; simpl; intros H.
  - discriminate H.
  - destruct (format tpl args); [discriminate H|].
    simpl in H. inversion H; subst. apply IH. reflexivity.
  - unfold getitem in H. destruct (args !! index); simpl in H;
      [|congruence].
    destruct (format tpl args); [discriminate H|].
    simpl in H. inversion H; subst. apply IH. reflexivity.
Qed.

Lemma add_loop_raises (dim : nat) (values : list Q) :
  forall index data e,
    DataAggregator.add_loop dim index values data = Raise e -> e = IndexError.
Proof.
  induction values as [|v rest IH]; intros index data e H; simpl in H.
  - discriminate H.
  - destruct (Nat.eqb index dim); [discriminate H|].
    destruct (data !! index); [eapply IH; exact H | congruence].
Qed.

(** When taking a sample ends with the end-of-stream signal, nothing was
    logged for it. *)
Lemma take_sample_stop (c : ctx) (m_data : DataAggregator.t) (s s' : state) :
  take_sample c m_data s = Throw StopIteration s' -> sink s' = sink s.
Proof.
  unfold take_sample. intros H.
  apply bind_throw in H. destruct H as [H | (t0 & s1 & H1 & H)].
  { unfold monotonic, bind, get_state, modify, ret in H. discriminate H. }
  unfold monotonic, bind, get_state, modify, ret in H1.
  inversion H1; subst; clear H1.
  apply bind_throw in H. destruct H as [H | (sample & s2 & H2 & H)].
  { pose proof (_get_data_same_sink c (set_ticks (S (ticks s)) s)) as T.
    rewrite H in T. exact T. }
  apply bind_throw in H. destruct H as [H | (u3 & s3 & H3 & H)];
    [discriminate H|].
  apply bind_throw in H. destruct H as [H | (u4 & s4 & H4 & H)];
    [discriminate H|].
  apply bind_throw in H. destruct H as [H | (u5 & s5 & H5 & H)];
    [discriminate H|].
  apply bind_throw in H. destruct H as [H | (u6 & s6 & H6 & H)].
  { exfalso. unfold LogWriter.log_values in H.
    apply bind_throw in H. destruct H as [H | (line & s7 & H7 & H)];
      [|discriminate H].
    unfold lift in H.
    destruct (LogWriter.sample_line c (fst sample) (snd sample)) as [l|e] eqn:E;
      [discriminate H|].
    unfold throw in H. inversion H; subst.
    unfold LogWriter.sample_line in E. apply format_raises in E.
    discriminate E. }
  exfalso.
  apply bind_throw in H. destruct H as [H | (m' & s8 & H8 & H)];
    [|discriminate H].
  unfold lift in H.
  destruct (DataAggregator.add m_data (snd sample)) as [m1|e] eqn:E;
    [discriminate H|].
  unfold throw in H. inversion H; subst.
  unfold DataAggregator.add in E.
  destruct (DataAggregator.add_loop _ _ _ _) as [d|e] eqn:El; [discriminate E|].
  simpl in E. inversion E; subst.
  apply add_loop_raises in El. discriminate El.
Qed.

(** The sampling loop logs one timestamped line for each sample it counts,
    and the aggregator has counted the same samples. *)
Lemma main_loop_counts (c : ctx) (tm : timing) (fuel : nat) :
  forall (end_t data_t_last : Q) (m_data m_data' : DataAggregator.t)
         (samples samples' : nat) (s s' : state),
    wf m_data ->
    main_loop c tm fuel end_t data_t_last m_data samples s
    = Return (Some (m_data', samples')) s' ->
    exists lines,
      sink s' = sink s ++ lines /\
      Forall (timestamped_line c) lines /\
      (samples' = samples + length lines)%nat /\
      wf m_data' /\
      DataAggregator._dim m_data' = DataAggregator._dim m_data /\
      (DataAggregator._n m_data'
       = DataAggregator._n m_data + length lines)%nat.
Proof.
  induction fuel as [|fuel IH];
    intros end_t data_t_last m_data m_data' samples samples' s s' Hwf H.
  - simpl in H. unfold ret in H. inversion H.
  - simpl in H.
    assert (Hdone : forall st,
               ret (Some (m_data, samples)) st = Return (Some (m_data', samples')) s' ->
               sink st = sink s ->
               exists lines,
                 sink s' = sink s ++ lines /\
                 Forall (timestamped_line c) lines /\
                 (samples' = samples + length lines)%nat /\
                 wf m_data' /\
                 DataAggregator._dim m_data' = DataAggregator._dim m_data /\
                 (DataAggregator._n m_data'
                  = DataAggregator._n m_data + length lines)%nat).
    { intros st E Hs. unfold ret in E. inversion E; subst.
      exists []. rewrite app_nil_r. simpl.
      repeat split; auto; lia. }
    apply bind_return in H. destruct H as (s0 & sa & H0 & H).
    unfold get_state in H0. inversion H0; subst; clear H0.
    destruct (_stop sa); [apply (Hdone sa H); reflexivity|].
    apply bind_return in H. destruct H as (now & sb & Hb & H).
    unfold monotonic, bind, get_state, modify, ret in Hb.
    inversion Hb; subst; clear Hb.
    destruct (negb _); [apply (Hdone _ H); reflexivity|].
    apply bind_return in H. destruct H as (slept & sc & Hc & H).
    assert (Hsc : sink sc = sink sa).
    { destruct (Qltb 0 data_t_last).
      - destruct (triple_return same_sink _ _ _ _ _
                    (wait_interval_same_sink c tm data_t_last) Hc) as [R _].
        exact R.
      - unfold ret in Hc. inversion Hc. reflexivity. }
    destruct slept as [[|]|];
      [apply (Hdone sc H); exact Hsc
      | | unfold ret in H; inversion H].
    apply bind_return in H. destruct H as (taken & sd & Hd & H).
    unfold try_stop in Hd. unfold bind at 1 in Hd.
    destruct (take_sample c m_data sc) as [[t m1] s2 | e s2] eqn:ET.
    + unfold ret in Hd. inversion Hd; subst; clear Hd.
      destruct (take_sample_return c m_data m1 t sc sd ET)
        as (line & values & Hsink & Hline & Hadd).
      destruct (add_keeps_wf m_data m1 values Hwf Hadd) as (W1 & D1 & N1).
      destruct (IH _ _ _ _ _ _ _ _ W1 H)
        as (lines & E & F & Hn & W & D & N).
      exists (line :: lines). split; [|split; [|split; [|split; [|split]]]].
      * rewrite E, Hsink, Hsc, <- app_assoc. reflexivity.
      * constructor; assumption.
      * simpl. lia.
      * exact W.
      * congruence.
      * simpl. lia.
    + destruct e; try discriminate Hd.
      unfold bind, modify, ret in Hd. inversion Hd; subst; clear Hd.
      apply take_sample_stop in ET.
      apply (Hdone _ H). cbn. congruence.
Qed.

Lemma log_settings_return (c : ctx) (s s' : state) :
  LogWriter.log_settings c s = Return tt s' ->
  exists fac next dfac,
    Scales.dur_scale (int_scale (app_settings c)) = Ok next /\
    s' = set_sink (sink s ++ settings_header (app_settings c) next)
                  (set_lw_scales (Some (fac, next, dfac)) s).
Proof.
  unfold LogWriter.log_settings, settings_header. intros H.
  destruct (Scales.int_fac (int_scale (app_settings c))) as [fac|];
    [|discriminate H].
  destruct (Scales.dur_scale (int_scale (app_settings c))) as [next|];
    [|discriminate H].
  destruct (Scales.dur_fac (int_scale (app_settings c))) as [dfac|];
    [|discriminate H].
  exists fac, next, dfac. split; [reflexivity|].
  revert H.
  destruct (0 <? oversample (app_settings c))%Z;
    repeat (progress (unfold bind, lift, ret, modify, log; cbn));
    intros H; inversion H; unfold set_sink, set_lw_scales; cbn;
    rewrite <- !app_assoc; cbn; reflexivity.
Qed.

Lemma log_channels_return (c : ctx) (values : list (Q * Q * Q)) :
  forall (k : nat) (s s' : state),
    for_each (LogWriter.log_channel c) (imap (fun i v => ((k + i)%nat, v)) values) s
    = Return tt s' ->
    exists lines,
      s' = set_sink (sink s ++ lines) s /\ length lines = length values.
Proof.
  induction values as [|triple values IH]; intros k s s' H.
  - simpl in H. unfold ret in H. inversion H; subst.
    exists []. rewrite app_nil_r. destruct s'; split; reflexivity.
  - change (imap (fun i v => ((k + i)%nat, v)) (triple :: values))
      with (((k + 0)%nat, triple)
              :: imap ((fun i v => ((k + i)%nat, v)) ∘ S) values) in H.
    rewrite (imap_ext _ (fun i v => ((S k + i)%nat, v))) in H.
    2:{ intros i v _. simpl. f_equal. lia. }
    change (for_each (LogWriter.log_channel c) (?x :: ?l))
      with (LogWriter.log_channel c x ;;; for_each (LogWriter.log_channel c) l)
      in H.
    apply bind_return in H. destruct H as (u & s1 & H1 & H).
    destruct triple as [[vmin vmean] vmax].
    unfold LogWriter.log_channel in H1.
    apply bind_return in H1. destruct H1 as (unit & s2 & H2 & H1).
    apply lift_return in H2. destruct H2 as [_ ->].
    unfold log, modify in H1. inversion H1; subst; clear H1.
    apply IH in H. destruct H as (lines & -> & L).
    eexists (_ :: lines). split; [|simpl; now rewrite L].
    cbn. rewrite <- app_assoc. reflexivity.
Qed.

Lemma log_summary_return (c : ctx) (samples : nat) (s s' : state) :
  LogWriter.log_summary c samples s = Return tt s' ->
  exists block,
    s' = set_sink (sink s ++ block) s /\
    length block = (4 + length (r_values (results s)))%nat.
Proof.
  unfold LogWriter.log_summary. intros H.
  apply bind_return in H. destruct H as (s0 & sa & H0 & H).
  unfold get_state in H0. inversion H0; subst; clear H0.
  apply bind_return in H. destruct H as ([[ifac dscale] dfac] & sb & Hb & H).
  apply lift_return in Hb. destruct Hb as [_ ->].
  apply bind_return in H. destruct H as (d & s1 & H1 & H).
  apply lift_return in H1. destruct H1 as [_ ->].
  apply bind_return in H. destruct H as (u2 & s2 & H2 & H).
  unfold log, modify in H2. inversion H2; subst; clear H2.
  apply bind_return in H. destruct H as (rate & s3 & H3 & H).
  apply lift_return in H3. destruct H3 as [_ ->].
  apply bind_return in H. destruct H as (u4 & s4 & H4 & H).
  unfold log, modify in H4. inversion H4; subst; clear H4.
  apply bind_return in H. destruct H as (per_unit & s5 & H5 & H).
  apply lift_return in H5. destruct H5 as [_ ->].
  apply bind_return in H. destruct H as (mean & s6 & H6 & H).
  apply lift_return in H6. destruct H6 as [_ ->].
  apply bind_return in H. destruct H as (u7 & s7 & H7 & H).
  unfold log, modify in H7. inversion H7; subst; clear H7.
  apply bind_return in H. destruct H as (u8 & s8 & H8 & H).
  unfold log, modify in H8. inversion H8; subst; clear H8.
  rewrite (imap_ext pair (fun i v => ((0 + i)%nat, v))) in H
    by reflexivity.
  apply log_channels_return in H. destruct H as (lines & -> & L).
  eexists. split.
  - cbn. rewrite <- !app_assoc. cbn. reflexivity.
  - simpl. rewrite L. reflexivity.
Qed.

Lemma comprehension_length {A B : Type} (f : A -> result B) (l : list A) :
  forall l', comprehension f l = Ok l' -> length l' = length l.
Proof.
  induction l as [|x l IH]; intros l' H; simpl in H.
  - inversion H. reflexivity.
  - destruct (f x); [|discriminate H]. simpl in H.
    destruct (comprehension f l) as [ys|]; [|discriminate H].
    simpl in H. inversion H. simpl. f_equal. apply IH. reflexivity.
Qed.

Lemma publish_return_state (m_data : DataAggregator.t) (samples : nat)
    (s s' : state) :
  publish m_data samples s = Return tt s' ->
  sink s' = sink s /\ r_samples (results s') = samples /\
  DataAggregator.get m_data = Ok (r_values (results s')).
Proof.
  unfold publish, bind, get_state, lift, modify, emit.
  destruct (data_t s); cbn; [|discriminate].
  destruct (_start_t s); cbn; [|discriminate].
  destruct (DataAggregator.get m_data); cbn; [|discriminate].
  intros H. inversion H. cbn. auto.
Qed.

(** The log of a session that runs to its end: the settings header, then
    one timestamped line for each sample that is counted in
    [app.results.samples], then the summary block of four lines and one line
    per channel. With at least one channel such a session has counted at
    least one sample. *)
Theorem finished_session_log (c : ctx) (fuel : nat) (s s' : state) :
  run c fuel s = Return (Some Finished) s' ->
  exists next lines block,
    Scales.dur_scale (int_scale (app_settings c)) = Ok next /\
    sink s' = sink s ++ settings_header (app_settings c) next ++ lines ++ block /\
    Forall (timestamped_line c) lines /\
    length lines = r_samples (results s') /\
    length block = (4 + _dim c)%nat /\
    length (r_values (results s')) = _dim c /\
    ((1 <= _dim c)%nat -> (1 <= r_samples (results s'))%nat).
Proof.
  unfold run. intros H.
  apply bind_return in H. destruct H as (u0 & s0 & H0 & H).
  unfold modify in H0. inversion H0; subst; clear H0.
  apply bind_return in H. destruct H as (int_fac & s1 & H1 & H).
  apply lift_return in H1. destruct H1 as [_ ->].
  apply bind_return in H. destruct H as (dur_fac & s2 & H2 & H).
  apply lift_return in H2. destruct H2 as [_ ->].
  unfold _run in H.
  apply bind_return in H. destruct H as (u3 & s3 & H3 & H).
  unfold emit, modify in H3. inversion H3; subst; clear H3.
  apply bind_return in H. destruct H as (u4 & s4 & H4 & H).
  unfold emit, modify in H4. inversion H4; subst; clear H4.
  apply bind_return in H. destruct H as (u5 & s5 & H5 & H).
  destruct u5. apply log_settings_return in H5.
  destruct H5 as (fac & next & dfac & Enext & ->).
  apply bind_return in H. destruct H as (probe & s6 & H6 & H).
  destruct probe; cbn in H; [|discriminate H].
  assert (S6 : sink s6 = sink s ++ settings_header (app_settings c) next).
  { revert H6. unfold try_any, bind, get_data, get_state, modify, emit, ret, throw.
    cbn. destruct (w_read (app_world c) (reads s)); cbn; intros H6;
      inversion H6; reflexivity. }
  apply bind_return in H. destruct H as (end_t & s7 & H7 & H).
  assert (S7 : sink s7 = sink s6).
  { revert H7. destruct (duration (app_settings c) =? 0)%Z; cbn;
      intros H7; inversion H7; reflexivity. }
  apply bind_return in H. destruct H as (start & s8 & H8 & H).
  unfold monotonic, bind, get_state, modify, ret in H8. inversion H8; subst.
  clear H8.
  apply bind_return in H. destruct H as (u9 & s9 & H9 & H).
  unfold modify in H9. inversion H9; subst; clear H9.
  apply bind_return in H. destruct H as (r & s10 & H10 & H).
  destruct r as [[m_data samples]|]; [|discriminate H].
  apply main_loop_counts in H10; [|apply init_wf].
  destruct H10 as (lines & S10 & F & Hn & W & D & N).
  apply bind_return in H. destruct H as (u11 & s11 & H11 & H).
  unfold ret in H. inversion H; subst; clear H.
  unfold finish in H11.
  apply bind_return in H11. destruct H11 as (u12 & s12 & H12 & H11).
  destruct u12. apply publish_return_state in H12.
  destruct H12 as (S12 & R12 & G12).
  apply bind_return in H11. destruct H11 as (u13 & s13 & H13 & H11).
  destruct u13. apply log_summary_return in H13.
  destruct H13 as (block & -> & Lb).
  unfold bind, modify, emit in H11. cbn in H11. inversion H11; subst; clear H11.
  cbn.
  assert (Lv : length (r_values (results s12)) = _dim c).
  { unfold DataAggregator.get in G12.
    apply comprehension_length in G12. rewrite G12.
    unfold wf in W. rewrite W, D. reflexivity. }
  exists next, lines, block.
  split; [exact Enext|]. split.
  { rewrite S12, S10. cbn. rewrite S7, S6, <- !app_assoc. reflexivity. }
  split; [exact F|]. split; [rewrite R12; reflexivity|].
  split; [rewrite Lb, Lv; reflexivity|]. split; [exact Lv|].
  intros Hdim. rewrite R12. simpl.
  destruct lines as [|line lines]; [|simpl; lia].
  exfalso. simpl in N.
  rewrite get_empty_raises in G12; [discriminate G12 | |].
  - rewrite N. reflexivity.
  - unfold wf in W. intros E. rewrite E, D in W.
    unfold _dim in *. cbn in W, Hdim. lia.
Qed.

Lemma finished_session_log_witness :
  exists s' next lines block,
    run (Ctx settings_1s ina260 world_two_samples) 10 new_state
    = Return (Some Finished) s' /\
    Scales.dur_scale "s" = Ok next /\
    sink s' = sink new_state ++ settings_header settings_1s next ++ lines ++ block /\
    Forall (timestamped_line (Ctx settings_1s ina260 world_two_samples)) lines /\
    length lines = r_samples (results s') /\
    length block = (4 + 2)%nat /\
    length (r_values (results s')) = 2%nat /\
    ((1 <= 2)%nat -> (1 <= r_samples (results s'))%nat).
Proof.
  eexists.
  assert (E : run (Ctx settings_1s ina260 world_two_samples) 10 new_state
              = Return (Some Finished)
                  (final_state (run (Ctx settings_1s ina260 world_two_samples)
                                    10 new_state))).
  { vm_compute. reflexivity. }
  destruct (finished_session_log _ _ _ _ E) as (next & lines & block & P).
  exists next, lines, block. split; [exact E | exact P].
Defined.

End SessionLog.

(** ** A session that the provider ends *)

Section SessionRuns.
Import App ActiveState.

Arguments LogWriter.log_settings : simpl never.
Arguments LogWriter.log_summary : simpl never.
Arguments DataAggregator.add : simpl never.
Arguments DataAggregator.get : simpl never.
Arguments wait_interval : simpl never.
Arguments sleep_loop : simpl never.
Arguments main_loop : simpl never.
Arguments take_sample : simpl never.
Arguments format : simpl never.
Arguments settings_header : simpl never.

Ltac step :=
  repeat (progress (unfold bind, lift, ret, throw, modify, get_state, log,
                      emit, try_any, try_stop; cbn)).

Lemma bind_run {S A B : Type} (m : M S A) (k : A -> M S B)
    (s s1 : S) (a : A) :
  m s = Return a s1 -> bind m k s = k a s1.
Proof. intros H. unfold bind. rewrite H. reflexivity. Qed.

Lemma bind_raise {S A B : Type} (m : M S A) (k : A -> M S B)
    (s s1 : S) (e : exn) :
  m s = Throw e s1 -> bind m k s = Throw e s1.
Proof. intros H. unfold bind. rewrite H. reflexivity. Qed.

Lemma try_stop_return {S A : Type} (body handler : M S A) (s s1 : S) (a : A) :
  body s = Return a s1 -> try_stop body handler s = Return a s1.
Proof. intros H. unfold try_stop. rewrite H. reflexivity. Qed.

Lemma try_stop_stopped {S A : Type} (body handler : M S A) (s s1 : S) :
  body s = Throw StopIteration s1 -> try_stop body handler s = handler s1.
Proof. intros H. unfold try_stop. rewrite H. reflexivity. Qed.

(** One round of the body of the loop, without oversampling, when the
    provider has a sample. *)
Lemma take_sample_ok (c : ctx) (m_data : DataAggregator.t) (v : list Q)
    (s : state) :
  (oversample (app_settings c) < 2)%Z ->
  w_read (app_world c) (reads s) = Sample v ->
  fields_within (S (length v)) (LogWriter._fmt c) ->
  wf m_data ->
  exists m' s',
    take_sample c m_data s
    = Return (w_clock (app_world c) (ticks s), m') s' /\
    DataAggregator.add m_data v = Ok m' /\
    reads s' = S (reads s) /\ ticks s' = S (S (ticks s)) /\
    data_t s' = Some (w_clock (app_world c) (S (ticks s))) /\
    _stop s' = _stop s /\ lw_scales s' = lw_scales s /\
    _start_t s' = _start_t s.
Proof.
  intros HK Hread Hfmt Hwf.
  destruct (add_spec m_data v Hwf) as (m' & Eadd & _).
  destruct (format_within (LogWriter._fmt c)
              (1000 * w_clock (app_world c) (S (ticks s)) :: v) Hfmt)
    as [line Eline].
  exists m'. eexists. split; [|split; [exact Eadd|]].
  - unfold take_sample, _get_data. apply Z.ltb_lt in HK. rewrite HK.
    unfold monotonic, get_data. step. rewrite Hread. step.
    unfold LogWriter.log_values, LogWriter.sample_line. step.
    unfold LogWriter._fmt in Eline. cbn in Eline.
    rewrite Eline. step. rewrite Eadd. step. reflexivity.
  - cbn. auto 10.
Qed.

(** The round in which the provider signals the end of the stream. *)
Lemma take_sample_end_of_stream (c : ctx) (m_data : DataAggregator.t)
    (s : state) :
  (oversample (app_settings c) < 2)%Z ->
  w_read (app_world c) (reads s) = EndOfStream ->
  exists s',
    take_sample c m_data s = Throw StopIteration s' /\
    data_t s' = data_t s /\ lw_scales s' = lw_scales s /\
    _start_t s' = _start_t s.
Proof.
  intros HK Hread. eexists. split.
  - unfold take_sample, _get_data. apply Z.ltb_lt in HK. rewrite HK.
    unfold monotonic, get_data. step. rewrite Hread. step. reflexivity.
  - cbn. auto 10.
Qed.

(** The pause before a round when no key is pressed. *)
Lemma pause_quiet (c : ctx) (tm : timing) (data_t_last : Q) (s : state) :
  _stop s = false ->
  (forall k, w_key_stop (app_world c) k = false) ->
  exists s',
    (if Qltb 0 data_t_last
     then wait_interval c tm data_t_last
     else ret (Some false)) s = Return (Some false) s' /\
    reads s' = reads s /\ (ticks s <= ticks s')%nat /\ _stop s' = false /\
    data_t s' = data_t s /\ lw_scales s' = lw_scales s /\
    _start_t s' = _start_t s.
Proof.
  intros Hstop Hkey. destruct (Qltb 0 data_t_last).
  - eexists. split.
    + apply wait_interval_slices; [exact Hstop|]. intros k _. apply Hkey.
    + cbn. split; [reflexivity|]. split; [lia|]. auto 10.
  - exists s. split; [reflexivity|]. split; [reflexivity|].
    split; [lia|]. auto 10.
Qed.

(** The head of a round of the loop when it goes on: the stop flag and the
    end time are tested, and the pause is taken. *)
Lemma main_loop_round (c : ctx) (tm : timing) (fuel : nat)
    (end_t data_t_last : Q) (m_data : DataAggregator.t) (n : nat) (s : state) :
  _stop s = false ->
  w_clock (app_world c) (ticks s) < end_t ->
  (forall k, w_key_stop (app_world c) k = false) ->
  exists s1,
    main_loop c tm (S fuel) end_t data_t_last m_data n s =
    (taken <- try_stop
                (r <- take_sample c m_data ;; ret (Some r))
                (modify (set_stop true) ;;; ret None) ;;
     match taken with
     | None => ret (Some (m_data, n))
     | Some (data_t_last', m_data') =>
         main_loop c tm fuel end_t data_t_last' m_data' (S n)
     end) s1 /\
    reads s1 = reads s /\ (ticks s < ticks s1)%nat /\ _stop s1 = false /\
    data_t s1 = data_t s /\ lw_scales s1 = lw_scales s /\
    _start_t s1 = _start_t s.
Proof.
  intros Hstop Hnow Hkey.
  destruct (pause_quiet c tm data_t_last (set_ticks (S (ticks s)) s)
              Hstop Hkey) as (s1 & E1 & R1 & T1 & S1 & D1 & L1 & A1).
  exists s1. split.
  - rewrite main_loop_step.
    rewrite (bind_run get_state _ s s s eq_refl). cbv beta. rewrite Hstop.
    rewrite (bind_run (monotonic c) _ s (set_ticks (S (ticks s)) s)
               (w_clock (app_world c) (ticks s)) eq_refl).
    cbv beta. apply Qltb_lt in Hnow. rewrite Hnow. cbn [negb].
    rewrite (bind_run _ _ _ _ _ E1). reflexivity.
  - cbn in T1. repeat (split; [assumption || lia|]). assumption.
Qed.

(** The loop takes every sample that the provider has, in order, and ends
    at the end-of-stream signal. *)
Lemma main_loop_consumes (c : ctx) (tm : timing) (end_t : Q) :
  (oversample (app_settings c) < 2)%Z ->
  (forall k, w_key_stop (app_world c) k = false) ->
  (forall i, w_clock (app_world c) i < end_t) ->
  forall (samples : list (list Q)) (fuel : nat) (data_t_last : Q)
         (m_data : DataAggregator.t) (n : nat) (s : state),
    (length samples < fuel)%nat ->
    _stop s = false ->
    wf m_data ->
    Forall (fun v => fields_within (S (length v)) (LogWriter._fmt c)) samples ->
    (forall j v, samples !! j = Some v ->
                 w_read (app_world c) (reads s + j) = Sample v) ->
    w_read (app_world c) (reads s + length samples) = EndOfStream ->
    exists m' s',
      main_loop c tm fuel end_t data_t_last m_data n s
      = Return (Some (m', (n + length samples)%nat)) s' /\
      DataAggregator.add_all m_data samples = Ok m' /\
      lw_scales s' = lw_scales s /\ _start_t s' = _start_t s /\
      (samples = [] -> data_t s' = data_t s) /\
      (samples <> [] ->
       exists k, (ticks s < k)%nat /\
                 data_t s' = Some (w_clock (app_world c) k)).
Proof.
  intros HK Hkey Hclock.
  induction samples as [|v rest IH];
    intros fuel data_t_last m_data n s Hfuel Hstop Hwf Hfmt Hreads Hend.
  - destruct fuel as [|fuel]; [simpl in Hfuel; lia|].
    destruct (main_loop_round c tm fuel end_t data_t_last m_data n s
                Hstop (Hclock (ticks s)) Hkey)
      as (s1 & E1 & R1 & T1 & S1 & D1 & L1 & A1).
    rewrite E1. clear E1.
    simpl in Hend. rewrite Nat.add_0_r in Hend.
    destruct (take_sample_end_of_stream c m_data s1 HK) as (s2 & E2 & D2 & L2 & A2).
    { rewrite R1. exact Hend. }
    assert (Et : try_stop (r <- take_sample c m_data ;; ret (Some r))
                          (modify (set_stop true) ;;; ret None) s1
                 = Return None (set_stop true s2)).
    { rewrite (try_stop_stopped _ _ _ _ (bind_raise _ _ _ _ _ E2)).
      reflexivity. }
    rewrite (bind_run _ _ _ _ _ Et).
    exists m_data. eexists. split; [rewrite Nat.add_0_r; reflexivity|].
    cbn. split; [reflexivity|].
    split; [rewrite L2, L1; reflexivity|].
    split; [rewrite A2, A1; reflexivity|].
    split; [intros _; rewrite D2, D1; reflexivity|].
    intros H. congruence.
  - destruct fuel as [|fuel]; [simpl in Hfuel; lia|].
    destruct (main_loop_round c tm fuel end_t data_t_last m_data n s
                Hstop (Hclock (ticks s)) Hkey)
      as (s1 & E1 & R1 & T1 & S1 & D1 & L1 & A1).
    rewrite E1. clear E1.
    apply Forall_cons in Hfmt. destruct Hfmt as [Hv Hrest].
    destruct (take_sample_ok c m_data v s1 HK) as
      (m1 & s2 & E2 & Eadd & R2 & T2 & D2 & S2 & L2 & A2);
      [ rewrite R1; cbn; rewrite <- (Nat.add_0_r (reads s));
        apply Hreads; reflexivity
      | exact Hv | exact Hwf | ].
    assert (Et : try_stop (r <- take_sample c m_data ;; ret (Some r))
                          (modify (set_stop true) ;;; ret None) s1
                 = Return (Some (w_clock (app_world c) (ticks s1), m1)) s2).
    { apply try_stop_return. rewrite (bind_run _ _ _ _ _ E2). reflexivity. }
    rewrite (bind_run _ _ _ _ _ Et). cbv beta iota.
    destruct (add_keeps_wf _ _ _ Hwf Eadd) as (Hwf1 & _).
    destruct (IH fuel (w_clock (app_world c) (ticks s1)) m1 (S n) s2)
      as (m' & s' & E & Eall & L & A & Dnil & Dcons).
    + simpl in Hfuel. lia.
    + rewrite S2. exact S1.
    + exact Hwf1.
    + exact Hrest.
    + intros j w Hj. rewrite R2, R1.
      replace (S (reads s) + j)%nat with (reads s + S j)%nat by lia.
      apply Hreads. exact Hj.
    + rewrite R2, R1.
      replace (S (reads s) + length rest)%nat
        with (reads s + length (v :: rest))%nat by (simpl; lia).
      exact Hend.
    + rewrite E. exists m', s'. split.
      { replace (n + length (v :: rest))%nat
          with (S n + length rest)%nat by (simpl; lia). reflexivity. }
      split; [simpl; rewrite Eadd; exact Eall|].
      split; [rewrite L, L2, L1; reflexivity|].
      split; [rewrite A, A2, A1; reflexivity|].
      split; [intros H; discriminate H|].
      intros _. cbn in T1. destruct rest as [|w rest'].
      * exists (S (ticks s1)). split; [lia|].
        rewrite (Dnil eq_refl). exact D2.
      * destruct Dcons as (k & Hk & Dk); [discriminate|].
        exists k. split; [lia | exact Dk].
Qed.

Lemma try_any_return {S A : Type} (body handler : M S A) (s s1 : S) (a : A) :
  body s = Return a s1 -> try_any body handler s = Return a s1.
Proof. intros H. unfold try_any. rewrite H. reflexivity. Qed.

(** The three assignments to [app.results]. *)
Lemma publish_ok (m_data : DataAggregator.t) (n : nat) (s : state)
    (t start : Q) (values : list (Q * Q * Q)) :
  data_t s = Some t ->
  _start_t s = Some start ->
  DataAggregator.get m_data = Ok values ->
  exists s',
    publish m_data n s = Return tt s' /\
    results s' = {| r_time := t - start; r_samples := n; r_values := values |} /\
    lw_scales s' = lw_scales s /\ sink s' = sink s.
Proof.
  intros Ht Hstart Hget. eexists. split.
  - unfold publish. rewrite (bind_run get_state _ s s s eq_refl). cbv beta.
    rewrite Ht, Hstart, Hget. step. reflexivity.
  - cbn. auto.
Qed.

(** A session on a provider that delivers the probe and then a non-empty
    list of samples before it signals the end of the stream, with no
    oversampling, no time limit, no key pressed and a clock that advances:
    [run] returns normally, every sample is counted, the published
    statistics are those of the aggregator fed with exactly these samples in
    order (the probe is not among them), and the published time is
    positive. *)
Theorem session_runs_to_end_of_stream
    (c : ctx) (fuel : nat) (s : state) (probe : list Q)
    (samples : list (list Q)) :
  Scales.is_unit (int_scale (app_settings c)) ->
  (oversample (app_settings c) < 2)%Z ->
  duration (app_settings c) = 0%Z ->
  (forall k, w_key_stop (app_world c) k = false) ->
  (forall i j, (i < j)%nat ->
               w_clock (app_world c) i < w_clock (app_world c) j) ->
  (forall i, w_clock (app_world c) i < sys_maxsize (app_world c)) ->
  w_read (app_world c) (reads s) = Sample probe ->
  (forall j v, samples !! j = Some v ->
               w_read (app_world c) (S (reads s) + j) = Sample v) ->
  w_read (app_world c) (S (reads s) + length samples) = EndOfStream ->
  Forall (fun v => fields_within (S (length v)) (LogWriter._fmt c)) samples ->
  (_dim c <= length (get_units (data_provider c)))%nat ->
  samples <> [] ->
  (length samples < fuel)%nat ->
  exists s' m_data,
    run c fuel s = Return (Some Finished) s' /\
    DataAggregator.add_all (DataAggregator.init (_dim c)) samples = Ok m_data /\
    DataAggregator.get m_data = Ok (r_values (results s')) /\
    r_samples (results s') = length samples /\
    0 < r_time (results s') /\
    _stop s' = true.
Proof.
  intros Hu HK Hdur Hkey Hmono Hmax Hprobe Hreads Hend Hfmt Hunits Hne Hfuel.
  destruct (scales_defined _ Hu)
    as (fac & next & dfac & E1 & E2 & E3 & Hfac & Hdfac).
  destruct (add_all_spec samples (DataAggregator.init (_dim c))
              (init_wf (_dim c))) as (m & Eall & Wm & Dm & Nm & _).
  assert (Hn : DataAggregator._n m <> O).
  { rewrite Nm. cbn. destruct samples; [congruence | simpl; lia]. }
  pose proof (get_ok m Hn) as Hget.
  unfold run. rewrite E1, E3.
  rewrite (bind_run (modify (set_stop false)) _ s _ tt eq_refl). cbv beta.
  rewrite (bind_run (lift (Ok fac)) _ _ _ fac eq_refl). cbv beta.
  rewrite (bind_run (lift (Ok dfac)) _ _ _ dfac eq_refl). cbv beta.
  unfold _run.
  rewrite (bind_run (emit _) _ _ _ tt eq_refl). cbv beta.
  rewrite (bind_run (emit _) _ _ _ tt eq_refl). cbv beta.
  rewrite (bind_run _ _ _ _ _ (log_settings_ok c _ fac dfac next E1 E2 E3)).
  cbv beta.
  match goal with
  | |- context [bind (try_any ?b ?h) ?k ?st] =>
      rewrite (bind_run (try_any b h) k st (set_reads (S (reads st)) st) true)
  end.
  2:{ apply try_any_return.
      match goal with
      | |- bind _ _ ?st = _ =>
          rewrite (bind_run _ _ _ _ _ (get_data_sample c st probe Hprobe))
      end.
      reflexivity. }
  cbn [negb]. apply Z.eqb_eq in Hdur. rewrite Hdur.
  rewrite (bind_run (ret _) _ _ _ _ eq_refl). cbv beta.
  rewrite (bind_run (monotonic c) _ _ _ _ eq_refl). cbv beta.
  rewrite (bind_run (modify _) _ _ _ tt eq_refl). cbv beta.
  match goal with
  | |- context [bind (main_loop c ?tm fuel ?e _ ?m0 _) _ ?st] =>
      destruct (main_loop_consumes c tm e HK Hkey Hmax samples fuel 0 m0 O st)
        as (m' & s1 & Eloop & Eall' & L1 & A1 & _ & D1);
        [exact Hfuel | reflexivity | apply init_wf | exact Hfmt
        | exact Hreads | exact Hend |]
  end.
  rewrite (bind_run _ _ _ _ _ Eloop). cbv beta iota.
  rewrite Eall in Eall'. inversion Eall'; subst m'. clear Eall'.
  destruct (D1 Hne) as (k & Hk & Dk). cbn in Hk, L1, A1.
  destruct (publish_ok m (0 + length samples) s1 _ _ _ Dk A1 Hget)
    as (s2 & Epub & R2 & L2 & _).
  destruct (log_summary_ok c (0 + length samples) s2 fac dfac next)
    as (lines & Esum & _).
  { rewrite L2, L1. reflexivity. }
  { exact Hfac. }
  { exact Hdfac. }
  { rewrite R2. cbn. intros H0.
    pose proof (Hmono (ticks s) k ltac:(lia)) as Hlt. lra. }
  { cbn. destruct samples; [congruence | simpl; lia]. }
  { rewrite R2. cbn. rewrite length_map. unfold wf in Wm. rewrite Wm, Dm.
    exact Hunits. }
  assert (Efin : finish c m (0 + length samples) s1
                 = Return tt
                     (set_trace (trace s2 ++ [Joined KeyPolling ViewRefresh])
                        (set_stop true (set_sink (sink s2 ++ lines) s2)))).
  { unfold finish.
    rewrite (bind_run _ _ _ _ _ Epub). cbv beta.
    rewrite (bind_run _ _ _ _ _ Esum). cbv beta.
    reflexivity. }
  rewrite (bind_run _ _ _ _ _ Efin). cbv beta.
  eexists. exists m. split; [reflexivity|].
  split; [exact Eall|]. cbn. rewrite R2. cbn.
  split; [exact Hget|]. split; [reflexivity|]. split; [|reflexivity].
  pose proof (Hmono (ticks s) k ltac:(lia)) as Hlt. lra.
Qed.

Lemma clock_below_100_advances (i j : nat) :
  (i < j)%nat -> clock_below_100 i < clock_below_100 j.
Proof.
  intros H. unfold clock_below_100.
  assert (1 # Pos.of_succ_nat j < 1 # Pos.of_succ_nat i).
  { unfold Qlt. cbn [Qnum Qden]. rewrite !Z.mul_1_l, !Zpos_P_of_succ_nat. lia. }
  lra.
Qed.

Lemma clock_below_100_bounded (i : nat) :
  clock_below_100 i < 4611686018427387903.
Proof.
  unfold clock_below_100.
  assert (0 < 1 # Pos.of_succ_nat i) by reflexivity.
  lra.
Qed.

Lemma session_runs_to_end_of_stream_witness :
  exists s' m_data,
    run (Ctx settings_1s ina260 world_bounded_clock) 5 new_state
    = Return (Some Finished) s' /\
    DataAggregator.add_all (DataAggregator.init 2) two_readings = Ok m_data /\
    DataAggregator.get m_data = Ok (r_values (results s')) /\
    r_samples (results s') = 2%nat /\
    0 < r_time (results s') /\
    _stop s' = true.
Proof.
  apply (session_runs_to_end_of_stream
           (Ctx settings_1s ina260 world_bounded_clock) 5 new_state
           reading_5_25 two_readings).
  - right. left. reflexivity.
  - reflexivity.
  - reflexivity.
  - intros k. reflexivity.
  - exact clock_below_100_advances.
  - exact clock_below_100_bounded.
  - reflexivity.
  - intros [|[|j]] v H; simpl in H; inversion H; reflexivity.
  - reflexivity.
  - repeat constructor.
  - cbn. lia.
  - discriminate.
  - cbn. lia.
Defined.

End SessionRuns.

(** ** INA260DataProvider: reading a sample *)

Section INA260Facts.
Import INA260DataProvider.

Lemma poll_step (wp : bool) (e : env) (fuel : nat) (t_start : Q) (s : pstate) :
  poll wp e (S fuel) t_start s =
  let r := sensor e (polls s) in
  if above_thresholds e r then
    Return (Some (sample wp r)) (PState (S (polls s)) (ticks s) true)
  else if _start s then
    Throw StopIteration (PState (S (polls s)) (ticks s) (_start s))
  else if Qltb NO_LOAD_TIMEOUT (clock e (ticks s) - t_start) then
    Throw StopIteration (PState (S (polls s)) (S (ticks s)) (_start s))
  else poll wp e fuel t_start (PState (S (polls s)) (S (ticks s)) (_start s)).
Proof.
  cbn. unfold bind, read_sensor, time_monotonic, get_state, modify, ret, throw.
  cbn. destruct (above_thresholds e (sensor e (polls s))); [reflexivity|].
  cbn. destruct (_start s); [reflexivity|].
  cbn. destruct (Qltb NO_LOAD_TIMEOUT (clock e (ticks s) - t_start)); reflexivity.
Qed.

Arguments poll : simpl never.

Lemma amperes_nonneg (r : registers) : 0 <= amperes r.
Proof.
  unfold amperes, py_max. destruct (Qltb 0 (current r)) eqn:E.
  - apply Qltb_lt in E. lra.
  - lra.
Qed.

Lemma poll_returns (wp : bool) (e : env) (fuel : nat) :
  forall (t_start : Q) (s s' : pstate) (values : list Q),
    poll wp e fuel t_start s = Return (Some values) s' ->
    (polls s < polls s')%nat /\
    above_thresholds e (sensor e (pred (polls s'))) = true /\
    values = sample wp (sensor e (pred (polls s'))) /\
    _start s' = true /\
    forall k, (polls s <= k < pred (polls s'))%nat -> no_load e k.
Proof.
  induction fuel as [|fuel IH]; intros t_start s s' values H.
  - discriminate H.
  - rewrite poll_step in H. cbv zeta in H.
    destruct (above_thresholds e (sensor e (polls s))) eqn:Ea.
    + inversion H; subst. cbn. repeat split; try assumption; try lia.
    + destruct (_start s); [discriminate H|].
      destruct (Qltb NO_LOAD_TIMEOUT (clock e (ticks s) - t_start));
        [discriminate H|].
      apply IH in H. cbn in H. destruct H as (Hp & Hab & Hv & Hs & Hno).
      repeat split; try assumption; try lia.
      intros k Hk. destruct (decide (k = polls s)) as [-> | Hne].
      * exact Ea.
      * apply Hno. lia.
Qed.

(** A sample that [get_data] returns comes from the first poll at which the
    voltage and the current reach their thresholds: it has [_dim] values,
    the voltage and the current (cut off at zero) of that poll, both at or
    above the thresholds, and the provider is marked as started. *)
Theorem get_data_meets_thresholds (wp : bool) (e : env) (fuel : nat)
    (s s' : pstate) (values : list Q) :
  get_data wp e fuel s = Return (Some values) s' ->
  exists r,
    r = sensor e (pred (polls s')) /\
    (polls s < polls s')%nat /\
    (forall k, (polls s <= k < pred (polls s'))%nat -> no_load e k) /\
    length values = _dim wp /\
    values !! 0%nat = Some (voltage r) /\
    values !! 1%nat = Some (amperes r) /\
    v_min e <= voltage r /\ a_min e <= amperes r /\ 0 <= amperes r /\
    _start s' = true.
Proof.
  unfold get_data, time_monotonic. unfold bind at 1 2 3. cbn. intros H.
  apply poll_returns in H. cbn in H. destruct H as (Hp & Hab & Hv & Hs & Hno).
  exists (sensor e (pred (polls s'))). split; [reflexivity|].
  unfold above_thresholds in Hab. apply andb_true_iff in Hab.
  destruct Hab as [Hv1 Ha1]. apply Qle_bool_iff in Hv1, Ha1.
  subst values.
  split; [exact Hp|]. split; [exact Hno|].
  split; [destruct wp; reflexivity|].
  split; [destruct wp; reflexivity|].
  split; [destruct wp; reflexivity|].
  split; [exact Hv1|]. split; [exact Ha1|].
  split; [apply amperes_nonneg | exact Hs].
Qed.

Lemma get_data_meets_thresholds_witness :
  exists s',
    get_data false env_load_at_third_poll 5 (PState 0 0 false)
    = Return (Some reading_5_25) s' /\
    exists r,
      r = sensor env_load_at_third_poll (pred (polls s')) /\
      (0 < polls s')%nat /\
      (forall k, (0 <= k < pred (polls s'))%nat ->
                 no_load env_load_at_third_poll k) /\
      length reading_5_25 = 2%nat /\
      reading_5_25 !! 0%nat = Some (voltage r) /\
      reading_5_25 !! 1%nat = Some (amperes r) /\
      v_min env_load_at_third_poll <= voltage r /\
      a_min env_load_at_third_poll <= amperes r /\
      0 <= amperes r /\
      _start s' = true.
Proof.
  eexists. split; [vm_compute; reflexivity|].
  apply (get_data_meets_thresholds false env_load_at_third_poll 5
           (PState 0 0 false)).
  vm_compute. reflexivity.
Defined.

(** Once a sample was returned, the first poll without load ends the
    stream: [get_data] raises [StopIteration] after this single poll and
    does not wait for the load to come back; with load it returns the sample
    of this poll. *)
Theorem started_provider_polls_once (wp : bool) (e : env) (fuel : nat)
    (s : pstate) :
  _start s = true ->
  get_data wp e (S fuel) s =
  if above_thresholds e (sensor e (polls s))
  then Return (Some (sample wp (sensor e (polls s))))
              (PState (S (polls s)) (S (ticks s)) true)
  else Throw StopIteration (PState (S (polls s)) (S (ticks s)) true).
Proof.
  intros Hs. unfold get_data, time_monotonic. unfold bind at 1 2 3. cbn.
  rewrite poll_step. cbn. rewrite Hs.
  destruct (above_thresholds e (sensor e (polls s))); reflexivity.
Qed.

Lemma started_provider_polls_once_witness :
  get_data false env_no_load 1 (PState 4 7 true)
  = Throw StopIteration (PState 5 8 true).
Proof.
  apply (started_provider_polls_once false env_no_load 0 (PState 4 7 true)).
  reflexivity.
Defined.

(** [n] polls without load, each within the timeout, before the provider
    has started: the loop goes on. *)
Lemma poll_idle (wp : bool) (e : env) (t_start : Q) (n : nat) :
  forall (fuel : nat) (s : pstate),
    _start s = false ->
    (forall i, (i < n)%nat -> no_load e (polls s + i)) ->
    (forall i, (i < n)%nat ->
               clock e (ticks s + i) - t_start <= NO_LOAD_TIMEOUT) ->
    poll wp e (n + fuel) t_start s =
    poll wp e fuel t_start (PState (polls s + n) (ticks s + n) false).
Proof.
  induction n as [|n IH]; intros fuel s Hs Hno Hclk.
  - simpl. rewrite !Nat.add_0_r. destruct s. simpl in Hs. subst. reflexivity.
  - change (S n + fuel)%nat with (S (n + fuel)). rewrite poll_step. cbv zeta.
    pose proof (Hno O ltac:(lia)) as H0. unfold no_load in H0.
    rewrite Nat.add_0_r in H0. rewrite H0, Hs.
    pose proof (Hclk O ltac:(lia)) as C0. rewrite Nat.add_0_r in C0.
    apply Qltb_ge in C0. rewrite C0.
    rewrite IH; cbn.
    + replace (S (polls s + n))%nat with (polls s + S n)%nat by lia.
      replace (S (ticks s + n))%nat with (ticks s + S n)%nat by lia.
      reflexivity.
    + reflexivity.
    + intros i Hi. replace (S (polls s + i))%nat with (polls s + S i)%nat by lia.
      apply Hno. lia.
    + intros i Hi. replace (S (ticks s + i))%nat with (ticks s + S i)%nat by lia.
      apply Hclk. lia.
Qed.

(** Before the first sample the provider waits for the load: while the
    polls show no load, it polls again until a clock reading taken after a
    poll is more than [NO_LOAD_TIMEOUT] seconds after the call, and then
    raises [StopIteration] with [_start] still unset. The clock is read once
    at the call and once after every poll. *)
Theorem get_data_gives_up_after_timeout (wp : bool) (e : env) (fuel n : nat)
    (s : pstate) :
  _start s = false ->
  (n < fuel)%nat ->
  (forall i, (i <= n)%nat -> no_load e (polls s + i)) ->
  (forall i, (i < n)%nat ->
     clock e (S (ticks s) + i) - clock e (ticks s) <= NO_LOAD_TIMEOUT) ->
  NO_LOAD_TIMEOUT < clock e (S (ticks s) + n) - clock e (ticks s) ->
  get_data wp e fuel s =
  Throw StopIteration (PState (polls s + S n) (ticks s + S (S n)) false).
Proof.
  intros Hs Hfuel Hno Hclk Hout.
  unfold get_data, time_monotonic. unfold bind at 1 2 3. cbn.
  replace fuel with (n + S (fuel - S n))%nat by lia.
  rewrite poll_idle; cbn.
  - rewrite poll_step. cbn.
    pose proof (Hno n ltac:(lia)) as Hn. unfold no_load in Hn. rewrite Hn.
    apply Qltb_lt in Hout. cbn in Hout. rewrite Hout.
    replace (S (polls s + n)) with (polls s + S n)%nat by lia.
    replace (S (S (ticks s + n))) with (ticks s + S (S n))%nat by lia.
    reflexivity.
  - exact Hs.
  - intros i Hi. apply Hno. lia.
  - exact Hclk.
Qed.

Lemma get_data_gives_up_after_timeout_witness :
  get_data false env_no_load 10 (PState 0 0 false)
  = Throw StopIteration (PState 3 4 false).
Proof.
  apply (get_data_gives_up_after_timeout false env_no_load 10 2
           (PState 0 0 false)).
  - reflexivity.
  - lia.
  - intros i _. reflexivity.
  - intros [|[|i]] Hi; [vm_compute; discriminate | vm_compute; discriminate | lia].
  - vm_compute. reflexivity.
Defined.

End INA260Facts.

(** ** Touchpad: debounce and keymaps *)

Section TouchpadFacts.
Import Touchpad.

(** What one call of [_get_key] does. *)
Lemma _get_key_cases (e : env) (s : tstate) :
  (exists s', _get_key e s = Return None s' /\ _last_key s' = _last_key s) \/
  (exists index s',
      _get_key e s = Return (Some index) s' /\
      index_true (touched_pins e (scans s)) = Some index /\
      fst (_last_key s') = Z.of_nat index /\
      debounced (_last_key s) (_last_key s')).
Proof.
  unfold _get_key, read_pins, time_monotonic.
  unfold bind, get_state, modify, ret. cbn.
  destruct (index_true (touched_pins e (scans s))) as [index|].
  - cbn.
    destruct (Z.of_nat index =? fst (_last_key s))%Z eqn:Ei; cbn.
    + destruct (Qltb (clock e (ticks s)) (snd (_last_key s) + DEBOUNCE_TIME))
        eqn:Et; cbn.
      * left. eexists. split; reflexivity.
      * right. exists index. eexists. split; [reflexivity|]. cbn.
        split; [reflexivity|]. split; [reflexivity|].
        right. cbn. apply Qltb_ge in Et. exact Et.
    + right. exists index. eexists. split; [reflexivity|]. cbn.
      split; [reflexivity|]. split; [reflexivity|].
      left. cbn. apply Z.eqb_neq in Ei. congruence.
  - left. eexists. split; reflexivity.
Qed.

(** Debounce. In any run of calls of [_get_key], two keys reported one after
    the other (the first may be the key recorded before the run) are of
    different pads or at least [DEBOUNCE_TIME] apart. And nothing else is
    held back: the lowest touched pad is reported at once when it is not the
    pad reported last, whatever the time, so that alternating between two
    pads is not slowed down, and also when it is the pad reported last and
    [DEBOUNCE_TIME] has passed; it is held back when it is the pad reported
    last and less time has passed. *)
Theorem reports_are_debounced (e : env) (n : nat) (s : tstate) :
  neighbours debounced (_last_key s :: reported_keys e n s) /\
  (forall index,
      index_true (touched_pins e (scans s)) = Some index ->
      Z.of_nat index <> fst (_last_key s) \/
      snd (_last_key s) + DEBOUNCE_TIME <= clock e (ticks s) ->
      _get_key e s =
      Return (Some index)
             (TState (S (scans s)) (S (ticks s))
                     (Z.of_nat index, clock e (ticks s)))) /\
  (forall index,
      index_true (touched_pins e (scans s)) = Some index ->
      Z.of_nat index = fst (_last_key s) ->
      clock e (ticks s) < snd (_last_key s) + DEBOUNCE_TIME ->
      _get_key e s =
      Return None (TState (S (scans s)) (S (ticks s)) (_last_key s))).
Proof.
  split; [|split].
  - revert s. induction n as [|n IH]; intros s; [exact I|].
    simpl reported_keys.
    destruct (_get_key_cases e s)
      as [(s' & E & L) | (index & s' & E & _ & _ & D)];
      rewrite E.
    + rewrite <- L. apply IH.
    + split; [exact D | apply IH].
  - intros index Hi Hd.
    unfold _get_key, read_pins, time_monotonic.
    unfold bind, get_state, modify, ret. cbn. rewrite Hi. cbn.
    destruct Hd as [Hne | Hlate].
    + apply Z.eqb_neq in Hne. rewrite Hne. reflexivity.
    + apply Qltb_ge in Hlate. rewrite Hlate, andb_false_r. reflexivity.
  - intros index Hi He Hearly.
    unfold _get_key, read_pins, time_monotonic.
    unfold bind, get_state, modify, ret. cbn. rewrite Hi. cbn.
    apply Z.eqb_eq in He. apply Qltb_lt in Hearly. rewrite He, Hearly.
    reflexivity.
Qed.

Lemma reports_are_debounced_witness :
  _get_key pad_0_touched no_key_yet =
  Return (Some O)
         (TState 1 1 (Z.of_nat 0, clock pad_0_touched (ticks no_key_yet))).
Proof.
  apply (proj1 (proj2 (reports_are_debounced pad_0_touched 0 no_key_yet))).
  - reflexivity.
  - left. discriminate.
Defined.

Lemma keymap_get_label (km : keymap) (index : nat) (label : string) :
  keymap_get km index = Some label -> In label (labels km).
Proof.
  induction km as [|[k l] km IH]; simpl; [discriminate|].
  destruct (Nat.eqb k index).
  - intros H. inversion H. left. reflexivity.
  - intros H. right. apply IH. exact H.
Qed.

Lemma wait_loop_label (e : env) (normal : keymap) (fuel : nat) :
  forall (km : keymap) (shift : bool) (s s' : tstate) (label : string),
    km = normal \/ km = KEYMAP_SHIFT e ->
    (~ In "SHIFT"%string (labels normal) -> km = normal) ->
    wait_loop e fuel normal km shift s = Return (Some label) s' ->
    label <> "SHIFT"%string /\
    (In label (labels normal) \/ In label (labels (KEYMAP_SHIFT e))) /\
    (~ In "SHIFT"%string (labels normal) -> In label (labels normal)).
Proof.
  induction fuel as [|fuel IH]; intros km shift s s' label Hkm Hno H.
  - discriminate H.
  - simpl in H. unfold bind at 1 in H.
    destruct (_get_key e s) as [index s1 | ex s1]; [|discriminate H].
    destruct (key_of km index) as [l|] eqn:Ek.
    + destruct (String.eqb l "SHIFT") eqn:El; cbn in H.
      * apply String.eqb_eq in El. subst l.
        assert (Hin : In "SHIFT"%string (labels km)).
        { destruct index as [i|]; [|discriminate Ek].
          apply (keymap_get_label km i). exact Ek. }
        apply IH in H; [exact H | |].
        -- destruct (negb shift); auto.
        -- intros Hn. exfalso. apply Hn. rewrite <- (Hno Hn). exact Hin.
      * inversion H; subst. apply String.eqb_neq in El.
        assert (Hin : In label (labels km)).
        { destruct index as [i|]; [|discriminate Ek].
          apply (keymap_get_label km i). exact Ek. }
        split; [exact El|]. split.
        -- destruct Hkm as [-> | ->]; auto.
        -- intros Hn. rewrite <- (Hno Hn). exact Hin.
    + apply IH in H; assumption.
Qed.

(** The key that [wait_for_key] returns is never [SHIFT]: it is a label of
    the keymap that was passed or of the shift layout, and a label of the
    keymap that was passed when this has no [SHIFT] key, as the keymaps of
    the ready, active and config states. *)
Theorem wait_for_key_returns_label (e : env) (fuel : nat) (km : keymap)
    (s s' : tstate) (label : string) :
  wait_for_key e fuel km s = Return (Some label) s' ->
  label <> "SHIFT"%string /\
  (In label (labels km) \/ In label (labels (KEYMAP_SHIFT e))) /\
  (~ In "SHIFT"%string (labels km) -> In label (labels km)).
Proof.
  unfold wait_for_key. apply wait_loop_label; auto.
Qed.

Lemma wait_for_key_returns_label_witness :
  exists s',
    wait_for_key pad_0_touched 3 (KEYMAP_CONFIG pad_0_touched) no_key_yet
    = Return (Some "NEXT"%string) s' /\
    "NEXT"%string <> "SHIFT"%string /\
    (In "NEXT"%string (labels (KEYMAP_CONFIG pad_0_touched)) \/
     In "NEXT"%string (labels (KEYMAP_SHIFT pad_0_touched))) /\
    (~ In "SHIFT"%string (labels (KEYMAP_CONFIG pad_0_touched)) ->
     In "NEXT"%string (labels (KEYMAP_CONFIG pad_0_touched))).
Proof.
  eexists.
  assert (E : wait_for_key pad_0_touched 3 (KEYMAP_CONFIG pad_0_touched)
                no_key_yet
              = Return (Some "NEXT"%string) _)
    by (vm_compute; reflexivity).
  split; [exact E|].
  exact (wait_for_key_returns_label _ _ _ _ _ _ E).
Defined.

Lemma index_true_first (touched : list bool) (j : nat) :
  touched !! j = Some true ->
  exists i, index_true touched = Some i /\ (i <= j)%nat.
Proof.
  revert j. induction touched as [|b touched IH]; intros j H.
  - discriminate H.
  - destruct b; simpl.
    + exists O. split; [reflexivity | lia].
    + destruct j as [|j]; [discriminate H|]. simpl in H.
      destruct (IH j H) as (i & -> & Hi). exists (S i).
      split; [reflexivity | lia].
Qed.

Lemma _get_key_index (e : env) (s s' : tstate) (index : nat) :
  _get_key e s = Return (Some index) s' ->
  index_true (touched_pins e (scans s)) = Some index.
Proof.
  intros H.
  destruct (_get_key_cases e s) as [(s1 & E & _) | (i & s1 & E & Hi & _)];
    rewrite E in H; inversion H; subst.
  exact Hi.
Qed.

(** In the portrait layout the STOP key is pad 8 and the pads are scanned
    from pad 0 up: while any pad below it is touched, also one without a key
    in the active state, a touch of STOP is not seen by [is_key_pressed]. *)
Theorem stop_is_masked_by_lower_pads (e : env) (s : tstate) (j : nat) :
  (j < 8)%nat ->
  touched_pins e (scans s) !! j = Some true ->
  exists key s',
    is_key_pressed e KEYMAP_ACTIVE_P s = Return key s' /\
    key <> Some "STOP"%string.
Proof.
  intros Hj Ht. unfold is_key_pressed. unfold bind at 1.
  destruct (_get_key e s) as [index s1 | ex s1] eqn:E.
  - do 2 eexists. split; [reflexivity|].
    destruct index as [i|]; [|discriminate].
    apply _get_key_index in E.
    destruct (index_true_first _ _ Ht) as (i' & Ei & Hi).
    rewrite Ei in E. inversion E; subst i'.
    do 8 (destruct i as [|i]; [cbn; discriminate|]). lia.
  - exfalso.
    destruct (_get_key_cases e s) as [(s2 & E2 & _) | (i & s2 & E2 & _)];
      rewrite E2 in E; discriminate E.
Qed.

Lemma stop_is_masked_by_lower_pads_witness :
  exists key s',
    is_key_pressed pads_6_and_8_touched KEYMAP_ACTIVE_P no_key_yet
    = Return key s' /\
    key <> Some "STOP"%string.
Proof.
  apply (stop_is_masked_by_lower_pads pads_6_and_8_touched no_key_yet 6).
  - lia.
  - reflexivity.
Defined.

End TouchpadFacts.

(** ** ConfigState: the editor of a setting *)

Section ConfigFacts.
Import ConfigState.
Local Open Scope Z_scope.

Lemma string_of_revapp (l acc : Decimal.uint) :
  NilEmpty.string_of_uint (Decimal.revapp l acc) =
  NilEmpty.string_of_uint (Decimal.revapp l Decimal.Nil)
  +:+ NilEmpty.string_of_uint acc.
Proof.
  revert acc. induction l as [|l IH|l IH|l IH|l IH|l IH|l IH|l IH|l IH|l IH|l IH];
    intros acc; simpl;
    [reflexivity
    | rewrite IH, (IH (_ Decimal.Nil)), append_assoc; reflexivity ..].
Qed.

(** The decimal digits of [10 * p + k], least significant first. *)
Lemma to_little_uint_digit (p : positive) (k : N) (l : Decimal.uint) :
  (k <= 9)%N ->
  l = Pos.to_little_uint p ->
  exists digit : Decimal.uint -> Decimal.uint,
    DecimalPos.Unsigned.to_lu (10 * N.pos p + k) = digit l /\
    (forall acc, NilEmpty.string_of_uint (digit acc) =
                 NilEmpty.string_of_uint (N.to_uint k)
                 +:+ NilEmpty.string_of_uint acc) /\
    (forall l' acc, Decimal.revapp (digit l') acc
                    = Decimal.revapp l' (digit acc)).
Proof.
  intros Hk ->.
  pose proof (DecimalPos.Unsigned.to_ldec_tenfold p) as H0.
  assert (Hs : forall n, DecimalPos.Unsigned.to_lu (N.succ n)
                         = Decimal.Little.succ (DecimalPos.Unsigned.to_lu n))
    by apply DecimalPos.Unsigned.to_lu_succ.
  assert (Hcases : (k = 0 \/ k = 1 \/ k = 2 \/ k = 3 \/ k = 4 \/ k = 5 \/
                    k = 6 \/ k = 7 \/ k = 8 \/ k = 9)%N) by lia.
  destruct Hcases as [-> | [-> | [-> | [-> | [-> | [-> | [-> | [-> | [-> | ->]]]]]]]]].
  - exists Decimal.D0. rewrite N.add_0_r, H0. repeat split.
  - exists Decimal.D1.
    replace (10 * N.pos p + 1)%N with (N.succ (10 * N.pos p)) by lia.
    rewrite Hs, H0. repeat split.
  - exists Decimal.D2.
    replace (10 * N.pos p + 2)%N
      with (N.succ (N.succ (10 * N.pos p))) by lia.
    rewrite !Hs, H0. repeat split.
  - exists Decimal.D3.
    replace (10 * N.pos p + 3)%N
      with (N.succ (N.succ (N.succ (10 * N.pos p)))) by lia.
    rewrite !Hs, H0. repeat split.
  - exists Decimal.D4.
    replace (10 * N.pos p + 4)%N
      with (N.succ (N.succ (N.succ (N.succ (10 * N.pos p))))) by lia.
    rewrite !Hs, H0. repeat split.
  - exists Decimal.D5.
    replace (10 * N.pos p + 5)%N
      with (N.succ (N.succ (N.succ (N.succ (N.succ (10 * N.pos p)))))) by lia.
    rewrite !Hs, H0. repeat split.
  - exists Decimal.D6.
    replace (10 * N.pos p + 6)%N
      with (N.succ (N.succ (N.succ (N.succ (N.succ (N.succ (10 * N.pos p)))))))
      by lia.
    rewrite !Hs, H0. repeat split.
  - exists Decimal.D7.
    replace (10 * N.pos p + 7)%N
      with (N.succ (N.succ (N.succ (N.succ (N.succ (N.succ
              (N.succ (10 * N.pos p)))))))) by lia.
    rewrite !Hs, H0. repeat split.
  - exists Decimal.D8.
    replace (10 * N.pos p + 8)%N
      with (N.succ (N.succ (N.succ (N.succ (N.succ (N.succ
              (N.succ (N.succ (10 * N.pos p))))))))) by lia.
    rewrite !Hs, H0. repeat split.
  - exists Decimal.D9.
    replace (10 * N.pos p + 9)%N
      with (N.succ (N.succ (N.succ (N.succ (N.succ (N.succ
              (N.succ (N.succ (N.succ (10 * N.pos p)))))))))) by lia.
    rewrite !Hs, H0. repeat split.
Qed.

Lemma string_of_to_uint (p : positive) :
  NilZero.string_of_uint (Pos.to_uint p)
  = NilEmpty.string_of_uint (Pos.to_uint p).
Proof.
  pose proof (DecimalPos.Unsigned.to_uint_nonnil p) as H.
  destruct (Pos.to_uint p); [congruence | reflexivity ..].
Qed.

(** Appending a digit to the decimal notation of a positive number. *)
Lemma fmt_d_snoc (p : positive) (d : Z) :
  0 <= d <= 9 ->
  fmt_d (10 * Z.pos p + d) = fmt_d (Z.pos p) +:+ fmt_d d.
Proof.
  intros Hd.
  destruct (to_little_uint_digit p (Z.to_N d) _ ltac:(lia) eq_refl)
    as (digit & E & Hstr & Hrev).
  destruct (10 * N.pos p + Z.to_N d)%N as [|q] eqn:En; [lia|].
  assert (Eq : 10 * Z.pos p + d = Z.pos q) by lia.
  rewrite Eq. unfold fmt_d at 1 2. cbn [Z.to_int NilZero.string_of_int].
  rewrite !string_of_to_uint.
  cbn [DecimalPos.Unsigned.to_lu] in E.
  unfold Pos.to_uint at 1. rewrite E. unfold Decimal.rev.
  rewrite Hrev, string_of_revapp, Hstr.
  change (Decimal.revapp (Pos.to_little_uint p) Decimal.Nil)
    with (Pos.to_uint p).
  f_equal. cbn. rewrite append_empty_r.
  assert (Hc : d = 0 \/ d = 1 \/ d = 2 \/ d = 3 \/ d = 4 \/ d = 5 \/
               d = 6 \/ d = 7 \/ d = 8 \/ d = 9) by lia.
  destruct Hc as [-> | [-> | [-> | [-> | [-> | [-> | [-> | [-> | [-> | ->]]]]]]]]];
    reflexivity.
Qed.

Lemma fmt_d_digit (d : Z) :
  0 <= d <= 9 -> exists a, fmt_d d = String a EmptyString.
Proof.
  intros Hd.
  assert (Hc : d = 0 \/ d = 1 \/ d = 2 \/ d = 3 \/ d = 4 \/ d = 5 \/
               d = 6 \/ d = 7 \/ d = 8 \/ d = 9) by lia.
  destruct Hc as [-> | [-> | [-> | [-> | [-> | [-> | [-> | [-> | [-> | ->]]]]]]]]];
    eexists; reflexivity.
Qed.

Lemma py_int_fmt_d (z : Z) : py_int (fmt_d z) = inr z.
Proof.
  unfold py_int, fmt_d. rewrite NilZero.isi.
  - rewrite DecimalZ.of_to. reflexivity.
  - destruct z as [|p|p]; simpl; try discriminate.
    intros H. inversion H as [H1].
    exact (DecimalPos.Unsigned.to_uint_nonnil p H1).
  - destruct z as [|p|p]; simpl; try discriminate.
    intros H. inversion H as [H1].
    exact (DecimalPos.Unsigned.to_uint_nonnil p H1).
Qed.

Lemma fmt_d_inj (a b : Z) : fmt_d a = fmt_d b -> a = b.
Proof.
  intros H. pose proof (py_int_fmt_d a) as Ha. rewrite H, py_int_fmt_d in Ha.
  congruence.
Qed.

Lemma drop_last_snoc (s : string) (a : Ascii.ascii) :
  drop_last (s +:+ String a EmptyString) = s.
Proof.
  unfold drop_last.
  induction s as [|b s IH]; [reflexivity|].
  simpl. rewrite Nat.sub_0_r.
  destruct (String.length (s +:+ String a EmptyString)) as [|n] eqn:E.
  - destruct s; discriminate E.
  - simpl in IH. rewrite Nat.sub_0_r in IH. f_equal. exact IH.
Qed.

Lemma length_snoc (s : string) (a : Ascii.ascii) :
  String.length (s +:+ String a EmptyString) = S (String.length s).
Proof. induction s as [|b s IH]; simpl; congruence. Qed.

(** The decimal notation of a number without its last digit. *)
Lemma fmt_d_split (n : Z) :
  10 <= n ->
  exists a, fmt_d n = fmt_d (n / 10) +:+ String a EmptyString.
Proof.
  intros Hn.
  destruct (n / 10) as [|p|p] eqn:Eq;
    [ pose proof (Z.div_le_lower_bound n 10 1 ltac:(lia) ltac:(lia)); lia
    | | pose proof (Z.div_pos n 10 ltac:(lia) ltac:(lia)); lia ].
  destruct (fmt_d_digit (n mod 10)) as [a Ea];
    [pose proof (Z.mod_pos_bound n 10 ltac:(lia)); lia|].
  exists a. rewrite <- Ea, <- fmt_d_snoc
    by (pose proof (Z.mod_pos_bound n 10 ltac:(lia)); lia).
  f_equal. rewrite <- Eq. apply Z.div_mod. lia.
Qed.

Lemma fmt_d_length (n : Z) : 0 <= n -> (1 <= String.length (fmt_d n))%nat.
Proof.
  intros Hn. destruct (Z.lt_ge_cases n 10) as [Hlt | Hge].
  - destruct (fmt_d_digit n ltac:(lia)) as [a ->]. simpl. lia.
  - destruct (fmt_d_split n Hge) as [a ->]. rewrite length_snoc. lia.
Qed.

Lemma config_key_cases (key : string) :
  config_key key ->
  key = "CLR"%string \/
  exists d, 0 <= d <= 9 /\ key = fmt_d d /\ py_int key = inr d /\
            String.eqb key "CLR" = false /\ String.eqb key "NEXT" = false.
Proof.
  unfold config_key. simpl.
  intros [<- | [<- | [<- | [<- | [<- | [<- | [<- | [<- | [<- | [<- | [<- | []]]]]]]]]]]];
    [ right; exists 0 | right; exists 1 | right; exists 2 | right; exists 3
    | right; exists 4 | right; exists 5 | right; exists 6 | right; exists 7
    | right; exists 8 | right; exists 9 | left; reflexivity ];
    (split; [lia|]); repeat split; reflexivity.
Qed.

(** One key in the editor of a numeric setting. *)
Lemma press_numeric (nr : nat) (n : Z) (key : string) :
  nr <> 0%nat -> 0 <= n -> config_key key ->
  press nr (fmt_d n) key = inr (fmt_d (typed n key)) /\ 0 <= typed n key.
Proof.
  intros Hnr Hn Hkey. apply Nat.eqb_neq in Hnr.
  destruct (config_key_cases key Hkey) as [-> | (d & Hd & -> & Hint & Hclr & _)].
  - unfold press, typed. cbn [String.eqb Ascii.eqb Bool.eqb]. rewrite Hnr.
    split; [|apply Z.div_pos; lia].
    destruct (Z.lt_ge_cases n 10) as [Hlt | Hge].
    + destruct (fmt_d_digit n ltac:(lia)) as [a ->]. simpl.
      rewrite Z.div_small by lia. reflexivity.
    + destruct (fmt_d_split n Hge) as [a E]. rewrite E, length_snoc.
      pose proof (fmt_d_length (n / 10) ltac:(apply Z.div_pos; lia)) as Hl.
      destruct (Nat.ltb_spec 1 (S (String.length (fmt_d (n / 10)))));
        [|lia].
      rewrite drop_last_snoc. reflexivity.
  - unfold press, typed. rewrite Hclr, Hint. split; [|lia].
    destruct (String.eqb_spec (fmt_d n) "0") as [E0 | E0].
    + change "0"%string with (fmt_d 0) in E0. apply fmt_d_inj in E0. subst n.
      reflexivity.
    + rewrite Hnr. destruct n as [|p|p]; [exfalso; apply E0; reflexivity | | lia].
      rewrite fmt_d_snoc by lia. reflexivity.
Qed.

(** The editor of a numeric setting (interval, duration, update,
    oversampling and the settings of the provider) is decimal arithmetic on
    the number it started from: a digit key appends a digit, [CLR] divides
    by ten, whatever keys of the config keymap are pressed nothing is
    raised, and [NEXT] stores the number typed, which is not negative. *)
Theorem numeric_editor_stores_typed_number
    (nr : nat) (n : Z) (keys rest : list string) :
  nr <> 0%nat ->
  0 <= n ->
  Forall config_key keys ->
  _upd_value nr (PInt n) (keys ++ "NEXT"%string :: rest)
  = Some (Stored (PInt (fold_left typed keys n))) /\
  0 <= fold_left typed keys n.
Proof.
  intros Hnr Hn Hkeys. unfold _upd_value. cbn [str].
  revert n Hn. induction Hkeys as [|key keys Hkey _ IH]; intros n Hn.
  - simpl. split; [|exact Hn]. unfold save.
    apply Nat.eqb_neq in Hnr. rewrite Hnr, py_int_fmt_d. reflexivity.
  - destruct (press_numeric nr n key Hnr Hn Hkey) as [E Hpos].
    assert (Hnext : String.eqb key "NEXT" = false).
    { destruct (config_key_cases key Hkey) as [-> | (d & _ & _ & _ & _ & H)];
        [reflexivity | exact H]. }
    cbn [app edit_loop fold_left]. rewrite Hnext, E. apply IH. exact Hpos.
Qed.

Lemma numeric_editor_stores_typed_number_witness :
  _upd_value 2 (PInt 0) (keys_1_5_0_clr_7 ++ "NEXT"%string :: [])
  = Some (Stored (PInt 157)) /\
  0 <= 157.
Proof.
  apply (numeric_editor_stores_typed_number 2 0 keys_1_5_0_clr_7 []).
  - discriminate.
  - lia.
  - unfold keys_1_5_0_clr_7, config_key.
    repeat (apply Forall_cons; split;
            [simpl; repeat first [left; reflexivity | right]|]).
    constructor.
Defined.

(** One key in the editor of the interval unit. *)
Lemma press_unit (value key : string) :
  Scales.is_unit value -> config_key key ->
  press 0 value key = inr (chosen_unit key) /\
  Scales.is_unit (chosen_unit key) /\ String.eqb key "NEXT" = false.
Proof.
  unfold Scales.is_unit, config_key. simpl.
  intros [-> | [-> | [-> | [-> | ->]]]]
         [<- | [<- | [<- | [<- | [<- | [<- | [<- | [<- | [<- | [<- | [<- | []]]]]]]]]]]];
    (split; [vm_compute; reflexivity|]); (split; [|reflexivity]);
    vm_compute; tauto.
Qed.

(** The editor of the interval unit keeps the unit in the closed set: from
    a unit of the set, whatever keys of the config keymap are pressed,
    [NEXT] stores a unit of the set and nothing is raised. The unit stored
    is the one chosen by the last key: [1] to [4] choose ms, s, m, h; [5] to
    [9] choose d; [0] chooses d as well, through the index -1; [CLR] chooses
    ms. *)
Theorem unit_editor_stores_unit (value : string) (keys rest : list string) :
  Scales.is_unit value ->
  Forall config_key keys ->
  exists u,
    _upd_value 0 (PStr value) (keys ++ "NEXT"%string :: rest)
    = Some (Stored (PStr u)) /\
    Scales.is_unit u /\
    u = match last keys with
        | Some key => chosen_unit key
        | None => value
        end.
Proof.
  intros Hu Hkeys. unfold _upd_value. cbn [str].
  revert value Hu. induction Hkeys as [|key keys Hkey _ IH]; intros value Hu.
  - exists value. split; [|split; [exact Hu | reflexivity]].
    simpl. unfold save. cbn [Nat.eqb].
    destruct Hu as [-> | [-> | [-> | [-> | ->]]]]; reflexivity.
  - destruct (press_unit value key Hu Hkey) as (E & Hu' & Hnext).
    destruct (IH (chosen_unit key) Hu') as (u & Eu & Hunit & Hlast).
    exists u. split; [|split; [exact Hunit|]].
    + cbn [app edit_loop]. rewrite Hnext, E. exact Eu.
    + rewrite last_cons. destruct (last keys); exact Hlast.
Qed.

Lemma unit_editor_stores_unit_witness :
  exists u,
    _upd_value 0 (PStr "s") (keys_3_9_clr ++ "NEXT"%string :: [])
    = Some (Stored (PStr u)) /\
    Scales.is_unit u /\
    u = match last keys_3_9_clr with
        | Some key => chosen_unit key
        | None => "s"%string
        end.
Proof.
  apply (unit_editor_stores_unit "s" keys_3_9_clr []).
  - right. left. reflexivity.
  - unfold keys_3_9_clr, config_key.
    repeat (apply Forall_cons; split;
            [simpl; repeat first [left; reflexivity | right]|]).
    constructor.
Defined.

End ConfigFacts.

(** ** The keys that reach the editor *)

Section KeymapFacts.
Import Touchpad.

Lemma config_keymap_labels (e : env) (label : string) :
  In label (labels (KEYMAP_CONFIG e)) ->
  label = "NEXT"%string \/ config_key label.
Proof.
  unfold KEYMAP_CONFIG, config_key.
  destruct (String.eqb (tp_orient e) "L"); simpl;
    intros H;
    repeat (destruct H as [<- | H];
            [first [left; reflexivity
                   | right; repeat first [left; reflexivity | right]]|]);
    destruct H.
Qed.

Lemma config_keymap_no_shift (e : env) :
  ~ In "SHIFT"%string (labels (KEYMAP_CONFIG e)).
Proof.
  intros H. apply config_keymap_labels in H.
  destruct H as [H | H]; [discriminate H|].
  unfold config_key in H. simpl in H.
  repeat (destruct H as [H | H]; [discriminate H|]). destruct H.
Qed.

(** The keys that [_upd_value] gets from [wait_for_key] with the config
    keymap, in either orientation of the touchpad, are [NEXT], [CLR] and the
    ten digits: the shift layout with its dot is never reached, because the
    config keymap has no [SHIFT] key. *)
Theorem config_keys_are_digits_clr_next (e : env) (fuel : nat)
    (s s' : tstate) (label : string) :
  wait_for_key e fuel (KEYMAP_CONFIG e) s = Return (Some label) s' ->
  label = "NEXT"%string \/ config_key label.
Proof.
  intros H. unfold wait_for_key in H.
  apply wait_loop_label in H; auto.
  destruct H as (_ & _ & Hin).
  apply (config_keymap_labels e). apply Hin. apply config_keymap_no_shift.
Qed.

Lemma config_keys_are_digits_clr_next_witness :
  exists s' label,
    wait_for_key pads_6_and_8_touched 3 (KEYMAP_CONFIG pads_6_and_8_touched)
                 no_key_yet
    = Return (Some label) s' /\
    (label = "NEXT"%string \/ config_key label).
Proof.
  do 2 eexists.
  assert (E : wait_for_key pads_6_and_8_touched 3
                (KEYMAP_CONFIG pads_6_and_8_touched) no_key_yet
              = Return (Some _) _)
    by (vm_compute; reflexivity).
  split; [exact E|].
  exact (config_keys_are_digits_clr_next _ _ _ _ _ E).
Defined.

End KeymapFacts.

(** ** A provider that fails during the session *)

Section ProviderFailure.
Import App ActiveState.

Arguments LogWriter.log_settings : simpl never.
Arguments DataAggregator.add : simpl never.
Arguments wait_interval : simpl never.
Arguments main_loop : simpl never.
Arguments take_sample : simpl never.
Arguments format : simpl never.
Arguments settings_header : simpl never.

Ltac step :=
  repeat (progress (unfold bind, lift, ret, throw, modify, get_state, log,
                      emit, try_any, try_stop; cbn)).

Lemma main_loop_same_results (c : ctx) (tm : timing) (fuel : nat)
    (end_t data_t_last : Q) (m_data : DataAggregator.t) (samples : nat) :
  triple same_results (main_loop c tm fuel end_t data_t_last m_data samples)
         (fun _ => True).
Proof.
  apply main_loop_triple; try (intros; reflexivity).
  - intros s1 s2 s3 H1 H2. unfold same_results in *. congruence.
  - intros t values _ s. unfold LogWriter.log_values, bind, lift, same_results.
    destruct (LogWriter.sample_line c t values); cbn; auto.
Qed.

(** The round in which the provider fails hard: the exception is not the
    one the loop handles. *)
Lemma take_sample_hard_failure (c : ctx) (m_data : DataAggregator.t)
    (s : state) :
  (oversample (app_settings c) < 2)%Z ->
  w_read (app_world c) (reads s) = HardFailure ->
  exists s',
    take_sample c m_data s = Throw ProviderError s' /\ _stop s' = _stop s.
Proof.
  intros HK Hread. eexists. split.
  - unfold take_sample, _get_data. apply Z.ltb_lt in HK. rewrite HK.
    unfold monotonic, get_data. step. rewrite Hread. step. reflexivity.
  - reflexivity.
Qed.

Lemma try_stop_other {S A : Type} (body handler : M S A) (s s1 : S) (e : exn) :
  body s = Throw e s1 -> e <> StopIteration ->
  try_stop body handler s = Throw e s1.
Proof.
  intros H He. unfold try_stop. rewrite H. destruct e; congruence.
Qed.

(** The loop takes the samples that the provider has. *)
Lemma main_loop_takes (c : ctx) (tm : timing) (end_t : Q) :
  (oversample (app_settings c) < 2)%Z ->
  (forall k, w_key_stop (app_world c) k = false) ->
  (forall i, w_clock (app_world c) i < end_t) ->
  forall (samples : list (list Q)) (fuel : nat) (data_t_last : Q)
         (m_data : DataAggregator.t) (n : nat) (s : state),
    _stop s = false ->
    wf m_data ->
    Forall (fun v => fields_within (S (length v)) (LogWriter._fmt c)) samples ->
    (forall j v, samples !! j = Some v ->
                 w_read (app_world c) (reads s + j) = Sample v) ->
    exists data_t_last' m' s',
      main_loop c tm (length samples + fuel) end_t data_t_last m_data n s
      = main_loop c tm fuel end_t data_t_last' m' (n + length samples)%nat s' /\
      DataAggregator.add_all m_data samples = Ok m' /\
      reads s' = (reads s + length samples)%nat /\ _stop s' = false.
Proof.
  intros HK Hkey Hclock.
  induction samples as [|v rest IH];
    intros fuel data_t_last m_data n s Hstop Hwf Hfmt Hreads.
  - exists data_t_last, m_data, s. cbn [length Nat.add].
    rewrite !Nat.add_0_r. auto.
  - destruct (main_loop_round c tm (length rest + fuel) end_t data_t_last
                m_data n s Hstop (Hclock (ticks s)) Hkey)
      as (s1 & E1 & R1 & T1 & S1 & D1 & L1 & A1).
    cbn [length Nat.add]. rewrite E1. clear E1.
    apply Forall_cons in Hfmt. destruct Hfmt as [Hv Hrest].
    destruct (take_sample_ok c m_data v s1 HK) as
      (m1 & s2 & E2 & Eadd & R2 & T2 & D2 & S2 & L2 & A2);
      [ rewrite R1; rewrite <- (Nat.add_0_r (reads s));
        apply Hreads; reflexivity
      | exact Hv | exact Hwf | ].
    assert (Et : try_stop (r <- take_sample c m_data ;; ret (Some r))
                          (modify (set_stop true) ;;; ret None) s1
                 = Return (Some (w_clock (app_world c) (ticks s1), m1)) s2).
    { apply try_stop_return. rewrite (bind_run _ _ _ _ _ E2). reflexivity. }
    rewrite (bind_run _ _ _ _ _ Et). cbv beta iota.
    destruct (add_keeps_wf _ _ _ Hwf Eadd) as (Hwf1 & _).
    destruct (IH fuel (w_clock (app_world c) (ticks s1)) m1 (S n) s2)
      as (d' & m' & s' & E & Eall & R & St).
    + rewrite S2. exact S1.
    + exact Hwf1.
    + exact Hrest.
    + intros j w Hj. rewrite R2, R1.
      replace (S (reads s) + j)%nat with (reads s + S j)%nat by lia.
      apply Hreads. exact Hj.
    + exists d', m', s'. rewrite E. split.
      { replace (n + S (length rest))%nat
          with (S n + length rest)%nat by lia. reflexivity. }
      split; [simpl; rewrite Eadd; exact Eall|].
      split; [rewrite R, R2, R1; lia | exact St].
Qed.

(** If the provider fails hard on a read after the probe (an exception
    other than [StopIteration]; the I2C bus, say), the exception leaves the
    loop, [_run] and [run]: the [time], [samples] and [values] of
    [app.results] stay as they were, nothing is published, the stop flag is
    not set for the key and view tasks, and they are not joined. *)
Theorem provider_failure_escapes_run
    (c : ctx) (fuel : nat) (s : state) (probe : list Q)
    (samples : list (list Q)) :
  Scales.is_unit (int_scale (app_settings c)) ->
  (oversample (app_settings c) < 2)%Z ->
  duration (app_settings c) = 0%Z ->
  (forall k, w_key_stop (app_world c) k = false) ->
  (forall i, w_clock (app_world c) i < sys_maxsize (app_world c)) ->
  w_read (app_world c) (reads s) = Sample probe ->
  (forall j v, samples !! j = Some v ->
               w_read (app_world c) (S (reads s) + j) = Sample v) ->
  w_read (app_world c) (S (reads s) + length samples) = HardFailure ->
  Forall (fun v => fields_within (S (length v)) (LogWriter._fmt c)) samples ->
  (length samples < fuel)%nat ->
  exists s',
    run c fuel s = Throw ProviderError s' /\
    r_time (results s') = r_time (results s) /\
    r_samples (results s') = r_samples (results s) /\
    r_values (results s') = r_values (results s) /\
    _stop s' = false /\
    trace s' = trace s ++ [TaskCreated KeyPolling; TaskCreated ViewRefresh].
Proof.
  intros Hu HK Hdur Hkey Hmax Hprobe Hreads Hend Hfmt Hfuel.
  destruct (scales_defined _ Hu)
    as (fac & next & dfac & E1 & E2 & E3 & Hfac & Hdfac).
  unfold run. rewrite E1, E3.
  rewrite (bind_run (modify (set_stop false)) _ s _ tt eq_refl). cbv beta.
  rewrite (bind_run (lift (Ok fac)) _ _ _ fac eq_refl). cbv beta.
  rewrite (bind_run (lift (Ok dfac)) _ _ _ dfac eq_refl). cbv beta.
  unfold _run.
  rewrite (bind_run (emit _) _ _ _ tt eq_refl). cbv beta.
  rewrite (bind_run (emit _) _ _ _ tt eq_refl). cbv beta.
  rewrite (bind_run _ _ _ _ _ (log_settings_ok c _ fac dfac next E1 E2 E3)).
  cbv beta.
  match goal with
  | |- context [bind (try_any ?b ?h) ?k ?st] =>
      rewrite (bind_run (try_any b h) k st (set_reads (S (reads st)) st) true)
  end.
  2:{ apply try_any_return.
      match goal with
      | |- bind _ _ ?st = _ =>
          rewrite (bind_run _ _ _ _ _ (get_data_sample c st probe Hprobe))
      end.
      reflexivity. }
  cbn [negb]. apply Z.eqb_eq in Hdur. rewrite Hdur.
  rewrite (bind_run (ret _) _ _ _ _ eq_refl). cbv beta.
  rewrite (bind_run (monotonic c) _ _ _ _ eq_refl). cbv beta.
  rewrite (bind_run (modify _) _ _ _ tt eq_refl). cbv beta.
  replace fuel with (length samples + S (fuel - S (length samples)))%nat by lia.
  match goal with
  | |- context [bind (main_loop c ?tm _ ?e ?d ?m0 ?n0) ?k ?st] =>
      pose proof (main_loop_same_results c tm
                    (length samples + S (fuel - S (length samples)))
                    e d m0 n0 st) as Hres;
      pose proof (main_loop_same_trace c tm
                    (length samples + S (fuel - S (length samples)))
                    e d m0 n0 st) as Htr;
      destruct (main_loop_takes c tm e HK Hkey Hmax samples
                  (S (fuel - S (length samples))) d m0 n0 st)
        as (d' & m' & s1 & Eloop & _ & R1 & S1);
        [reflexivity | apply init_wf | exact Hfmt | exact Hreads |];
      destruct (main_loop_round c tm (fuel - S (length samples)) e d' m'
                  (n0 + length samples) s1 S1 (Hmax (ticks s1)) Hkey)
        as (s2 & E2' & R2 & _ & S2 & _);
      destruct (take_sample_hard_failure c m' s2 HK) as (s3 & E3' & S3);
        [rewrite R2, R1; exact Hend|];
      assert (Efail : main_loop c tm
                        (length samples + S (fuel - S (length samples)))
                        e d m0 n0 st = Throw ProviderError s3)
  end.
  { rewrite Eloop, E2'.
    apply bind_raise. apply try_stop_other; [|discriminate].
    apply bind_raise. exact E3'. }
  rewrite (bind_raise _ _ _ _ _ Efail).
  unfold triple in Hres, Htr. rewrite Efail in Hres, Htr.
  unfold same_results in Hres. unfold same_trace in Htr. cbn in Hres, Htr.
  exists s3. split; [reflexivity|]. rewrite Hres.
  do 3 (split; [reflexivity|]).
  split; [rewrite S3; exact S2|].
  rewrite Htr, <- app_assoc. reflexivity.
Qed.

Lemma provider_failure_escapes_run_witness :
  exists s',
    run (Ctx settings_1s ina260 world_fails_at_third_read) 5 new_state
    = Throw ProviderError s' /\
    r_time (results s') = r_time (results new_state) /\
    r_samples (results s') = r_samples (results new_state) /\
    r_values (results s') = r_values (results new_state) /\
    _stop s' = false /\
    trace s' = trace new_state
               ++ [TaskCreated KeyPolling; TaskCreated ViewRefresh].
Proof.
  apply (provider_failure_escapes_run
           (Ctx settings_1s ina260 world_fails_at_third_read) 5 new_state
           reading_5_25 one_reading).
  - right. left. reflexivity.
  - reflexivity.
  - reflexivity.
  - intros k. reflexivity.
  - exact clock_below_100_bounded.
  - reflexivity.
  - intros [|j] v H; simpl in H; inversion H; reflexivity.
  - reflexivity.
  - repeat constructor.
  - cbn. lia.
Defined.

End ProviderFailure.

(** ** The summary of a session *)

Section SummaryFacts.
Import App ActiveState.

Arguments fmt_f : simpl never.
Arguments fmt_d : simpl never.

Lemma py_div_return (a b q : Q) :
  py_div a b = Ok q -> q = a / b /\ ~ b == 0.
Proof.
  unfold py_div. destruct (Qeq_bool b 0) eqn:E; [discriminate|].
  intros H. inversion H. split; [reflexivity|].
  intros Hb. apply Qeq_bool_iff in Hb. congruence.
Qed.

Lemma log_channel_return (c : ctx) (index : nat) (triple : Q * Q * Q)
    (s s' : state) :
  LogWriter.log_channel c (index, triple) s = Return tt s' ->
  exists unit,
    get_units (data_provider c) !! index = Some unit /\
    s' = set_sink (sink s ++ [channel_line unit triple]) s.
Proof.
  destruct triple as [[vmin vmean] vmax].
  unfold LogWriter.log_channel, bind, lift, getitem, log, modify.
  destruct (get_units (data_provider c) !! index) as [unit|];
    [|discriminate].
  intros H. inversion H. exists unit. split; reflexivity.
Qed.

Arguments LogWriter.log_channel : simpl never.
Arguments channel_line : simpl never.

(** The lines of the channels are those of the values paired with the
    units, in order. *)
Lemma log_channels_zip (c : ctx) (values : list (Q * Q * Q)) :
  forall (k : nat) (s s' : state),
    for_each (LogWriter.log_channel c)
             (imap (fun i v => ((k + i)%nat, v)) values) s
    = Return tt s' ->
    s' = set_sink (sink s ++ zip_with channel_line
                                      (drop k (get_units (data_provider c)))
                                      values) s /\
    (length values <= length (drop k (get_units (data_provider c))))%nat.
Proof.
  induction values as [|triple values IH]; intros k s s' H.
  - simpl in H. unfold ret in H. inversion H; subst.
    rewrite zip_with_nil_r, app_nil_r. split; [destruct s'; reflexivity|].
    simpl. lia.
  - change (imap (fun i v => ((k + i)%nat, v)) (triple :: values))
      with (((k + 0)%nat, triple)
              :: imap ((fun i v => ((k + i)%nat, v)) ∘ S) values) in H.
    rewrite (imap_ext _ (fun i v => ((S k + i)%nat, v))) in H.
    2:{ intros i v _. simpl. f_equal. lia. }
    change (for_each (LogWriter.log_channel c) (?x :: ?l))
      with (LogWriter.log_channel c x ;;; for_each (LogWriter.log_channel c) l)
      in H.
    apply bind_return in H. destruct H as (u & s1 & H1 & H). destruct u.
    apply log_channel_return in H1. destruct H1 as (unit & Hu & ->).
    rewrite Nat.add_0_r in Hu.
    apply IH in H. destruct H as (-> & Hlen).
    rewrite (drop_S _ _ _ Hu). split; [|simpl; lia].
    cbn. rewrite <- app_assoc. reflexivity.
Qed.

(** What [log_summary] writes when it returns. *)
Lemma log_summary_lines (c : ctx) (samples : nat) (s s' : state) :
  LogWriter.log_summary c samples s = Return tt s' ->
  exists fac next dfac,
    lw_scales s = Some (fac, next, dfac) /\
    s' = set_sink
           (sink s ++ summary_block (app_settings c)
                        (get_units (data_provider c)) samples (results s)
                        fac next dfac) s /\
    (length (r_values (results s))
     <= length (get_units (data_provider c)))%nat.
Proof.
  unfold LogWriter.log_summary. intros H.
  apply bind_return in H. destruct H as (s0 & sa & H0 & H).
  unfold get_state in H0. inversion H0; subst; clear H0.
  apply bind_return in H. destruct H as ([[ifac dscale] dfac] & sb & Hb & H).
  apply lift_return in Hb. destruct Hb as [Hsc ->].
  apply bind_return in H. destruct H as (d & s1 & H1 & H).
  apply lift_return in H1. destruct H1 as [Hd ->].
  apply py_div_return in Hd. destruct Hd as [-> _].
  apply bind_return in H. destruct H as (u2 & s2 & H2 & H).
  unfold log, modify in H2. inversion H2; subst; clear H2.
  apply bind_return in H. destruct H as (rate & s3 & H3 & H).
  apply lift_return in H3. destruct H3 as [Hr ->].
  apply py_div_return in Hr. destruct Hr as [-> _].
  apply bind_return in H. destruct H as (u4 & s4 & H4 & H).
  unfold log, modify in H4. inversion H4; subst; clear H4.
  apply bind_return in H. destruct H as (per_unit & s5 & H5 & H).
  apply lift_return in H5. destruct H5 as [Hp ->].
  apply py_div_return in Hp. destruct Hp as [-> _].
  apply bind_return in H. destruct H as (mean & s6 & H6 & H).
  apply lift_return in H6. destruct H6 as [Hm ->].
  apply py_div_return in Hm. destruct Hm as [-> _].
  apply bind_return in H. destruct H as (u7 & s7 & H7 & H).
  unfold log, modify in H7. inversion H7; subst; clear H7.
  apply bind_return in H. destruct H as (u8 & s8 & H8 & H).
  unfold log, modify in H8. inversion H8; subst; clear H8.
  rewrite (imap_ext pair (fun i v => ((0 + i)%nat, v))) in H
    by reflexivity.
  apply log_channels_zip in H. destruct H as (-> & Hlen).
  exists ifac, dscale, dfac.
  split; [destruct (lw_scales sa) as [x|]; [inversion Hsc; reflexivity
                                           | discriminate Hsc]|].
  split; [|exact Hlen].
  unfold summary_block. cbn. rewrite <- !app_assoc. cbn. reflexivity.
Qed.

(** [log_summary] for a session with samples: when the elapsed time and the
    sample count are not zero and the provider has a unit for every channel
    of the result, it returns normally, changes nothing but the sink, and
    appends exactly the summary: the duration line (elapsed time in the
    duration unit, one decimal), the line of the sample count with the rate
    per second, the line of the mean interval in the interval unit, the
    heading, and for each channel of the result, in order, its minimum, mean
    and maximum with two decimals and the unit of the channel. *)
Theorem log_summary_writes_block (c : ctx) (samples : nat) (s : state)
    (fac dfac : Q) (next : string) :
  lw_scales s = Some (fac, next, dfac) ->
  ~ fac == 0 -> ~ dfac == 0 ->
  ~ r_time (results s) == 0 ->
  samples <> O ->
  (length (r_values (results s)) <= length (get_units (data_provider c)))%nat ->
  LogWriter.log_summary c samples s =
  Return tt
    (set_sink (sink s ++ summary_block (app_settings c)
                           (get_units (data_provider c)) samples (results s)
                           fac next dfac) s) /\
  length (summary_block (app_settings c) (get_units (data_provider c))
                        samples (results s) fac next dfac)
  = (4 + length (r_values (results s)))%nat.
Proof.
  intros Hsc Hfac Hdfac Htime Hsamples Hunits.
  destruct (log_summary_ok c samples s fac dfac next Hsc Hfac Hdfac Htime
              Hsamples Hunits) as (lines & E & _).
  destruct (log_summary_lines c samples s _ E)
    as (fac' & next' & dfac' & Hsc' & E' & _).
  rewrite Hsc in Hsc'. inversion Hsc'; subst fac' next' dfac'.
  split; [rewrite E, E'; reflexivity|].
  unfold summary_block. rewrite length_app, length_zip_with. simpl. lia.
Qed.

Lemma log_summary_writes_block_witness :
  LogWriter.log_summary (Ctx settings_1s ina260 world_two_samples) 2
    published_state
  = Return tt
      (set_sink
         (sink published_state
          ++ summary_block settings_1s (get_units ina260) 2
               (results published_state) 1 "m" 60)
         published_state) /\
  length (summary_block settings_1s (get_units ina260) 2
            (results published_state) 1 "m" 60)
  = (4 + length (r_values (results published_state)))%nat.
Proof.
  apply (log_summary_writes_block (Ctx settings_1s ina260 world_two_samples) 2
           published_state 1 60 "m").
  - reflexivity.
  - discriminate.
  - discriminate.
  - discriminate.
  - discriminate.
  - simpl. lia.
Defined.

End SummaryFacts.

(** ** The end of a session *)

Section SessionEnd.
Import App ActiveState.

Arguments LogWriter.log_summary : simpl never.
Arguments LogWriter.log_settings : simpl never.
Arguments DataAggregator.get : simpl never.
Arguments summary_block : simpl never.
Arguments main_loop : simpl never.











End SessionEnd.

(** ** The lines of the samples *)

Section SampleLines.
Import App ActiveState.

Arguments wait_interval : simpl never.
Arguments take_sample : simpl never.
Arguments main_loop : simpl never.
Arguments _get_data : simpl never.
Arguments sleep_loop : simpl never.
Arguments LogWriter.log_values : simpl never.
Arguments DataAggregator.add : simpl never.















End SampleLines.

(** ** The durations of the pause *)

Section PauseFacts.
Import App ActiveState Pause.

Ltac step :=
  repeat (progress (unfold bind, lift, ret, throw, modify, get_state, log,
                      emit, try_any, try_stop; cbn)).

(** [pause_slices] is [sleep_loop] with the durations kept: the two end in
    the same state and run out of fuel together. *)
Lemma pause_slices_is_sleep_loop (c : ctx) (fuel : nat) :
  forall (sleep_t : Q) (s : state),
    sleep_loop c fuel sleep_t s =
    match pause_slices c fuel sleep_t s with
    | Return r s' => Return (option_map (fun _ => tt) r) s'
    | Throw e s' => Throw e s'
    end.
Proof.
  induction fuel as [|fuel IH]; intros sleep_t s; simpl.
  - destruct (Qeq_bool sleep_t 0); reflexivity.
  - destruct (Qeq_bool sleep_t 0); [reflexivity|].
    destruct (Qltb 1 sleep_t); [|reflexivity].
    unfold bind at 1 3. destruct (suspend c s) as [[] s1 | e s1];
      [|reflexivity].
    unfold bind at 1 2. unfold get_state.
    destruct (_stop s1); [reflexivity|].
    rewrite IH. unfold bind.
    destruct (pause_slices c fuel (sleep_t - 1) s1) as [[rest|] s2 | e s2];
      reflexivity.
Qed.

(** The durations when no stop key arrives. *)
Lemma pause_slices_quiet (c : ctx) (fuel : nat) :
  forall (sleep_t : Q) (s : state),
    0 <= sleep_t ->
    sleep_t <= inject_Z (Z.of_nat fuel) ->
    _stop s = false ->
    (forall k, (awaits s <= k)%nat -> w_key_stop (app_world c) k = false) ->
    exists slices s',
      pause_slices c (S fuel) sleep_t s = Return (Some slices) s' /\
      sliced sleep_t slices.
Proof.
  induction fuel as [|fuel IH]; intros sleep_t s H0 Hle Hstop Hkey.
  - assert (E : sleep_t == 0).
    { change (inject_Z (Z.of_nat 0)) with 0 in Hle. apply Qle_antisym; assumption. }
    simpl. rewrite (proj2 (Qeq_bool_iff _ _) E).
    exists [], s. split; [reflexivity|]. unfold sliced.
    rewrite (Qceiling_comp _ _ E). change (Z.to_nat (Qceiling 0)) with O.
    split; [simpl; symmetry; exact E|]. split; [constructor|].
    split; [reflexivity|]. intros i d H. discriminate H.
  - remember (S fuel) as n eqn:En. simpl.
    destruct (Qeq_bool sleep_t 0) eqn:E0.
    { apply Qeq_bool_iff in E0.
      exists [], s. split; [reflexivity|]. unfold sliced.
      rewrite (Qceiling_comp _ _ E0). change (Z.to_nat (Qceiling 0)) with O.
      split; [simpl; symmetry; exact E0|]. split; [constructor|].
      split; [reflexivity|]. intros i d H. discriminate H. }
    assert (Hpos : 0 < sleep_t).
    { apply Qle_lteq in H0. destruct H0 as [H0 | H0]; [exact H0|].
      exfalso. symmetry in H0. apply Qeq_bool_iff in H0. congruence. }
    destruct (Qltb 1 sleep_t) eqn:E1.
    + apply Qltb_lt in E1.
      unfold bind at 1. unfold suspend. step.
      rewrite Hstop, (Hkey (awaits s)) by lia. cbn.
      subst n.
      destruct (IH (sleep_t - 1)
                  (set_stop false (set_awaits (S (awaits s)) s)))
        as (rest & s' & E & Hsum & Hall & Hlen & Hone).
      * lra.
      * rewrite Nat2Z.inj_succ, <- Z.add_1_r, inject_Z_plus in Hle.
        change (inject_Z 1) with 1 in Hle. lra.
      * reflexivity.
      * intros k Hk. cbn in Hk. apply Hkey. lia.
      * rewrite E. cbn. exists (1 :: rest), s'. split; [reflexivity|].
        assert (Ec : Qceiling sleep_t = (Qceiling (sleep_t - 1) + 1)%Z).
        { apply Qceiling_unique.
          - replace (Qceiling (sleep_t - 1) + 1 - 1)%Z
              with (Qceiling (sleep_t - 1) - 1 + 1)%Z by lia.
            rewrite inject_Z_plus. pose proof (Qceiling_lt (sleep_t - 1)).
            change (inject_Z 1) with 1. lra.
          - rewrite inject_Z_plus. pose proof (Qle_ceiling (sleep_t - 1)).
            change (inject_Z 1) with 1. lra. }
        assert (Hc : (0 <= Qceiling (sleep_t - 1))%Z).
        { rewrite Zle_Qle. eapply Qle_trans; [|apply Qle_ceiling].
          change (inject_Z 0) with 0. lra. }
        split; [simpl; rewrite Hsum; ring|].
        split; [constructor; [split; lra | exact Hall]|].
        split; [simpl; rewrite Hlen, Ec; lia|].
        intros [|i] d Hd Hi; simpl in Hd.
        -- inversion Hd. reflexivity.
        -- apply (Hone i d Hd). simpl in Hi. lia.
    + apply Qltb_ge in E1.
      unfold bind at 1. unfold suspend. step.
      exists [sleep_t]. eexists. split; [reflexivity|].
      assert (Ec : Qceiling sleep_t = 1%Z).
      { apply Qceiling_unique; [exact Hpos | exact E1]. }
      split; [simpl; ring|].
      split; [constructor; [split; assumption | constructor]|].
      split; [rewrite Ec; reflexivity|].
      intros [|i] d Hd Hi; simpl in Hi; lia.
Qed.

(** The pause between two samples, when no stop key arrives. The budget is
    the interval less the time since the previous acquisition started, and
    never negative; the time of the next sample is recorded; and the budget
    is handed to [asyncio.sleep] in slices: each at most one second, each
    but the last exactly one second, one for each started second, adding up
    to the budget. The slices are those of the loop of [wait_interval]:
    [pause_slices] and [sleep_loop] are the same loop, with and without the
    durations. *)
Theorem pause_is_sliced_by_seconds
    (c : ctx) (tm : timing) (data_t_last : Q) (s : state) :
  _stop s = false ->
  (forall k, (awaits s <= k)%nat -> w_key_stop (app_world c) k = false) ->
  let budget := sleep_budget c tm data_t_last s in
  let s0 := set_next_sample_t
              (Some (w_clock (app_world c) (S (ticks s)) + budget))
              (set_ticks (S (S (ticks s))) s) in
  let s' := set_stop false
              (set_awaits (awaits s + Z.to_nat (Qceiling budget)) s0) in
  0 <= budget /\
  wait_interval c tm data_t_last s = Return (Some false) s' /\
  (exists slices,
      pause_slices c (S (Z.to_nat (Qceiling budget))) budget s0
      = Return (Some slices) s' /\
      sliced budget slices) /\
  (forall fuel sleep_t st,
      sleep_loop c fuel sleep_t st =
      match pause_slices c fuel sleep_t st with
      | Return r st' => Return (option_map (fun _ => tt) r) st'
      | Throw e st' => Throw e st'
      end).
Proof.
  intros Hstop Hkey budget s0 s'.
  assert (Hb : 0 <= budget) by apply py_max_nonneg.
  assert (Hfuel : budget <= inject_Z (Z.of_nat (Z.to_nat (Qceiling budget)))).
  { eapply Qle_trans; [apply Qle_ceiling|]. rewrite <- Zle_Qle. lia. }
  split; [exact Hb|].
  split; [apply wait_interval_slices; assumption|].
  split; [|intros fuel sleep_t st; apply pause_slices_is_sleep_loop].
  destruct (pause_slices_quiet c (Z.to_nat (Qceiling budget)) budget s0
              Hb Hfuel Hstop Hkey) as (slices & s1 & E & Hs).
  exists slices. split; [|exact Hs].
  pose proof (pause_slices_is_sleep_loop c (S (Z.to_nat (Qceiling budget)))
                budget s0) as A.
  rewrite E in A.
  rewrite (sleep_loop_slices c _ budget s0 Hb Hfuel Hstop Hkey) in A.
  cbn in A. inversion A as [A1]. rewrite E, <- A1. reflexivity.
Qed.

Lemma pause_is_sliced_by_seconds_witness :
  let c := Ctx settings_1s ina260 world_ramp in
  let budget := sleep_budget c timing_5s 99 new_state in
  let s0 := set_next_sample_t
              (Some (w_clock world_ramp (S (ticks new_state)) + budget))
              (set_ticks (S (S (ticks new_state))) new_state) in
  let s' := set_stop false
              (set_awaits (awaits new_state + Z.to_nat (Qceiling budget)) s0) in
  0 <= budget /\
  wait_interval c timing_5s 99 new_state = Return (Some false) s' /\
  (exists slices,
      pause_slices c (S (Z.to_nat (Qceiling budget))) budget s0
      = Return (Some slices) s' /\
      sliced budget slices) /\
  (forall fuel sleep_t st,
      sleep_loop c fuel sleep_t st =
      match pause_slices c fuel sleep_t st with
      | Return r st' => Return (option_map (fun _ => tt) r) st'
      | Throw e st' => Throw e st'
      end).
Proof.
  apply (pause_is_sliced_by_seconds (Ctx settings_1s ina260 world_ramp)
           timing_5s 99 new_state).
  - reflexivity.
  - intros k _. reflexivity.
Defined.

End PauseFacts.

